(** * BotManager (bot-control.js): the connection supervisor

    A shallow embedding of the class [BotManager] of [src/bot-control.js]:
    its maps, the bot objects its closures capture, the timers it arms
    with [setTimeout]/[setInterval], and every method and event handler
    that changes them.

    The external client (mineflayer) is not modelled.  What it decides
    enters as the payload of an [Event]: whether [createBot] returns or
    throws, whether [bot.chat] throws, whether [bot.quit] throws in
    [stopBot], which signal arrives on which bot, and when a timer fires.
    Calls made on the client ([chat], [quit], the keep-alive movements)
    are recorded in [actions], log lines in [log].

    Conventions:
    - a bot object is a reference [h : nat] into [objects]; [this.bots]
      maps an id to such a reference, and a handler closes over the
      reference of the bot it was installed on;
    - a timer handle is a key of [timers]; clearing removes the key, a
      timeout that fires is removed, an interval stays;
    - [this.io] is a fire-and-forget sink and is left out, as are the
      listeners that only log ([chat], [message], [playerJoined],
      [playerLeft], [death], [health], [entitySpawn], [messagestr]);
    - [loadBots] has completed before the first request is served. *)

From Stdlib Require Import QArith Qminmax Qpower.
From stdpp Require Import gmap strings list fin_maps pretty.

#[local] Set Warnings "-register-all".

(** ** JavaScript values stored in status records *)

Inductive Value : Type :=
| VUndefined
| VNull
| VStr (s : string)
| VNum (q : Q)
| VObj (o : gmap string Value).

(** A status record is a JS object: a finite map from property names to
    values.  [{ ...a, ...b }] keeps every key of [a] and [b], with [b]
    winning: stdpp's left-biased union [b ∪ a]. *)
Abbreviation StatusRecord := (gmap string Value).

Definition spread (a b : StatusRecord) : StatusRecord := b ∪ a.

(** ** Endpoint ids

    [bot.id] is whatever [bots.json] or a request body holds: a string or
    a number.  As keys of a [Map] the number [5] and the string ['5'] are
    two keys; as property names of a plain object both are ['5'].  The
    numbers are the integers of magnitude below [2^53]: a double holds
    them exactly and [String] prints them in plain decimal. *)
Inductive Id : Type :=
| IdStr (s : string)
| IdNum (n : Z).

Coercion IdStr : string >-> Id.
Bind Scope string_scope with Id.

#[global] Instance Id_eq_dec : EqDecision Id.
Proof. solve_decision. Defined.

Definition Id_to_sum (i : Id) : string + Z :=
  match i with
  | IdStr s => inl s
  | IdNum n => inr n
  end.

Definition Id_of_sum (x : string + Z) : Id :=
  match x with
  | inl s => IdStr s
  | inr n => IdNum n
  end.

#[global] Instance Id_countable : Countable Id.
Proof. apply (inj_countable' Id_to_sum Id_of_sum). by intros []. Defined.

(** [String(id)]: the property name an id turns into when it indexes a
    plain object. *)
Definition propertyKey (i : Id) : string :=
  match i with
  | IdStr s => s
  | IdNum n => pretty n
  end.

(** ** Bot configuration, bot objects, timers, events *)

(** The fields of a bot configuration that [BotManager] itself inspects.
    [server], [port], [auth] and [version] are only handed to
    [mineflayer.createBot].  [enabled] may be absent ([None]). *)
Record BotConfig : Type := {
  cfg_id : Id;
  cfg_name : string;
  cfg_username : string;
  cfg_password : option string;
  cfg_enabled : option bool
}.

(** [botConfig.enabled !== false] *)
Definition enabledNotFalse (c : BotConfig) : bool :=
  match cfg_enabled c with
  | Some false => false
  | _ => true
  end.

(** truthiness of [botConfig.password] *)
Definition hasPassword (c : BotConfig) : option string :=
  match cfg_password c with
  | Some EmptyString => None
  | Some p => Some p
  | None => None
  end.

(** A bot object as [startBot] leaves it: the configuration it was created
    from, the [manuallyStopped] flag, whether [bot.chat] is defined (it is
    as soon as [createBot] returns when the configuration names a protocol
    version), and whether the [once('spawn')] listener is still installed.
    The event handlers close over the object, so they see later writes to
    the flag. *)
Record Bot : Type := {
  botConfig : BotConfig;
  manuallyStopped : bool;
  chat : bool;
  spawnListener : bool
}.

Definition botId (b : Bot) : Id := cfg_id (botConfig b).

Inductive Level : Type := info | warn | error | message.

Inductive LogMsg : Type :=
| MsgAlreadyRunning
| MsgStarting (name username : string)
| MsgSpawned
| MsgAuthRegister
| MsgAuthLogin
| MsgKicked (reason : string)
| MsgError (err : Value)
| MsgDisconnected (reason : option string)
| MsgCreateFailed (err : Value)
| MsgDisabled
| MsgManuallyStopped
| MsgScheduled (delay : Q) (attempts : nat)
| MsgAttempting
| MsgStopping
| MsgShuttingDown
| MsgSent (text : string)
| MsgSendFailed (err : string)
| MsgQueuedAfterFailure (len : nat)
| MsgNotConnectedQueued (len : nat)
| MsgProcessing (len : nat)
| MsgSentQueued (text : string)
| MsgQueuedFailed (err : string).

Record LogEntry : Type := {
  log_bot : Id;
  log_level : Level;
  log_msg : LogMsg
}.

(** What a timer callback does when it fires. *)
Inductive Task : Type :=
| TReconnect (c : BotConfig)              (* startBot(botConfig, this.io) *)
| TKeepAlive (h : nat)                    (* the setInterval body *)
| TQueued (botId : Id) (text : string)     (* one message of a flush *)
| TAuthRegister (h : nat)                 (* /register, then arms /login *)
| TAuthLogin (h : nat).

Record Timer : Type := {
  task : Task;
  delay : Q;          (* milliseconds *)
  repeats : bool      (* setInterval *)
}.

(** Calls made on the external client. *)
Inductive Action : Type :=
| AChat (h : nat) (text : string)
| AQuit (h : nat) (reason : string)
| AKeepAlive (h : nat).

(** How a call that may throw ends: it returns, or it raises an
    exception carrying [error.message]. *)
Inductive Outcome : Type :=
| Returned
| Raised (err : string).

(** Outcome of [mineflayer.createBot]: a bot (with or without [chat]), or
    an exception carrying [error.message]. *)
Inductive Created : Type :=
| CreateOk (hasChat : bool)
| CreateThrows (msg : Value).

(** What the external client decides while a callback runs. *)
Record Extern : Type := {
  ext_create : Created;
  ext_chat : option string   (* [Some e]: bot.chat throws e *)
}.

Record Telemetry : Type := {
  tl_dimension : Value;
  tl_position : Value;
  tl_health : Value;
  tl_food : Value;
  tl_ping : option Value
}.

Inductive Event : Type :=
| EStart (c : BotConfig) (r : Created)
| EStop (botId : Id) (quitThrows : option string)
| EShutdownAll
| ESend (botId : Id) (text : string) (chatThrows : option string)
| ESpawn (h : nat) (now : string) (t : Telemetry)
| EKicked (h : nat) (reason : string)
| EError (h : nat) (msg : Value)
| EEnd (h : nat) (reason : option string)
| EMove (h : nat) (t : Telemetry)
| EFire (t : nat) (x : Extern).

(** ** The manager's state *)

Record BotManager : Type := {
  bots : gmap Id nat;                   (* id -> bot instance (a reference) *)
  botData : gmap Id BotConfig;
  botStatus : gmap Id StatusRecord;
  (* the keys of [botStatus] in the order the [Map] iterates them: the
     order in which they were first set *)
  botStatusKeys : list Id;
  keepAliveTimers : gmap Id nat;
  reconnectTimers : gmap Id nat;
  messageQueue : gmap Id (list string);
  reconnectAttempts : gmap Id nat;
  (* the heap of bot objects and the timers armed in the event loop *)
  objects : gmap nat Bot;
  timers : gmap nat Timer;
  nextBot : nat;
  nextTimer : nat;
  (* output *)
  log : list LogEntry;
  actions : list Action
}.

Definition set_bots f (m : BotManager) : BotManager :=
  {| bots := f (bots m); botData := botData m; botStatus := botStatus m;
     botStatusKeys := botStatusKeys m;
     keepAliveTimers := keepAliveTimers m; reconnectTimers := reconnectTimers m;
     messageQueue := messageQueue m; reconnectAttempts := reconnectAttempts m;
     objects := objects m; timers := timers m; nextBot := nextBot m;
     nextTimer := nextTimer m; log := log m; actions := actions m |}.

Definition set_botStatus f (m : BotManager) : BotManager :=
  {| bots := bots m; botData := botData m; botStatus := f (botStatus m);
     botStatusKeys := botStatusKeys m;
     keepAliveTimers := keepAliveTimers m; reconnectTimers := reconnectTimers m;
     messageQueue := messageQueue m; reconnectAttempts := reconnectAttempts m;
     objects := objects m; timers := timers m; nextBot := nextBot m;
     nextTimer := nextTimer m; log := log m; actions := actions m |}.

Definition set_botStatusKeys f (m : BotManager) : BotManager :=
  {| bots := bots m; botData := botData m; botStatus := botStatus m;
     botStatusKeys := f (botStatusKeys m);
     keepAliveTimers := keepAliveTimers m; reconnectTimers := reconnectTimers m;
     messageQueue := messageQueue m; reconnectAttempts := reconnectAttempts m;
     objects := objects m; timers := timers m; nextBot := nextBot m;
     nextTimer := nextTimer m; log := log m; actions := actions m |}.

Definition set_keepAliveTimers f (m : BotManager) : BotManager :=
  {| bots := bots m; botData := botData m; botStatus := botStatus m;
     botStatusKeys := botStatusKeys m;
     keepAliveTimers := f (keepAliveTimers m); reconnectTimers := reconnectTimers m;
     messageQueue := messageQueue m; reconnectAttempts := reconnectAttempts m;
     objects := objects m; timers := timers m; nextBot := nextBot m;
     nextTimer := nextTimer m; log := log m; actions := actions m |}.

Definition set_reconnectTimers f (m : BotManager) : BotManager :=
  {| bots := bots m; botData := botData m; botStatus := botStatus m;
     botStatusKeys := botStatusKeys m;
     keepAliveTimers := keepAliveTimers m; reconnectTimers := f (reconnectTimers m);
     messageQueue := messageQueue m; reconnectAttempts := reconnectAttempts m;
     objects := objects m; timers := timers m; nextBot := nextBot m;
     nextTimer := nextTimer m; log := log m; actions := actions m |}.

Definition set_messageQueue f (m : BotManager) : BotManager :=
  {| bots := bots m; botData := botData m; botStatus := botStatus m;
     botStatusKeys := botStatusKeys m;
     keepAliveTimers := keepAliveTimers m; reconnectTimers := reconnectTimers m;
     messageQueue := f (messageQueue m); reconnectAttempts := reconnectAttempts m;
     objects := objects m; timers := timers m; nextBot := nextBot m;
     nextTimer := nextTimer m; log := log m; actions := actions m |}.

Definition set_reconnectAttempts f (m : BotManager) : BotManager :=
  {| bots := bots m; botData := botData m; botStatus := botStatus m;
     botStatusKeys := botStatusKeys m;
     keepAliveTimers := keepAliveTimers m; reconnectTimers := reconnectTimers m;
     messageQueue := messageQueue m; reconnectAttempts := f (reconnectAttempts m);
     objects := objects m; timers := timers m; nextBot := nextBot m;
     nextTimer := nextTimer m; log := log m; actions := actions m |}.

Definition set_objects f (m : BotManager) : BotManager :=
  {| bots := bots m; botData := botData m; botStatus := botStatus m;
     botStatusKeys := botStatusKeys m;
     keepAliveTimers := keepAliveTimers m; reconnectTimers := reconnectTimers m;
     messageQueue := messageQueue m; reconnectAttempts := reconnectAttempts m;
     objects := f (objects m); timers := timers m; nextBot := nextBot m;
     nextTimer := nextTimer m; log := log m; actions := actions m |}.

Definition set_timers f (m : BotManager) : BotManager :=
  {| bots := bots m; botData := botData m; botStatus := botStatus m;
     botStatusKeys := botStatusKeys m;
     keepAliveTimers := keepAliveTimers m; reconnectTimers := reconnectTimers m;
     messageQueue := messageQueue m; reconnectAttempts := reconnectAttempts m;
     objects := objects m; timers := f (timers m); nextBot := nextBot m;
     nextTimer := nextTimer m; log := log m; actions := actions m |}.

Definition set_nextBot f (m : BotManager) : BotManager :=
  {| bots := bots m; botData := botData m; botStatus := botStatus m;
     botStatusKeys := botStatusKeys m;
     keepAliveTimers := keepAliveTimers m; reconnectTimers := reconnectTimers m;
     messageQueue := messageQueue m; reconnectAttempts := reconnectAttempts m;
     objects := objects m; timers := timers m; nextBot := f (nextBot m);
     nextTimer := nextTimer m; log := log m; actions := actions m |}.

Definition set_nextTimer f (m : BotManager) : BotManager :=
  {| bots := bots m; botData := botData m; botStatus := botStatus m;
     botStatusKeys := botStatusKeys m;
     keepAliveTimers := keepAliveTimers m; reconnectTimers := reconnectTimers m;
     messageQueue := messageQueue m; reconnectAttempts := reconnectAttempts m;
     objects := objects m; timers := timers m; nextBot := nextBot m;
     nextTimer := f (nextTimer m); log := log m; actions := actions m |}.

Definition set_log f (m : BotManager) : BotManager :=
  {| bots := bots m; botData := botData m; botStatus := botStatus m;
     botStatusKeys := botStatusKeys m;
     keepAliveTimers := keepAliveTimers m; reconnectTimers := reconnectTimers m;
     messageQueue := messageQueue m; reconnectAttempts := reconnectAttempts m;
     objects := objects m; timers := timers m; nextBot := nextBot m;
     nextTimer := nextTimer m; log := f (log m); actions := actions m |}.

Definition set_actions f (m : BotManager) : BotManager :=
  {| bots := bots m; botData := botData m; botStatus := botStatus m;
     botStatusKeys := botStatusKeys m;
     keepAliveTimers := keepAliveTimers m; reconnectTimers := reconnectTimers m;
     messageQueue := messageQueue m; reconnectAttempts := reconnectAttempts m;
     objects := objects m; timers := timers m; nextBot := nextBot m;
     nextTimer := nextTimer m; log := log m; actions := f (actions m) |}.

(** ** The event loop's timer primitives *)

(** [setTimeout]/[setInterval]: arm a timer and return its handle. *)
Definition arm (tk : Task) (d : Q) (rep : bool) (m : BotManager) : nat * BotManager :=
  let t := nextTimer m in
  (t, set_nextTimer S
        (set_timers (insert t {| task := tk; delay := d; repeats := rep |}) m)).

(** [clearTimeout]/[clearInterval]: a cleared timer never fires; clearing
    one that already fired changes nothing. *)
Definition clearTimer (t : nat) (m : BotManager) : BotManager :=
  set_timers (delete t) m.

Definition act (a : Action) (m : BotManager) : BotManager :=
  set_actions (fun l => l ++ [a]) m.

(** ** ReconnectPolicy

    [Math.min(300000, 5000 * Math.pow(1.5, attempts))] over the rationals.
    For [attempts <= 10] the product [5000 * 3^n / 2^n] is a dyadic
    rational below [2^53], so the double computed by the source is this
    very number; from [attempts = 11] on the product exceeds [300000] and
    both give [300000]. *)
Definition maxDelay : Q := 300000.
Definition baseDelay : Q := 5000.
Definition growthFactor : Q := 3 # 2.

Definition reconnectDelay (attempts : nat) : Q :=
  Qmin maxDelay (baseDelay * growthFactor ^ Z.of_nat attempts).

(** ** Methods of [BotManager] *)

(** [loadBots]: every bot of [bots.json] starts offline with an empty
    queue and a zero attempt counter. *)
Definition offlineRecord : StatusRecord :=
  {[ "status" := VStr "offline"; "connectedSince" := VNull;
     "lastError" := VNull; "stats" := VObj ∅ ]}.

Definition emptyManager : BotManager :=
  {| bots := ∅; botData := ∅; botStatus := ∅; botStatusKeys := [];
     keepAliveTimers := ∅;
     reconnectTimers := ∅; messageQueue := ∅; reconnectAttempts := ∅;
     objects := ∅; timers := ∅; nextBot := 0; nextTimer := 0;
     log := []; actions := [] |}.

(** [map.set(key, value)] on the keys of a [Map]: a key that is present
    keeps its place, a new key goes last. *)
Definition keySet (i : Id) (keys : list Id) : list Id :=
  if decide (i ∈ keys) then keys else keys ++ [i].

(** [this.botStatus.set(botId, status)] *)
Definition statusSet (i : Id) (status : StatusRecord) (m : BotManager) : BotManager :=
  set_botStatusKeys (keySet i) (set_botStatus (insert i status) m).

Definition loadBot (m : BotManager) (bot : BotConfig) : BotManager :=
  let i := cfg_id bot in
  set_reconnectAttempts (insert i 0)
    (set_messageQueue (insert i [])
      (statusSet i offlineRecord
        {| bots := bots m; botData := <[i := bot]> (botData m);
           botStatus := botStatus m; botStatusKeys := botStatusKeys m;
           keepAliveTimers := keepAliveTimers m;
           reconnectTimers := reconnectTimers m; messageQueue := messageQueue m;
           reconnectAttempts := reconnectAttempts m; objects := objects m;
           timers := timers m; nextBot := nextBot m; nextTimer := nextTimer m;
           log := log m; actions := actions m |})).

Definition loadBots (file : list BotConfig) : BotManager :=
  fold_left loadBot file emptyManager.

Definition emitLog (i : Id) (l : Level) (msg : LogMsg) (m : BotManager) : BotManager :=
  set_log (fun es => es ++ [{| log_bot := i; log_level := l; log_msg := msg |}]) m.

(** [updateStatus]: [{ ...currentStatus, ...updates }] with the default
    [{ status: 'offline', stats: {} }] when nothing is recorded. *)
Definition defaultCurrent : StatusRecord :=
  {[ "status" := VStr "offline"; "stats" := VObj ∅ ]}.

Definition updateStatus (i : Id) (updates : StatusRecord) (m : BotManager) : BotManager :=
  let currentStatus := default defaultCurrent (botStatus m !! i) in
  let newStatus := spread currentStatus updates in
  statusSet i newStatus m.

(** [getBotStatus]: [this.botStatus.get(botId) || { status: 'offline' }]
    (a record is an object, hence truthy). *)
Definition getBotStatus (m : BotManager) (i : Id) : StatusRecord :=
  default {[ "status" := VStr "offline" ]} (botStatus m !! i).

(** A plain object holding status records, as [{}] creates it and
    assignments fill it: its own properties, and its prototype when that
    is no longer [Object.prototype] ([None]). *)
Record Statuses : Type := {
  own : gmap string StatusRecord;
  proto : option StatusRecord
}.

(** [statuses[key] = status].  The name ['__proto__'] is the accessor
    inherited from [Object.prototype]: assigning an object to it replaces
    the prototype and creates no own property.  (A status record has no
    property of that name, so the accessor stays in reach.) *)
Definition assign (key : string) (status : StatusRecord) (statuses : Statuses) : Statuses :=
  if decide (key = "__proto__")
  then {| own := own statuses; proto := Some status |}
  else {| own := <[key := status]> (own statuses); proto := proto statuses |}.

(** [getAllBotStatuses]: [this.botStatus.forEach] visits the entries in
    the order of [botStatusKeys] and assigns each to the property named
    by its id. *)
Definition getAllBotStatuses (m : BotManager) : Statuses :=
  fold_left (fun statuses i =>
               match botStatus m !! i with
               | Some status => assign (propertyKey i) status statuses
               | None => statuses
               end)
    (botStatusKeys m) {| own := ∅; proto := None |}.

(** [getBotStats] *)
Definition getBotStats (m : BotManager) (i : Id) : Value :=
  match botStatus m !! i with
  | Some status =>
      match status !! "stats" with
      | Some (VObj o) => VObj o
      | _ => VObj ∅
      end
  | None => VObj ∅
  end.

(** The state of an endpoint as a caller reads it. *)
Definition stateOf (m : BotManager) (i : Id) : option Value :=
  getBotStatus m i !! "status".

(** [cleanupBot(botId, scheduleReconnect = true)] *)
Definition cleanupBot (i : Id) (scheduleReconnect : bool) (m : BotManager) : BotManager :=
  let m := set_bots (delete i) m in
  let m := match keepAliveTimers m !! i with
           | Some t => set_keepAliveTimers (delete i) (clearTimer t m)
           | None => m
           end in
  if scheduleReconnect then m
  else match reconnectTimers m !! i with
       | Some t => set_reconnectTimers (delete i) (clearTimer t m)
       | None => m
       end.

(** The bot object registered for an id, if any. *)
Definition registered (m : BotManager) (i : Id) : option (nat * Bot) :=
  match bots m !! i with
  | Some h => match objects m !! h with
              | Some b => Some (h, b)
              | None => None
              end
  | None => None
  end.

(** [scheduleReconnect(botId, botConfig)].  Every caller passes the
    configuration object of the bot, so [!botConfig] is false. *)
Definition scheduleReconnect (i : Id) (c : BotConfig) (m : BotManager) : BotManager :=
  if negb (enabledNotFalse c) then emitLog i info MsgDisabled m
  else
    let stopped := match registered m i with
                   | Some (_, b) => manuallyStopped b
                   | None => false
                   end in
    if stopped then emitLog i info MsgManuallyStopped m
    else
      let m := match reconnectTimers m !! i with
               | Some t => clearTimer t m
               | None => m
               end in
      let attempts := default 0 (reconnectAttempts m !! i) + 1 in
      let m := set_reconnectAttempts (insert i attempts) m in
      let d := reconnectDelay attempts in
      let m := emitLog i info (MsgScheduled d attempts) m in
      let '(timer, m) := arm (TReconnect c) d false m in
      set_reconnectTimers (insert i timer) m.

(** [startBot(botConfig)].  [r] is what [mineflayer.createBot] does.
    Installing the listeners cannot throw, so the [catch] branch is
    reached exactly when [createBot] throws. *)
Definition startBot (c : BotConfig) (r : Created) (m : BotManager) : BotManager :=
  let i := cfg_id c in
  let m := match reconnectTimers m !! i with
           | Some t => set_reconnectTimers (delete i) (clearTimer t m)
           | None => m
           end in
  match bots m !! i with
  | Some _ => emitLog i warn MsgAlreadyRunning m
  | None =>
      let m := emitLog i info (MsgStarting (cfg_name c) (cfg_username c)) m in
      let m := updateStatus i {[ "status" := VStr "connecting" ]} m in
      match r with
      | CreateOk hasChat =>
          let h := nextBot m in
          let bot := {| botConfig := c; manuallyStopped := false;
                        chat := hasChat; spawnListener := true |} in
          let m := set_nextBot S (set_objects (insert h bot) m) in
          let m := set_bots (insert i h) m in
          set_reconnectAttempts (insert i 0) m
      | CreateThrows msg =>
          let m := emitLog i error (MsgCreateFailed msg) m in
          let m := updateStatus i {[ "status" := VStr "error"; "lastError" := msg ]} m in
          if enabledNotFalse c then scheduleReconnect i c m else m
      end
  end.

(** [bot.manuallyStopped = true] *)
Definition markStopped (b : Bot) : Bot :=
  {| botConfig := botConfig b; manuallyStopped := true;
     chat := chat b; spawnListener := spawnListener b |}.

(** [stopBot(botId)].  [bot.quit] ends the connection; a call that
    returned is recorded as an action, and the client's [end] signal
    arrives later as an event.  The call is not guarded: when [bot.quit]
    throws, [stopBot] raises at that point, after the flag was set and
    before [cleanupBot]. *)
Definition stopBot (i : Id) (quitThrows : option string) (m : BotManager)
    : Outcome * BotManager :=
  let bot := bots m !! i in
  let m := match reconnectTimers m !! i with
           | Some t => set_reconnectTimers (delete i) (clearTimer t m)
           | None => m
           end in
  let m := set_reconnectAttempts (insert i 0) m in
  match bot with
  | Some h =>
      let m := emitLog i info MsgStopping m in
      let m := set_objects (alter markStopped h) m in
      match quitThrows with
      | None =>
          let m := act (AQuit h "Stopped by user") m in
          (Returned, cleanupBot i false m)
      | Some e => (Raised e, m)
      end
  | None => (Returned, updateStatus i {[ "status" := VStr "offline" ]} m)
  end.

(** [shutdownAll()]: [this.bots.forEach] visits the registered bots only.
    [bot.quit] is called inside [try]/[catch], so whether it throws makes
    no difference to the manager. *)
Definition shutdownOne (m : BotManager) (entry : Id * nat) : BotManager :=
  let '(i, h) := entry in
  cleanupBot i false (act (AQuit h "System shutdown") m).

Definition shutdownAll (m : BotManager) : BotManager :=
  let m := emitLog "system" info MsgShuttingDown m in
  let m := fold_left shutdownOne (map_to_list (bots m)) m in
  set_bots (fun _ => ∅) m.

(** [queue.push(message)] on [this.messageQueue.get(botId) || []]. *)
Definition enqueue (i : Id) (text : string) (m : BotManager) : nat * BotManager :=
  let queue := default [] (messageQueue m !! i) ++ [text] in
  (length queue, set_messageQueue (insert i queue) m).

(** [sendMessage(botId, message)]: [true] when [bot.chat] was called and
    returned, [false] when the message was queued. *)
Definition sendMessage (i : Id) (text : string) (chatThrows : option string)
    (m : BotManager) : bool * BotManager :=
  match registered m i with
  | Some (h, {| chat := true |}) =>
      match chatThrows with
      | None => (true, emitLog i info (MsgSent text) (act (AChat h text) m))
      | Some e =>
          let m := emitLog i error (MsgSendFailed e) m in
          let '(n, m) := enqueue i text m in
          (false, emitLog i info (MsgQueuedAfterFailure n) m)
      end
  | _ =>
      let '(n, m) := enqueue i text m in
      (false, emitLog i info (MsgNotConnectedQueued n) m)
  end.

(** [processMessageQueue(botId)]: one timeout per message, [1000 * index]
    milliseconds out, then the queue is replaced by [[]]. *)
Fixpoint armQueued (i : Id) (index : nat) (queue : list string) (m : BotManager) : BotManager :=
  match queue with
  | [] => m
  | text :: rest =>
      armQueued i (S index) rest
        (snd (arm (TQueued i text) (inject_Z (1000 * Z.of_nat index)) false m))
  end.

Definition processMessageQueue (i : Id) (m : BotManager) : BotManager :=
  let queue := default [] (messageQueue m !! i) in
  match queue with
  | [] => m
  | _ =>
      let m := emitLog i info (MsgProcessing (length queue)) m in
      let m := armQueued i 0 queue m in
      set_messageQueue (insert i []) m
  end.

(** [startKeepAlive(botId)] *)
Definition startKeepAlive (i : Id) (m : BotManager) : BotManager :=
  match bots m !! i with
  | None => m
  | Some h =>
      let m := match keepAliveTimers m !! i with
               | Some t => clearTimer t m
               | None => m
               end in
      let '(timer, m) := arm (TKeepAlive h) 45000 true m in
      set_keepAliveTimers (insert i timer) m
  end.

(** ** Event handlers installed by [startBot]

    Each handler closes over [bot], [botId] and [botConfig] of the call
    that created it; [h] is the reference to that bot object. *)

Definition onSpawn (h : nat) (now : string) (t : Telemetry) (m : BotManager) : BotManager :=
  match objects m !! h with
  | Some b =>
      if spawnListener b then
        let i := botId b in
        let m := set_objects
                   (insert h {| botConfig := botConfig b; manuallyStopped := manuallyStopped b;
                                chat := chat b; spawnListener := false |}) m in
        let m := emitLog i info MsgSpawned m in
        let m := updateStatus i
                   {[ "status" := VStr "online"; "connectedSince" := VStr now;
                      "world" := tl_dimension t; "dimension" := tl_dimension t;
                      "position" := tl_position t ]} m in
        let m := snd (arm (TAuthRegister h) 5000 false m) in
        let m := startKeepAlive i m in
        processMessageQueue i m
      else m
  | None => m
  end.

(** The tail shared by the [kicked], [error] and [end] handlers. *)
Definition afterDisconnect (b : Bot) (m : BotManager) : BotManager :=
  let i := botId b in
  let m := if enabledNotFalse (botConfig b) && negb (manuallyStopped b)
           then scheduleReconnect i (botConfig b) m
           else m in
  cleanupBot i true m.

Definition onKicked (h : nat) (reason : string) (m : BotManager) : BotManager :=
  match objects m !! h with
  | Some b =>
      let i := botId b in
      let m := emitLog i warn (MsgKicked reason) m in
      let m := updateStatus i
                 {[ "status" := VStr "offline";
                    "lastError" := VStr ("Kicked: " +:+ reason) ]} m in
      afterDisconnect b m
  | None => m
  end.

Definition onError (h : nat) (msg : Value) (m : BotManager) : BotManager :=
  match objects m !! h with
  | Some b =>
      let i := botId b in
      let m := emitLog i error (MsgError msg) m in
      let m := updateStatus i {[ "status" := VStr "error"; "lastError" := msg ]} m in
      afterDisconnect b m
  | None => m
  end.

Definition onEnd (h : nat) (reason : option string) (m : BotManager) : BotManager :=
  match objects m !! h with
  | Some b =>
      let i := botId b in
      let m := emitLog i warn (MsgDisconnected reason) m in
      let m := updateStatus i {[ "status" := VStr "offline" ]} m in
      afterDisconnect b m
  | None => m
  end.

(** The [move] handler writes into the [stats] object of the current
    record; with no record [this.botStatus.get(botId).stats] throws and
    nothing changes. *)
Definition onMove (h : nat) (t : Telemetry) (m : BotManager) : BotManager :=
  match objects m !! h with
  | Some b =>
      let i := botId b in
      match botStatus m !! i with
      | Some status =>
          let stats := match status !! "stats" with
                       | Some (VObj o) => o
                       | _ => ∅
                       end in
          let stats := <["position" := tl_position t]> stats in
          let stats := <["world" := tl_dimension t]> stats in
          let stats := <["dimension" := tl_dimension t]> stats in
          let stats := <["health" := tl_health t]> stats in
          let stats := <["food" := tl_food t]> stats in
          let stats := match tl_ping t with
                       | Some p => <["ping" := p]> stats
                       | None => stats
                       end in
          updateStatus i {[ "stats" := VObj stats ]} m
      | None => m
      end
  | None => m
  end.

(** ** Timer callbacks *)

Definition runTask (tk : Task) (x : Extern) (m : BotManager) : BotManager :=
  match tk with
  | TReconnect c =>
      let m := emitLog (cfg_id c) info MsgAttempting m in
      startBot c (ext_create x) m
  | TKeepAlive h =>
      (* look, step forward, sometimes jump: calls on the client only *)
      act (AKeepAlive h) m
  | TQueued i text =>
      match registered m i with
      | Some (h, {| chat := true |}) =>
          match ext_chat x with
          | None => emitLog i info (MsgSentQueued text) (act (AChat h text) m)
          | Some e => emitLog i error (MsgQueuedFailed e) m
          end
      | _ => m
      end
  | TAuthRegister h =>
      match objects m !! h with
      | Some b =>
          match hasPassword (botConfig b) with
          | Some p =>
              let m := match ext_chat x with
                       | None =>
                           emitLog (botId b) info MsgAuthRegister
                             (act (AChat h ("/register " +:+ p +:+ " " +:+ p)) m)
                       | Some _ => m
                       end in
              snd (arm (TAuthLogin h) 2000 false m)
          | None => m
          end
      | None => m
      end
  | TAuthLogin h =>
      match objects m !! h with
      | Some b =>
          match hasPassword (botConfig b), ext_chat x with
          | Some p, None =>
              emitLog (botId b) info MsgAuthLogin (act (AChat h ("/login " +:+ p)) m)
          | _, _ => m
          end
      | None => m
      end
  end.

(** A timeout is disarmed when it fires, an interval stays armed. *)
Definition fire (t : nat) (x : Extern) (m : BotManager) : BotManager :=
  match timers m !! t with
  | Some tm =>
      let m := if repeats tm then m else clearTimer t m in
      runTask (task tm) x m
  | None => m
  end.

(** ** The supervisor as a transition system *)

Definition step (m : BotManager) (e : Event) : BotManager :=
  match e with
  | EStart c r => startBot c r m
  | EStop i quitThrows => snd (stopBot i quitThrows m)
  | EShutdownAll => shutdownAll m
  | ESend i text chatThrows => snd (sendMessage i text chatThrows m)
  | ESpawn h now t => onSpawn h now t m
  | EKicked h reason => onKicked h reason m
  | EError h msg => onError h msg m
  | EEnd h reason => onEnd h reason m
  | EMove h t => onMove h t m
  | EFire t x => fire t x m
  end.

Definition run (m : BotManager) (es : list Event) : BotManager :=
  fold_left step es m.

(** States the manager can be in: [loadBots] followed by any events. *)
Definition reachable (m : BotManager) : Prop :=
  ∃ file es, m = run (loadBots file) es.

(** The delays announced by [scheduleReconnect], oldest first. *)
Definition scheduledDelays (m : BotManager) : list Q :=
  omap (fun e => match log_msg e with
                 | MsgScheduled d _ => Some d
                 | _ => None
                 end) (log m).

(** The reconnect timers that can still fire for an endpoint. *)
Definition pendingReconnect (m : BotManager) (i : Id) (t : nat) : Prop :=
  ∃ c d r, timers m !! t = Some {| task := TReconnect c; delay := d; repeats := r |}
           ∧ cfg_id c = i.

(** An event names an endpoint when it is a start or stop request for it. *)
Definition names (i : Id) (e : Event) : Prop :=
  match e with
  | EStart c _ => cfg_id c = i
  | EStop j _ => j = i
  | _ => False
  end.

(** ** Scenario data: the endpoint [e1] of the specification's scenarios *)

Definition e1 : BotConfig :=
  {| cfg_id := "e1"; cfg_name := "Bot One"; cfg_username := "bot1";
     cfg_password := None; cfg_enabled := Some true |}.

Definition clientOk : Extern := {| ext_create := CreateOk true; ext_chat := None |}.

Definition clientDown : Extern :=
  {| ext_create := CreateThrows (VStr "connect ECONNREFUSED"); ext_chat := None |}.

Definition overworld : Telemetry :=
  {| tl_dimension := VStr "overworld"; tl_position := VStr "0,64,0";
     tl_health := VNum 20; tl_food := VNum 20; tl_ping := None |}.

(** ** Invariants of reachable states *)

(** Bot references are allocated in order. *)
Definition fresh (m : BotManager) : Prop :=
  ∀ h, is_Some (objects m !! h) → h < nextBot m.

(** A registered bot object belongs to the id it is registered under. *)
Definition owned (m : BotManager) : Prop :=
  ∀ i h, bots m !! i = Some h → ∃ b, objects m !! h = Some b ∧ botId b = i.

(** An endpoint with a registered bot has no reconnect timer on record. *)
Definition exclusive (m : BotManager) : Prop :=
  ∀ i, is_Some (bots m !! i) → reconnectTimers m !! i = None.

(** Every armed reconnect timer is the one on record for its endpoint. *)
Definition tracked (m : BotManager) : Prop :=
  ∀ t c d r,
    timers m !! t = Some {| task := TReconnect c; delay := d; repeats := r |} →
    reconnectTimers m !! cfg_id c = Some t.

(** An endpoint with a registered bot reads connecting or online; so one
    that reads offline or error has none. *)
Definition registeredLive (m : BotManager) : Prop :=
  ∀ i, is_Some (bots m !! i) →
    stateOf m i = Some (VStr "connecting") ∨ stateOf m i = Some (VStr "online").

Record wf (m : BotManager) : Prop := {
  wf_fresh : fresh m;
  wf_owned : owned m;
  wf_exclusive : exclusive m;
  wf_tracked : tracked m;
  wf_live : registeredLive m
}.

(** [quiet m m']: [m'] differs from [m] only in queues, counters,
    keep-alive records, output, and timers other than reconnect timers. *)
Definition quiet (m m' : BotManager) : Prop :=
  bots m' = bots m ∧ objects m' = objects m
  ∧ reconnectTimers m' = reconnectTimers m ∧ botStatus m' = botStatus m
  ∧ nextBot m' = nextBot m
  ∧ ∀ t c d r,
      timers m' !! t = Some {| task := TReconnect c; delay := d; repeats := r |} →
      timers m !! t = Some {| task := TReconnect c; delay := d; repeats := r |}.

(** Nothing in the manager refers to endpoint [i]: no status record, no
    bot object, no reconnect timer. *)
Definition unknown (i : Id) (m : BotManager) : Prop :=
  botStatus m !! i = None
  ∧ (∀ h b, objects m !! h = Some b → botId b ≠ i)
  ∧ (∀ t c d r,
       timers m !! t = Some {| task := TReconnect c; delay := d; repeats := r |} →
       cfg_id c ≠ i).

(** ** After a manual stop *)

(** No reconnect is on record for endpoint [i] and none is armed. *)
Definition noRetry (i : Id) (m : BotManager) : Prop :=
  reconnectTimers m !! i = None
  ∧ ∀ t c d r,
      timers m !! t = Some {| task := TReconnect c; delay := d; repeats := r |} →
      cfg_id c ≠ i.

(** The delays of the reconnects announced for endpoint [i], oldest
    first. *)
Definition scheduledFor (i : Id) (m : BotManager) : list Q :=
  omap (fun e => match log_msg e with
                 | MsgScheduled d _ => if decide (log_bot e = i) then Some d else None
                 | _ => None
                 end) (log m).

(** [h] is a bot of endpoint [i] that does not carry the stop flag. *)
Definition unmarkedBotOf (i : Id) (m : BotManager) (h : nat) : bool :=
  match objects m !! h with
  | Some b => bool_decide (botId b = i) && negb (manuallyStopped b)
  | None => false
  end.

(** A start request for endpoint [i]. *)
Definition startOf (i : Id) (e : Event) : bool :=
  match e with
  | EStart c _ => bool_decide (cfg_id c = i)
  | _ => false
  end.

(** A [kicked], [error] or [end] signal of a bot of endpoint [i] that did
    not carry the stop flag in state [m0]. *)
Definition staleSignal (i : Id) (m0 : BotManager) (e : Event) : bool :=
  match e with
  | EKicked h _ | EError h _ | EEnd h _ => unmarkedBotOf i m0 h
  | _ => false
  end.

(** What may follow a stop of endpoint [i] that left the manager in state
    [m0]: every event but a start request for [i] and a disconnect signal
    of a bot of [i] that the stop did not mark.  [stop] marks the bot
    that is registered, so the bots it leaves unmarked are those that a
    disconnect handler had unregistered before. *)
Definition followsStop (i : Id) (m0 : BotManager) (e : Event) : bool :=
  negb (startOf i e) && negb (staleSignal i m0 e).

(** Endpoint [i] in state [m], some time after the stop that left state
    [m0]: no reconnect is on record or armed, none was announced, no bot
    of [i] was created, no flag was taken back, and an endpoint left
    without a registered bot still has none. *)
Definition stoppedSince (i : Id) (m0 m : BotManager) : Prop :=
  noRetry i m
  ∧ (∀ h, unmarkedBotOf i m h = true → unmarkedBotOf i m0 h = true)
  ∧ scheduledFor i m = scheduledFor i m0
  ∧ (bots m0 !! i = None → bots m !! i = None)
  ∧ (∀ h b, objects m0 !! h = Some b →
       ∃ b', objects m !! h = Some b' ∧ botId b' = botId b).

(** A second endpoint, with an AuthMe password. *)
Definition e2 : BotConfig :=
  {| cfg_id := "e2"; cfg_name := "Bot Two"; cfg_username := "bot2";
     cfg_password := Some "hunter2"; cfg_enabled := None |}.

(** [e1] connected, with a message that was queued before it spawned
    on its way out. *)
Definition connectedFlushing : BotManager :=
  run (loadBots [e1; e2])
    [ESend "e1" "queued" None; EStart e1 (CreateOk true);
     ESpawn 0 "2025-01-01T00:00:00Z" overworld].

(** A future in which the timers left armed by the stop fire, another
    endpoint starts, fails and reconnects, a message is sent, the stop is
    repeated, the signals of the stopped bot arrive late, and the manager
    shuts down. *)
Definition busyFuture : list Event :=
  [EFire 0 clientOk; EFire 2 clientOk;
   EStart e2 (CreateOk true); EError 1 (VStr "connect ECONNREFUSED");
   EFire 3 clientOk; ESend "e1" "hello" None; EStop "e1" None;
   EKicked 0 "Server closed"; EEnd 0 None; EMove 0 overworld; EShutdownAll].

(** The reconnect timer on record for [i] fires and [createBot] throws. *)
Definition retryThrows (i : Id) (msg : Value) (m : BotManager) : BotManager :=
  match reconnectTimers m !! i with
  | Some t => fire t {| ext_create := CreateThrows msg; ext_chat := None |} m
  | None => m
  end.

(** Endpoint [cfg_id c] waits for its [a]-th retry: nothing is registered
    and the timer on record is armed with [reconnectDelay a]. *)
Definition armedRetry (c : BotConfig) (a : nat) (m : BotManager) : Prop :=
  bots m !! cfg_id c = None
  ∧ reconnectAttempts m !! cfg_id c = Some a
  ∧ ∃ t, reconnectTimers m !! cfg_id c = Some t
         ∧ timers m !! t
           = Some {| task := TReconnect c; delay := reconnectDelay a; repeats := false |}.

(** Three connect failures reported by the client's [error] signal, each
    followed by the scheduled retry, whose [createBot] returns a bot. *)
Definition threeConnectErrors : list Event :=
  [EStart e1 (CreateOk true);
   EError 0 (VStr "connect ECONNREFUSED"); EFire 0 clientOk;
   EError 1 (VStr "connect ECONNREFUSED"); EFire 1 clientOk;
   EError 2 (VStr "connect ECONNREFUSED")].

(** Three connect failures where [createBot] itself throws. *)
Definition threeCreateFailures : list Event :=
  [EStart e1 (CreateThrows (VStr "connect ECONNREFUSED"));
   EFire 0 clientDown; EFire 1 clientDown].

(** [e1] disconnected after a connect error, its reconnect pending. *)
Definition waitingForRetry : BotManager :=
  run (loadBots [e1])
    [EStart e1 (CreateOk true); EError 0 (VStr "connect ECONNREFUSED")].

(** [e1] connected and spawned. *)
Definition connected : BotManager :=
  run (loadBots [e1])
    [EStart e1 (CreateOk true); ESpawn 0 "2025-01-01T00:00:00Z" overworld].

(** ** The status store and its keys *)

(** [botStatusKeys] holds the keys of [botStatus], once each. *)
Definition keysInSync (m : BotManager) : Prop :=
  NoDup (botStatusKeys m)
  ∧ ∀ i, i ∈ botStatusKeys m ↔ is_Some (botStatus m !! i).

(** Endpoints whose ids differ as [Map] keys and agree as property
    names, and one whose id is the name of the prototype accessor. *)
Definition five : BotConfig :=
  {| cfg_id := IdNum 5; cfg_name := "Five"; cfg_username := "five";
     cfg_password := None; cfg_enabled := None |}.

Definition fiveStr : BotConfig :=
  {| cfg_id := "5"; cfg_name := "Five again"; cfg_username := "five2";
     cfg_password := None; cfg_enabled := None |}.

Definition protoBot : BotConfig :=
  {| cfg_id := "__proto__"; cfg_name := "Proto"; cfg_username := "proto";
     cfg_password := None; cfg_enabled := None |}.

(** ** Live connection handles

    A handle is live from the moment [createBot] returned it until the
    client reports the end of its connection (the [end] signal) or the
    manager told it to quit. *)
Definition quitCalled (m : BotManager) (h : nat) : bool :=
  existsb (fun a => match a with
                    | AQuit h' _ => bool_decide (h' = h)
                    | _ => false
                    end) (actions m).

Definition endSeen (es : list Event) (h : nat) : bool :=
  existsb (fun e => match e with
                    | EEnd h' _ => bool_decide (h' = h)
                    | _ => false
                    end) es.

(** [h] is a live handle of endpoint [i] in the state [m] reached by the
    events [es]. *)
Definition live (m : BotManager) (es : list Event) (i : Id) (h : nat) : bool :=
  match objects m !! h with
  | Some b => bool_decide (botId b = i) && negb (quitCalled m h) && negb (endSeen es h)
  | None => false
  end.

(** The live handles of endpoint [i] after [loadBots] and the events
    [es]. *)
Definition liveHandles (file : list BotConfig) (es : list Event) (i : Id) : list nat :=
  let m := run (loadBots file) es in
  List.filter (live m es i) (seq 0 (nextBot m)).

(** A stop, a quick restart, the [end] signal of the stopped bot arriving
    late, and the spawn of the new bot. *)
Definition lateEndAfterRestart : list Event :=
  [EStart e1 (CreateOk true); EStop "e1" None; EStart e1 (CreateOk true);
   EEnd 0 (Some "disconnect.quitting");
   ESpawn 1 "2025-01-01T00:00:00Z" overworld].

(** A connection error that the connection survives, and the retry it
    schedules. *)
Definition errorThenRetryFires : list Event :=
  [EStart e1 (CreateOk true); ESpawn 0 "2025-01-01T00:00:00Z" overworld;
   EError 0 (VStr "read ECONNRESET"); EFire 2 clientOk].

(** [keepsFields m m']: every status record of [m] is still there in
    [m'], with at least the same top-level fields. *)
Definition keepsFields (m m' : BotManager) : Prop :=
  ∀ i prior, botStatus m !! i = Some prior →
    ∃ new, botStatus m' !! i = Some new ∧ dom prior ⊆ dom new.

(** The bot registered for [i] reports an error; then the reconnect timer
    on record fires and [createBot] returns a bot. *)
Definition errorThenRetry (i : Id) (msg : Value) (m : BotManager) : BotManager :=
  match bots m !! i with
  | Some h =>
      let m := onError h msg m in
      match reconnectTimers m !! i with
      | Some t => fire t clientOk m
      | None => m
      end
  | None => m
  end.

(** Keep-alive records only hold timers that were armed already. *)
Definition keepAliveFresh (m : BotManager) : Prop :=
  ∀ i t, keepAliveTimers m !! i = Some t → t < nextTimer m.

(** Endpoint [cfg_id c] has a bot of configuration [c] registered, not
    stopped, with the attempt counter at 0, as [startBot] leaves it. *)
Definition justStarted (c : BotConfig) (m : BotManager) : Prop :=
  keepAliveFresh m
  ∧ reconnectAttempts m !! cfg_id c = Some 0
  ∧ ∃ h b, bots m !! cfg_id c = Some h ∧ objects m !! h = Some b
           ∧ botConfig b = c ∧ manuallyStopped b = false.

(** The timers [ts] fire one after the other. *)
Definition fireAll (ts : list nat) (x : Extern) (m : BotManager) : BotManager :=
  fold_left (fun m t => fire t x m) ts m.

(** ** Further notions used by the properties of the whole class *)

(** Every armed keep-alive interval is the one on record for an endpoint
    whose registered bot is the bot the interval moves. *)
Definition keepAliveTracked (m : BotManager) : Prop :=
  ∀ t h d r,
    timers m !! t = Some {| task := TKeepAlive h; delay := d; repeats := r |} →
    ∃ i, keepAliveTimers m !! i = Some t ∧ bots m !! i = Some h.

(** A keep-alive timer is on record only for an endpoint with a registered
    bot. *)
Definition keepAliveRecorded (m : BotManager) : Prop :=
  ∀ i t, keepAliveTimers m !! i = Some t → is_Some (bots m !! i).

(** What the manager holds about one endpoint id. *)
Definition view (m : BotManager) (j : Id)
  : option nat * option StatusRecord * option nat * option nat
    * option (list string) * option nat :=
  (bots m !! j, botStatus m !! j, keepAliveTimers m !! j,
   reconnectTimers m !! j, messageQueue m !! j, reconnectAttempts m !! j).

(** The endpoint a timer callback works for. *)
Definition taskConcerns (m : BotManager) (tk : Task) (j : Id) : Prop :=
  match tk with
  | TReconnect c => cfg_id c = j
  | TQueued i _ => i = j
  | TKeepAlive h | TAuthRegister h | TAuthLogin h =>
      ∃ b, objects m !! h = Some b ∧ botId b = j
  end.

(** [concerns m e j]: in state [m] the event [e] is a request for endpoint
    [j], a signal of one of its bots, or a timer armed for it;
    [shutdownAll] concerns every endpoint. *)
Definition concerns (m : BotManager) (e : Event) (j : Id) : Prop :=
  match e with
  | EStart c _ => cfg_id c = j
  | EStop i _ => i = j
  | EShutdownAll => True
  | ESend i _ _ => i = j
  | ESpawn h _ _ | EKicked h _ | EError h _ | EEnd h _ | EMove h _ =>
      ∃ b, objects m !! h = Some b ∧ botId b = j
  | EFire t _ =>
      match timers m !! t with
      | Some tm => taskConcerns m (task tm) j
      | None => False
      end
  end.

(** An endpoint with auto-reconnect switched off. *)
Definition manualOnly : BotConfig :=
  {| cfg_id := "e3"; cfg_name := "Bot Three"; cfg_username := "bot3";
     cfg_password := None; cfg_enabled := Some false |}.

(** * Properties *)

(** ** Footprints of the helper methods *)

Ltac unfold_ops :=
  unfold afterDisconnect, scheduleReconnect, cleanupBot, startKeepAlive,
    processMessageQueue, enqueue, arm, clearTimer, act, emitLog, registered in *.

Ltac split_cases :=
  repeat (simpl in *; case_match; simplify_eq); simpl in *.

Lemma botStatus_cleanupBot i s m : botStatus (cleanupBot i s m) = botStatus m.
Proof. unfold_ops. by split_cases. Qed.

Lemma botStatus_scheduleReconnect i c m :
  botStatus (scheduleReconnect i c m) = botStatus m.
Proof. unfold_ops. by split_cases. Qed.

Lemma botStatus_afterDisconnect b m : botStatus (afterDisconnect b m) = botStatus m.
Proof.
  unfold afterDisconnect. rewrite botStatus_cleanupBot.
  case_match; [apply botStatus_scheduleReconnect | done].
Qed.

Lemma getBotStatus_updateStatus i upd m :
  getBotStatus (updateStatus i upd m) i
  = spread (default defaultCurrent (botStatus m !! i)) upd.
Proof. unfold getBotStatus, updateStatus. simpl. by rewrite lookup_insert_eq. Qed.

Lemma getBotStatus_ext m m' i :
  botStatus m' = botStatus m → getBotStatus m' i = getBotStatus m i.
Proof. unfold getBotStatus. by intros ->. Qed.

(** ** ReconnectPolicy *)

Section ReconnectPolicy.
Local Open Scope Q_scope.

Lemma growth_step (n : nat) :
  growthFactor ^ Z.of_nat n <= growthFactor ^ Z.of_nat (n + 1).
Proof. apply Qpower_le_compat_l; [lia | discriminate]. Qed.

Lemma reconnectDelay_mono (n : nat) : reconnectDelay n <= reconnectDelay (n + 1).
Proof.
  unfold reconnectDelay. apply Q.min_le_compat_l.
  apply Qmult_le_l; [reflexivity | apply growth_step].
Qed.

Lemma reconnectDelay_le_max (n : nat) : reconnectDelay n <= maxDelay.
Proof. apply Q.le_min_l. Qed.

Lemma reconnectDelay_capped (n : nat) : (11 ≤ n)%nat → reconnectDelay n == maxDelay.
Proof.
  intros H. unfold reconnectDelay. apply Q.min_l.
  apply Qle_trans with (baseDelay * growthFactor ^ 11); [discriminate |].
  apply Qmult_le_l; [reflexivity |].
  apply Qpower_le_compat_l; [lia | discriminate].
Qed.

Lemma reconnectDelay_below_cap (n : nat) : (n ≤ 10)%nat → reconnectDelay n < maxDelay.
Proof.
  intros H. do 11 (destruct n as [|n]; [reflexivity |]). lia.
Qed.

(** C2, as stated, fails: the first retry (attempt 1) waits 7.5 s, not the
    base delay of 5 s. *)
Lemma first_delay_is_not_base :
  reconnectDelay 1 == 7500 ∧ ¬ reconnectDelay 1 == baseDelay.
Proof. split; [reflexivity | discriminate]. Qed.

(** C2 (amended): for every attempt count n ≥ 1 the delay is monotone
    and bounded by the cap, [delay n ≤ delay (n+1) ≤ maxDelay]; the first
    retry waits [baseDelay * growthFactor] = 7500 ms, and [baseDelay]
    itself is the value at attempt 0. *)
Theorem reconnectDelay_monotone_bounded (n : nat) (Hn : (1 ≤ n)%nat) :
  reconnectDelay n <= reconnectDelay (n + 1)
  ∧ reconnectDelay (n + 1) <= maxDelay
  ∧ reconnectDelay 1 == baseDelay * growthFactor
  ∧ reconnectDelay 0 == baseDelay.
Proof.
  split; [apply reconnectDelay_mono |].
  split; [apply reconnectDelay_le_max |].
  split; reflexivity.
Qed.

Lemma reconnectDelay_monotone_bounded_witness :
  reconnectDelay 3 <= reconnectDelay (3 + 1)
  ∧ reconnectDelay (3 + 1) <= maxDelay
  ∧ reconnectDelay 1 == baseDelay * growthFactor
  ∧ reconnectDelay 0 == baseDelay.
Proof. apply (reconnectDelay_monotone_bounded 3). lia. Defined.

End ReconnectPolicy.


(** ** Invariants are preserved by every event *)

Ltac map_cases :=
  repeat (rewrite ?lookup_insert, ?lookup_delete, ?lookup_alter, ?lookup_empty in *;
          repeat case_decide; simplify_eq; simpl in *;
          repeat match goal with
            | H : _ <$> _ = Some _ |- _ => apply fmap_Some in H as (? & ? & ->)
            end).

Ltac unfold_all :=
  unfold step, fire, runTask, startBot, stopBot, sendMessage,
    onSpawn, onKicked, onError, onEnd, onMove, updateStatus in *;
  unfold_ops.

Lemma spread_hit (cur upd : StatusRecord) k v :
  upd !! k = Some v → spread cur upd !! k = Some v.
Proof. apply lookup_union_Some_l. Qed.

Lemma spread_miss (cur upd : StatusRecord) k :
  upd !! k = None → spread cur upd !! k = cur !! k.
Proof. apply lookup_union_r. Qed.

Ltac spread_simpl :=
  repeat match goal with
    | H : context [spread ?c ?u !! ?k] |- _ =>
        first [ rewrite (spread_hit c u k _ eq_refl) in H
              | rewrite (spread_miss c u k eq_refl) in H ]
    | |- context [spread ?c ?u !! ?k] =>
        first [ rewrite (spread_hit c u k _ eq_refl)
              | rewrite (spread_miss c u k eq_refl) ]
    end.

Lemma stateOf_unfold m i :
  stateOf m i = default {[ "status" := VStr "offline" ]} (botStatus m !! i) !! "status".
Proof. done. Qed.

Ltac use_tracked H :=
  try match goal with
      | Ht : timers _ !! _ = Some _ |- _ => apply H in Ht; congruence
      end.

Ltac by_fresh Hf :=
  match goal with
  | H : objects _ !! ?h = Some _ |- _ =>
      pose proof (Hf h (mk_is_Some _ _ H)); (lia || (exfalso; lia))
  end.

Ltac by_owned Ho :=
  repeat match goal with
    | H : bots _ !! _ = Some _ |- _ => destruct (Ho _ _ H) as (? & ? & ?); clear H
    end;
  simplify_eq.

Ltac wf_brute Hf Ho He Ht Hs :=
  split;
  [ intros ?; unfold_all; split_cases; intros [? ?]; map_cases;
    try by_fresh Hf; try lia
  | intros ? ?; unfold_all; split_cases; intros ?; map_cases; eauto;
    try by_owned Ho; eauto;
    try (eexists; split; [rewrite lookup_insert_ne; [eassumption |] | reflexivity]);
    try (match goal with H : objects _ !! _ = Some _ |- _ => rewrite H end;
         simpl; eexists; split; [reflexivity | done]);
    try (intros <-); try by_fresh Hf
  | intros ?; unfold_all; split_cases; intros [? ?]; map_cases; eauto
  | intros ? ? ? ?; unfold_all; split_cases; intros ?; map_cases; eauto;
    use_tracked Ht
  | intros ?; rewrite !stateOf_unfold; unfold_all; split_cases; intros [? ?]; map_cases;
    spread_simpl; eauto;
    try (match goal with
         | H : bots _ !! ?i = Some _ |- _ =>
             let Hx := fresh in
             pose proof (Hs i (mk_is_Some _ _ H)) as Hx;
             rewrite !stateOf_unfold in Hx;
             repeat match goal with
               | H' : botStatus _ !! _ = _ |- _ => rewrite H' in Hx
               end;
             exact Hx
         end) ].

(** *** [armQueued] *)

Lemma armQueued_frame i q : ∀ k m,
  bots (armQueued i k q m) = bots m
  ∧ botStatus (armQueued i k q m) = botStatus m
  ∧ objects (armQueued i k q m) = objects m
  ∧ reconnectTimers (armQueued i k q m) = reconnectTimers m
  ∧ keepAliveTimers (armQueued i k q m) = keepAliveTimers m
  ∧ messageQueue (armQueued i k q m) = messageQueue m
  ∧ reconnectAttempts (armQueued i k q m) = reconnectAttempts m
  ∧ nextBot (armQueued i k q m) = nextBot m
  ∧ log (armQueued i k q m) = log m
  ∧ actions (armQueued i k q m) = actions m
  ∧ nextTimer (armQueued i k q m) = nextTimer m + length q.
Proof.
  induction q as [|text rest IH]; intros k m; simpl.
  - repeat split; lia.
  - specialize (IH (S k) (snd (arm (TQueued i text) (inject_Z (1000 * Z.of_nat k)) false m))).
    simpl in IH. destruct IH as (-> & -> & -> & -> & -> & -> & -> & -> & -> & -> & ->).
    simpl. repeat split; lia.
Qed.

Lemma armQueued_timers i q : ∀ k m t,
  timers (armQueued i k q m) !! t =
  if decide (nextTimer m ≤ t) then
    match q !! (t - nextTimer m) with
    | Some text =>
        Some {| task := TQueued i text;
                delay := inject_Z (1000 * Z.of_nat (k + (t - nextTimer m)));
                repeats := false |}
    | None => timers m !! t
    end
  else timers m !! t.
Proof.
  induction q as [|text rest IH]; intros k m t; simpl.
  - by case_decide.
  - rewrite IH. simpl. rewrite lookup_insert.
    repeat case_decide; try lia; simplify_eq; try done.
    all: first
      [ rewrite Nat.sub_diag; simpl; by rewrite Nat.add_0_r
      | destruct (t - nextTimer m) as [|n] eqn:E; [lia |];
        replace (t - S (nextTimer m)) with n by lia; simpl;
        by replace (S (k + n)) with (k + S n) by lia ].
Qed.

Lemma wf_startBot c r m : wf m → wf (startBot c r m).
Proof. intros [Hf Ho He Ht Hs]. wf_brute Hf Ho He Ht Hs. Qed.

Lemma wf_stopBot i q m : wf m → wf (snd (stopBot i q m)).
Proof.
  intros [Hf Ho He Ht Hs]. wf_brute Hf Ho He Ht Hs.
Qed.

Lemma wf_disconnect b l msg upd m :
  wf m → wf (afterDisconnect b (updateStatus (botId b) upd (emitLog (botId b) l msg m))).
Proof. intros [Hf Ho He Ht Hs]. wf_brute Hf Ho He Ht Hs. Qed.

Lemma wf_onKicked h reason m : wf m → wf (onKicked h reason m).
Proof. intros H. unfold onKicked. case_match; [by apply wf_disconnect | done]. Qed.

Lemma wf_onError h msg m : wf m → wf (onError h msg m).
Proof. intros H. unfold onError. case_match; [by apply wf_disconnect | done]. Qed.

Lemma wf_onEnd h reason m : wf m → wf (onEnd h reason m).
Proof. intros H. unfold onEnd. case_match; [by apply wf_disconnect | done]. Qed.

Lemma wf_quiet m m' : quiet m m' → wf m → wf m'.
Proof.
  intros (Hb & Hob & Hr & Hst & Hn & Htm) [Hf Ho He Ht Hs]. split.
  - intros h. rewrite Hob, Hn. apply Hf.
  - intros i h. rewrite Hb, Hob. apply Ho.
  - intros i. rewrite Hb, Hr. apply He.
  - intros t c d r Hx. rewrite Hr. eapply Ht, Htm, Hx.
  - intros i. rewrite !stateOf_unfold, Hst, Hb. apply Hs.
Qed.

Ltac quiet_brute :=
  unfold quiet; unfold_all; split_cases; repeat split; try done;
  intros ? ? ? ?; map_cases; done.

Lemma quiet_emitLog i l msg m : quiet m (emitLog i l msg m).
Proof. quiet_brute. Qed.

Lemma quiet_act a m : quiet m (act a m).
Proof. quiet_brute. Qed.

Lemma quiet_clearTimer t m : quiet m (clearTimer t m).
Proof. quiet_brute. Qed.

Lemma quiet_sendMessage i text x m : quiet m (snd (sendMessage i text x m)).
Proof. quiet_brute. Qed.

Lemma quiet_startKeepAlive i m : quiet m (startKeepAlive i m).
Proof. quiet_brute. Qed.

Lemma quiet_processMessageQueue i m : quiet m (processMessageQueue i m).
Proof.
  unfold processMessageQueue. destruct (default [] (messageQueue m !! i)) as [|x q];
    [by quiet_brute |].
  generalize (x :: q). intros q'.
  destruct (armQueued_frame i q' 0 (emitLog i info (MsgProcessing (length q')) m))
    as (Hb & Hst & Hob & Hr & _ & _ & _ & Hn & _).
  repeat split; simpl; try done.
  intros t c d r. rewrite armQueued_timers. simpl.
  case_decide; [case_match |]; done.
Qed.

(** Every timer callback except a reconnect is quiet. *)
Lemma quiet_runTask tk x m :
  (∀ c, tk ≠ TReconnect c) → quiet m (runTask tk x m).
Proof. destruct tk; intros Hne; [by destruct (Hne c) | quiet_brute ..]. Qed.

Lemma wf_sendMessage i text x m : wf m → wf (snd (sendMessage i text x m)).
Proof. apply wf_quiet, quiet_sendMessage. Qed.

Lemma wf_startKeepAlive i m : wf m → wf (startKeepAlive i m).
Proof. apply wf_quiet, quiet_startKeepAlive. Qed.

Lemma wf_processMessageQueue i m : wf m → wf (processMessageQueue i m).
Proof. apply wf_quiet, quiet_processMessageQueue. Qed.

Lemma wf_onMove h t m : wf m → wf (onMove h t m).
Proof. intros [Hf Ho He Ht Hs]. wf_brute Hf Ho He Ht Hs. Qed.

Lemma wf_onSpawn h now t m : wf m → wf (onSpawn h now t m).
Proof.
  intros Hwf. unfold onSpawn. destruct (objects m !! h) as [b|] eqn:Hb; [|done].
  destruct (spawnListener b); [|done].
  apply wf_processMessageQueue, wf_startKeepAlive.
  destruct Hwf as [Hf Ho He Ht Hs]. wf_brute Hf Ho He Ht Hs.
Qed.

Lemma wf_shutdownOne m e : wf m → wf (shutdownOne m e).
Proof. destruct e as [i h]. intros [Hf Ho He Ht Hs]. wf_brute Hf Ho He Ht Hs. Qed.

Lemma wf_shutdownFold l : ∀ m, wf m → wf (fold_left shutdownOne l m).
Proof.
  induction l as [|e l IH]; intros m Hm; simpl; [done |].
  by apply IH, wf_shutdownOne.
Qed.

Lemma wf_shutdownAll m : wf m → wf (shutdownAll m).
Proof.
  intros Hwf. unfold shutdownAll.
  pose proof (wf_quiet _ _ (quiet_emitLog "system" info MsgShuttingDown m) Hwf) as Hwf'.
  destruct (wf_shutdownFold (map_to_list (bots (emitLog "system" info MsgShuttingDown m)))
              _ Hwf') as [Hf Ho He Ht Hs].
  split; [done | | | done |]; intros ?; simpl; rewrite ?lookup_empty;
    try done; try (by intros [? ?]); try (by intros ?).
Qed.

Lemma wf_fire t x m : wf m → wf (fire t x m).
Proof.
  intros Hwf. unfold fire. destruct (timers m !! t) as [tm|] eqn:Htm; [|done].
  assert (wf (if repeats tm then m else clearTimer t m)) as Hwf'.
  { destruct (repeats tm); [done |]. eapply wf_quiet, Hwf. apply quiet_clearTimer. }
  revert Hwf'. generalize (if repeats tm then m else clearTimer t m). intros m' Hwf'.
  destruct (task tm) as [c| | | |] eqn:Htk.
  - simpl. eapply wf_startBot, wf_quiet, Hwf'. apply quiet_emitLog.
  - eapply wf_quiet, Hwf'. by apply quiet_runTask.
  - eapply wf_quiet, Hwf'. by apply quiet_runTask.
  - eapply wf_quiet, Hwf'. by apply quiet_runTask.
  - eapply wf_quiet, Hwf'. by apply quiet_runTask.
Qed.

Lemma wf_step m e : wf m → wf (step m e).
Proof.
  destruct e; simpl.
  - apply wf_startBot.
  - apply wf_stopBot.
  - apply wf_shutdownAll.
  - apply wf_sendMessage.
  - apply wf_onSpawn.
  - apply wf_onKicked.
  - apply wf_onError.
  - apply wf_onEnd.
  - apply wf_onMove.
  - apply wf_fire.
Qed.

Lemma wf_run es : ∀ m, wf m → wf (run m es).
Proof.
  induction es as [|e es IH]; intros m Hm; simpl; [done |].
  by apply IH, wf_step.
Qed.

Lemma loadBots_frame file : ∀ m,
  bots (fold_left loadBot file m) = bots m
  ∧ objects (fold_left loadBot file m) = objects m
  ∧ reconnectTimers (fold_left loadBot file m) = reconnectTimers m
  ∧ timers (fold_left loadBot file m) = timers m
  ∧ nextBot (fold_left loadBot file m) = nextBot m.
Proof.
  induction file as [|c file IH]; intros m; simpl; [done |].
  destruct (IH (loadBot m c)) as (-> & -> & -> & -> & ->). done.
Qed.

Lemma wf_loadBots file : wf (loadBots file).
Proof.
  unfold loadBots.
  destruct (loadBots_frame file emptyManager) as (Hb & Ho & Hr & Ht & Hn).
  split.
  - intros h. rewrite Ho. simpl. rewrite lookup_empty. by intros [? ?].
  - intros i h. rewrite Hb. simpl. by rewrite lookup_empty.
  - intros i. rewrite Hb. simpl. rewrite lookup_empty. by intros [? ?].
  - intros t c d r. rewrite Ht. simpl. by rewrite lookup_empty.
  - intros i. rewrite Hb. simpl. rewrite lookup_empty. by intros [? ?].
Qed.

Lemma wf_reachable m : reachable m → wf m.
Proof. intros (file & es & ->). apply wf_run, wf_loadBots. Qed.

Lemma offline_unregistered m i :
  wf m → stateOf m i = Some (VStr "offline") → bots m !! i = None.
Proof.
  intros [_ _ _ _ Hl] Hst. destruct (bots m !! i) as [h|] eqn:Hb; [| done].
  destruct (Hl i (mk_is_Some _ _ Hb)) as [H | H]; rewrite Hst in H; discriminate H.
Qed.

(** ** Endpoints the manager has never heard of *)

Lemma unknown_quiet i m m' : quiet m m' → unknown i m → unknown i m'.
Proof.
  intros (Hb & Hob & Hr & Hst & Hn & Htm) (Hs & Ho & Ht).
  split; [by rewrite Hst |]. split.
  - intros h b. rewrite Hob. apply Ho.
  - intros t c d r Hx. eapply Ht, Htm, Hx.
Qed.

Ltac unknown_brute Hs Ho Ht :=
  split; [| split];
  [ unfold_all; split_cases; map_cases; eauto
  | intros ? ?; unfold_all; split_cases; intros ?; map_cases; eauto
  | intros ? ? ? ?; unfold_all; split_cases; intros ?; map_cases; eauto ].

Lemma unknown_startBot i c r m :
  cfg_id c ≠ i → unknown i m → unknown i (startBot c r m).
Proof. intros Hne (Hs & Ho & Ht). unknown_brute Hs Ho Ht. Qed.

Lemma unknown_stopBot i j q m :
  j ≠ i → unknown i m → unknown i (snd (stopBot j q m)).
Proof.
  intros Hne (Hs & Ho & Ht). unknown_brute Hs Ho Ht.
  all: change (botId (markStopped ?x)) with (botId x); eauto.
Qed.

Lemma unknown_disconnect i b l msg upd m :
  botId b ≠ i → unknown i m →
  unknown i (afterDisconnect b (updateStatus (botId b) upd (emitLog (botId b) l msg m))).
Proof. intros Hne (Hs & Ho & Ht). unknown_brute Hs Ho Ht. Qed.

Lemma unknown_onMove i h t m : unknown i m → unknown i (onMove h t m).
Proof. intros (Hs & Ho & Ht). unknown_brute Hs Ho Ht. Qed.

Lemma unknown_onSpawn i h now t m : unknown i m → unknown i (onSpawn h now t m).
Proof.
  intros Hu. unfold onSpawn. destruct (objects m !! h) as [b|] eqn:Hb; [|done].
  destruct (spawnListener b); [|done].
  eapply unknown_quiet; [apply quiet_processMessageQueue |].
  eapply unknown_quiet; [apply quiet_startKeepAlive |].
  destruct Hu as (Hs & Ho & Ht). unknown_brute Hs Ho Ht.
  all: match goal with
       | H : objects _ !! _ = Some _ |- _ =>
           first [ exact (Ho _ _ H) | exfalso; exact (Ho _ _ H eq_refl) ]
       end.
Qed.

Lemma unknown_shutdownFold i l : ∀ m, unknown i m → unknown i (fold_left shutdownOne l m).
Proof.
  induction l as [|[j h] l IH]; intros m Hm; simpl; [done |].
  apply IH. destruct Hm as (Hs & Ho & Ht). unknown_brute Hs Ho Ht.
Qed.

Lemma unknown_step i m e : ¬ names i e → unknown i m → unknown i (step m e).
Proof.
  destruct e; simpl; intros Hn Hu.
  - by apply unknown_startBot.
  - by apply unknown_stopBot.
  - unfold shutdownAll.
    assert (unknown i (emitLog "system" info MsgShuttingDown m)) as Hu'
      by (eapply unknown_quiet, Hu; apply quiet_emitLog).
    apply (unknown_shutdownFold i
             (map_to_list (bots (emitLog "system" info MsgShuttingDown m)))) in Hu'.
    apply Hu'.
  - eapply unknown_quiet, Hu. apply quiet_sendMessage.
  - by apply unknown_onSpawn.
  - unfold onKicked. destruct (objects m !! h) as [b|] eqn:Hb; [|done].
    apply unknown_disconnect; [|done]. by apply (proj1 (proj2 Hu) h).
  - unfold onError. destruct (objects m !! h) as [b|] eqn:Hb; [|done].
    apply unknown_disconnect; [|done]. by apply (proj1 (proj2 Hu) h).
  - unfold onEnd. destruct (objects m !! h) as [b|] eqn:Hb; [|done].
    apply unknown_disconnect; [|done]. by apply (proj1 (proj2 Hu) h).
  - by apply unknown_onMove.
  - unfold fire. destruct (timers m !! t) as [[tk d r]|] eqn:Htm; [|done]. simpl.
    assert (unknown i (if r then m else clearTimer t m)) as Hu'.
    { destruct r; [done |]. eapply unknown_quiet, Hu. apply quiet_clearTimer. }
    destruct tk as [c| | | |].
    + simpl. apply unknown_startBot.
      * by apply (proj2 (proj2 Hu) t c d r).
      * eapply unknown_quiet, Hu'. apply quiet_emitLog.
    + eapply unknown_quiet, Hu'. by apply quiet_runTask.
    + eapply unknown_quiet, Hu'. by apply quiet_runTask.
    + eapply unknown_quiet, Hu'. by apply quiet_runTask.
    + eapply unknown_quiet, Hu'. by apply quiet_runTask.
Qed.

Lemma unknown_run i es : ∀ m,
  Forall (fun e => ¬ names i e) es → unknown i m → unknown i (run m es).
Proof.
  induction es as [|e es IH]; intros m Hes Hm; simpl; [done |].
  inversion Hes; subst. apply IH; [done |]. by apply unknown_step.
Qed.

Lemma unknown_loadBots i file :
  i ∉ cfg_id <$> file → unknown i (loadBots file).
Proof.
  unfold loadBots. intros Hi.
  assert (unknown i emptyManager) as H0 by (repeat split; intros *; simpl; by rewrite ?lookup_empty).
  revert H0. generalize emptyManager. induction file as [|c file IH]; intros m Hm; [done |].
  simpl. rewrite fmap_cons, not_elem_of_cons in Hi. destruct Hi as [Hne Hi].
  apply IH; [done |]. destruct Hm as (Hs & Ho & Ht).
  repeat split; simpl; [by rewrite lookup_insert_ne | done | done].
Qed.

(** ** The keys of the status store *)

Lemma elem_of_keySet i j keys : j ∈ keySet i keys ↔ j = i ∨ j ∈ keys.
Proof.
  unfold keySet. case_decide as Hi.
  - split; [by right | intros [-> | ?]; done].
  - rewrite elem_of_app, list_elem_of_singleton. tauto.
Qed.

Lemma NoDup_keySet i keys : NoDup keys → NoDup (keySet i keys).
Proof.
  intros Hnd. unfold keySet. case_decide as Hi; [done |].
  apply NoDup_app. split; [done |]. split; [| apply NoDup_singleton].
  intros x Hx ->%list_elem_of_singleton. done.
Qed.

Lemma keysInSync_same m m' :
  botStatus m' = botStatus m → botStatusKeys m' = botStatusKeys m →
  keysInSync m → keysInSync m'.
Proof. intros Hs Hk. unfold keysInSync. by rewrite Hs, Hk. Qed.

Lemma keysInSync_statusSet i status m : keysInSync m → keysInSync (statusSet i status m).
Proof.
  intros [Hnd Hk]. split; simpl; [by apply NoDup_keySet |].
  intros j. rewrite elem_of_keySet, lookup_insert_is_Some', Hk.
  split; intros [? | ?]; auto.
Qed.

Lemma keysInSync_updateStatus i upd m : keysInSync m → keysInSync (updateStatus i upd m).
Proof. apply keysInSync_statusSet. Qed.

Ltac keys_same := apply keysInSync_same; unfold_all; by split_cases.

Lemma keysInSync_emitLog i l msg m : keysInSync m → keysInSync (emitLog i l msg m).
Proof. keys_same. Qed.

Lemma keysInSync_act a m : keysInSync m → keysInSync (act a m).
Proof. keys_same. Qed.

Lemma keysInSync_arm tk d r m : keysInSync m → keysInSync (snd (arm tk d r m)).
Proof. keys_same. Qed.

Lemma keysInSync_set_objects f m : keysInSync m → keysInSync (set_objects f m).
Proof. by apply keysInSync_same. Qed.

Lemma keysInSync_set_bots f m : keysInSync m → keysInSync (set_bots f m).
Proof. by apply keysInSync_same. Qed.

Lemma keysInSync_set_nextBot f m : keysInSync m → keysInSync (set_nextBot f m).
Proof. by apply keysInSync_same. Qed.

Lemma keysInSync_set_reconnectAttempts f m :
  keysInSync m → keysInSync (set_reconnectAttempts f m).
Proof. by apply keysInSync_same. Qed.

Lemma keysInSync_cleanupBot i s m : keysInSync m → keysInSync (cleanupBot i s m).
Proof. keys_same. Qed.

Lemma keysInSync_scheduleReconnect i c m :
  keysInSync m → keysInSync (scheduleReconnect i c m).
Proof. keys_same. Qed.

Lemma keysInSync_afterDisconnect b m : keysInSync m → keysInSync (afterDisconnect b m).
Proof. keys_same. Qed.

Lemma keysInSync_sendMessage i text x m :
  keysInSync m → keysInSync (snd (sendMessage i text x m)).
Proof. keys_same. Qed.

Lemma keysInSync_startKeepAlive i m : keysInSync m → keysInSync (startKeepAlive i m).
Proof. keys_same. Qed.

Lemma botStatusKeys_armQueued i q : ∀ k m,
  botStatusKeys (armQueued i k q m) = botStatusKeys m.
Proof. induction q as [|text rest IH]; intros k m; simpl; [done |]. by rewrite IH. Qed.

Lemma keysInSync_processMessageQueue i m :
  keysInSync m → keysInSync (processMessageQueue i m).
Proof.
  unfold processMessageQueue. destruct (default [] (messageQueue m !! i)) as [|x q];
    [done |].
  generalize (x :: q). intros q'. apply keysInSync_same; simpl.
  - by destruct (armQueued_frame i q' 0 (emitLog i info (MsgProcessing (length q')) m))
      as (_ & -> & _).
  - by rewrite botStatusKeys_armQueued.
Qed.

Lemma keysInSync_startBot c r m : keysInSync m → keysInSync (startBot c r m).
Proof.
  intros H. unfold startBot. cbv zeta.
  assert (keysInSync
            (match reconnectTimers m !! cfg_id c with
             | Some t => set_reconnectTimers (delete (cfg_id c)) (clearTimer t m)
             | None => m
             end)) as H1 by (by destruct (reconnectTimers m !! cfg_id c)).
  revert H1. generalize (match reconnectTimers m !! cfg_id c with
                         | Some t => set_reconnectTimers (delete (cfg_id c)) (clearTimer t m)
                         | None => m
                         end). intros m1 H1.
  destruct (bots m1 !! cfg_id c); [by apply keysInSync_emitLog |].
  destruct r as [hasChat | msg].
  - by apply keysInSync_set_reconnectAttempts, keysInSync_set_bots,
      keysInSync_set_nextBot, keysInSync_set_objects, keysInSync_updateStatus,
      keysInSync_emitLog.
  - assert (keysInSync
              (updateStatus (cfg_id c) {[ "status" := VStr "error"; "lastError" := msg ]}
                 (emitLog (cfg_id c) error (MsgCreateFailed msg)
                    (updateStatus (cfg_id c) {[ "status" := VStr "connecting" ]}
                       (emitLog (cfg_id c) info
                          (MsgStarting (cfg_name c) (cfg_username c)) m1))))) as H2.
    { by apply keysInSync_updateStatus, keysInSync_emitLog, keysInSync_updateStatus,
        keysInSync_emitLog. }
    destruct (enabledNotFalse c); [by apply keysInSync_scheduleReconnect | done].
Qed.

Lemma keysInSync_stopBot i q m : keysInSync m → keysInSync (snd (stopBot i q m)).
Proof.
  intros H. unfold stopBot. cbv zeta.
  assert (keysInSync
            (set_reconnectAttempts (insert i 0)
               (match reconnectTimers m !! i with
                | Some t => set_reconnectTimers (delete i) (clearTimer t m)
                | None => m
                end))) as H1 by (by destruct (reconnectTimers m !! i)).
  revert H1. generalize (set_reconnectAttempts (insert i 0)
                           (match reconnectTimers m !! i with
                            | Some t => set_reconnectTimers (delete i) (clearTimer t m)
                            | None => m
                            end)). intros m1 H1.
  destruct (bots m !! i) as [h|]; [| by apply keysInSync_updateStatus].
  destruct q; cbn [snd].
  - by apply keysInSync_set_objects, keysInSync_emitLog.
  - by apply keysInSync_cleanupBot, keysInSync_act, keysInSync_set_objects,
      keysInSync_emitLog.
Qed.

Lemma keysInSync_disconnect b l msg upd m :
  keysInSync m →
  keysInSync (afterDisconnect b (updateStatus (botId b) upd (emitLog (botId b) l msg m))).
Proof.
  intros H. by apply keysInSync_afterDisconnect, keysInSync_updateStatus,
    keysInSync_emitLog.
Qed.

Lemma keysInSync_shutdownFold l : ∀ m,
  keysInSync m → keysInSync (fold_left shutdownOne l m).
Proof.
  induction l as [|[i h] l IH]; intros m Hm; [done |].
  change (fold_left shutdownOne ((i, h) :: l) m)
    with (fold_left shutdownOne l (cleanupBot i false (act (AQuit h "System shutdown") m))).
  by apply IH, keysInSync_cleanupBot.
Qed.

Lemma keysInSync_runTask tk x m :
  (∀ c, tk ≠ TReconnect c) → keysInSync m → keysInSync (runTask tk x m).
Proof. destruct tk; intros Hne; [by destruct (Hne c) | keys_same ..]. Qed.

Lemma keysInSync_step m e : keysInSync m → keysInSync (step m e).
Proof.
  intros H. destruct e; simpl.
  - by apply keysInSync_startBot.
  - by apply keysInSync_stopBot.
  - unfold shutdownAll. cbv zeta.
    by apply keysInSync_set_bots, keysInSync_shutdownFold, keysInSync_emitLog.
  - by apply keysInSync_sendMessage.
  - unfold onSpawn. destruct (objects m !! h) as [b|]; [| done].
    destruct (spawnListener b); [| done]. cbv zeta.
    by apply keysInSync_processMessageQueue, keysInSync_startKeepAlive,
      keysInSync_arm, keysInSync_updateStatus, keysInSync_emitLog,
      keysInSync_set_objects.
  - unfold onKicked. destruct (objects m !! h) as [b|]; [| done].
    by apply keysInSync_disconnect.
  - unfold onError. destruct (objects m !! h) as [b|]; [| done].
    by apply keysInSync_disconnect.
  - unfold onEnd. destruct (objects m !! h) as [b|]; [| done].
    by apply keysInSync_disconnect.
  - unfold onMove. destruct (objects m !! h) as [b|]; [| done].
    destruct (botStatus m !! botId b); [| done]. by apply keysInSync_updateStatus.
  - unfold fire. destruct (timers m !! t) as [[tk d r]|]; [| done]. simpl.
    assert (keysInSync (if r then m else clearTimer t m)) as H1 by (by destruct r).
    revert H1. generalize (if r then m else clearTimer t m). intros m1 H1.
    destruct tk as [c| | | |]; try (by apply keysInSync_runTask).
    simpl. by apply keysInSync_startBot, keysInSync_emitLog.
Qed.

Lemma keysInSync_loadBots file : keysInSync (loadBots file).
Proof.
  unfold loadBots.
  assert (keysInSync emptyManager) as H0.
  { split; [apply NoDup_nil_2 |]. intros i. simpl. rewrite lookup_empty, elem_of_nil.
    split; [done | by intros [? ?]]. }
  revert H0. generalize emptyManager.
  induction file as [|c file IH]; intros m Hm; [done |]. simpl. apply IH.
  destruct Hm as [Hnd Hk]. split; simpl; [by apply NoDup_keySet |].
  intros j. rewrite elem_of_keySet, lookup_insert_is_Some', Hk.
  split; intros [? | ?]; auto.
Qed.

Lemma keysInSync_reachable m : reachable m → keysInSync m.
Proof.
  intros (file & es & ->). generalize (keysInSync_loadBots file).
  generalize (loadBots file). induction es as [|e es IH]; intros m Hm; [done |].
  by apply IH, keysInSync_step.
Qed.
(** ** getBotStatus and getAllBotStatuses *)

Example propertyKey_examples :
  propertyKey "bot_1700000000000" = "bot_1700000000000"
  ∧ propertyKey (IdNum 5) = "5" ∧ propertyKey "5" = "5"
  ∧ propertyKey (IdNum 0) = "0" ∧ propertyKey (IdNum (-12)) = "-12"
  ∧ IdNum 5 ≠ IdStr "5".
Proof. repeat split; try reflexivity. discriminate. Qed.

Lemma own_assign key status statuses k :
  k ≠ "__proto__" →
  own (assign key status statuses) !! k
  = if decide (key = k) then Some status else own statuses !! k.
Proof.
  intros Hk. unfold assign. case_decide as Hp; simpl.
  - case_decide; [congruence | done].
  - by rewrite lookup_insert.
Qed.

(** The own properties after a [forEach] over recorded keys: a name other
    than ['__proto__'] holds the record of the last key visited that
    turns into it. *)
Lemma getAll_own (bs : gmap Id StatusRecord) (key : string) (keys : list Id) :
  key ≠ "__proto__" →
  (∀ j, j ∈ keys → is_Some (bs !! j)) →
  ∀ init,
    own (fold_left (fun statuses i =>
                      match bs !! i with
                      | Some status => assign (propertyKey i) status statuses
                      | None => statuses
                      end) keys init) !! key
    = match last (filter (fun j => propertyKey j = key) keys) with
      | Some j => bs !! j
      | None => own init !! key
      end.
Proof.
  intros Hkey. induction keys as [|j keys IH] using rev_ind; intros Hrec init; [done |].
  rewrite fold_left_app, filter_app. simpl.
  destruct (Hrec j) as [status Hj]; [apply elem_of_app; right; by left |].
  rewrite Hj, own_assign by done.
  rewrite filter_cons, filter_nil.
  case_decide as Hp.
  - by rewrite last_snoc.
  - rewrite app_nil_r. apply IH. intros j' Hj'. apply Hrec, elem_of_app. by left.
Qed.

(** C10, as stated, fails: the number [5] and the string ['5'] are two
    ids, each with its own status record, but [getAllBotStatuses] has the
    one property ['5'] for both, and it holds the record of the id that
    was set last.  Here [5] has started and reads Connecting, and the
    object shows ['5'] as Offline. *)
Lemma numeric_and_string_id_share_a_property :
  let m := run (loadBots [five; fiveStr]) [EStart five (CreateOk true)] in
  stateOf m (IdNum 5) = Some (VStr "connecting")
  ∧ stateOf m (IdStr "5") = Some (VStr "offline")
  ∧ size (botStatus m) = 2
  ∧ size (own (getAllBotStatuses m)) = 1
  ∧ own (getAllBotStatuses m) !! "5" ≫= (fun r => r !! "status")
    = Some (VStr "offline").
Proof. vm_compute. repeat split. Qed.

(** C10 (amended): [getBotStatus] is total and never fails.  For an id
    that was never loaded from [bots.json] and never named by a start or
    stop request, whatever else happened, no status is recorded and the
    result is the default record [{ status: 'offline' }]; in every state
    the result is the recorded record when there is one and the default
    otherwise.  [getAllBotStatuses] returns a plain object.  The [Map]
    iterates exactly the ids with a recorded status, once each, and for
    every property name other than ['__proto__'] the object has an own
    property of that name exactly when some id with a recorded status
    turns into that name; the property holds the record of the last such
    id in the order of the [Map].  So an id whose name no other recorded
    id shares is there under its name, with its own record. *)
Theorem getBotStatus_total (file : list BotConfig) (es : list Event) (i : Id)
    (Hfile : i ∉ cfg_id <$> file)
    (Hes : Forall (fun e => ¬ names i e) es) :
  let m := run (loadBots file) es in
  botStatus m !! i = None
  ∧ getBotStatus m i = {[ "status" := VStr "offline" ]}
  ∧ (∀ m' j, getBotStatus m' j
             = match botStatus m' !! j with
               | Some r => r
               | None => {[ "status" := VStr "offline" ]}
               end)
  ∧ ∀ m', reachable m' →
      (NoDup (botStatusKeys m')
       ∧ ∀ j, j ∈ botStatusKeys m' ↔ is_Some (botStatus m' !! j))
      ∧ (∀ key, key ≠ "__proto__" →
           own (getAllBotStatuses m') !! key
           = last (filter (fun j => propertyKey j = key) (botStatusKeys m'))
               ≫= (fun j => botStatus m' !! j))
      ∧ (∀ key, key ≠ "__proto__" →
           (is_Some (own (getAllBotStatuses m') !! key)
            ↔ ∃ j, is_Some (botStatus m' !! j) ∧ propertyKey j = key))
      ∧ (∀ j r, botStatus m' !! j = Some r → propertyKey j ≠ "__proto__" →
           (∀ j', is_Some (botStatus m' !! j') → propertyKey j' = propertyKey j → j' = j) →
           own (getAllBotStatuses m') !! propertyKey j = Some r).
Proof.
  intros m.
  assert (botStatus m !! i = None) as Hnone
    by (apply (unknown_run i es), unknown_loadBots; done).
  split; [done |]. split; [unfold getBotStatus; by rewrite Hnone |].
  split; [intros m' j; unfold getBotStatus; by destruct (botStatus m' !! j) |].
  intros m' Hm'. destruct (keysInSync_reachable m' Hm') as [Hnd Hk].
  assert (∀ key, key ≠ "__proto__" →
            own (getAllBotStatuses m') !! key
            = last (filter (fun j => propertyKey j = key) (botStatusKeys m'))
                ≫= (fun j => botStatus m' !! j)) as Hown.
  { intros key Hkey. unfold getAllBotStatuses.
    rewrite (getAll_own (botStatus m') key (botStatusKeys m') Hkey)
      by (intros j; apply Hk).
    by destruct (last _). }
  split; [done |]. split; [done |]. split.
  - intros key Hkey. rewrite (Hown key Hkey). split.
    + destruct (last _) as [j|] eqn:Hlast; simpl; [| by intros [? ?]].
      intros Hj. exists j. split; [done |].
      apply last_Some_elem_of, list_elem_of_filter in Hlast. apply Hlast.
    + intros (j & Hj & Hp).
      destruct (last (filter (fun j => propertyKey j = key) (botStatusKeys m')))
        as [j'|] eqn:Hlast; simpl.
      * apply last_Some_elem_of, list_elem_of_filter in Hlast. apply Hk, Hlast.
      * apply last_None in Hlast. exfalso.
        eapply (filter_nil_not_elem_of _ _ j Hlast Hp). by apply Hk.
  - intros j r Hj Hp Huniq. rewrite (Hown _ Hp).
    destruct (last (filter (fun j' => propertyKey j' = propertyKey j) (botStatusKeys m')))
      as [j'|] eqn:Hlast; simpl.
    + apply last_Some_elem_of, list_elem_of_filter in Hlast as [Hpj Hin].
      rewrite (Huniq j'); [done | by apply Hk | done].
    + apply last_None in Hlast. exfalso.
      eapply (filter_nil_not_elem_of _ _ j Hlast eq_refl). apply Hk. by rewrite Hj.
Qed.

Lemma getBotStatus_total_witness :
  let m := run (loadBots [e1])
             [EStart e1 (CreateOk true); ESend "ghost" "hello" None; EKicked 0 "bye"] in
  botStatus m !! IdStr "ghost" = None
  ∧ getBotStatus m "ghost" = {[ "status" := VStr "offline" ]}
  ∧ (∀ m' j, getBotStatus m' j
             = match botStatus m' !! j with
               | Some r => r
               | None => {[ "status" := VStr "offline" ]}
               end)
  ∧ ∀ m', reachable m' →
      (NoDup (botStatusKeys m')
       ∧ ∀ j, j ∈ botStatusKeys m' ↔ is_Some (botStatus m' !! j))
      ∧ (∀ key, key ≠ "__proto__" →
           own (getAllBotStatuses m') !! key
           = last (filter (fun j => propertyKey j = key) (botStatusKeys m'))
               ≫= (fun j => botStatus m' !! j))
      ∧ (∀ key, key ≠ "__proto__" →
           (is_Some (own (getAllBotStatuses m') !! key)
            ↔ ∃ j, is_Some (botStatus m' !! j) ∧ propertyKey j = key))
      ∧ (∀ j r, botStatus m' !! j = Some r → propertyKey j ≠ "__proto__" →
           (∀ j', is_Some (botStatus m' !! j') → propertyKey j' = propertyKey j → j' = j) →
           own (getAllBotStatuses m') !! propertyKey j = Some r).
Proof.
  apply (getBotStatus_total [e1]
           [EStart e1 (CreateOk true); ESend "ghost" "hello" None; EKicked 0 "bye"]
           (IdStr "ghost")).
  - rewrite list_elem_of_In. simpl. intros [H | []]. discriminate H.
  - repeat constructor; simpl; try tauto. discriminate.
Defined.

(** The ordinary case: every endpoint is in the object under its id,
    with its record. *)
Example getAllBotStatuses_of_two :
  let m := run (loadBots [e1; e2]) [EStart e2 (CreateOk true)] in
  size (own (getAllBotStatuses m)) = 2
  ∧ own (getAllBotStatuses m) !! "e1" ≫= (fun r => r !! "status")
    = Some (VStr "offline")
  ∧ own (getAllBotStatuses m) !! "e2" ≫= (fun r => r !! "status")
    = Some (VStr "connecting")
  ∧ proto (getAllBotStatuses m) = None.
Proof. vm_compute. repeat split. Qed.

(** What the amended claim leaves out: an endpoint whose id is
    ['__proto__'] has a status record, and [getBotStatus] returns it, but
    [getAllBotStatuses] has no own property for it; the record has become
    the prototype of the object returned. *)
Example proto_id_is_no_own_property :
  let m := loadBots [e1; protoBot] in
  botStatus m !! IdStr "__proto__" ≫= (fun r => r !! "status") = Some (VStr "offline")
  ∧ getBotStatus m "__proto__" !! "lastError" = Some VNull
  ∧ own (getAllBotStatuses m) !! "__proto__" = None
  ∧ size (own (getAllBotStatuses m)) = 1
  ∧ proto (getAllBotStatuses m) ≫= (fun r => r !! "status") = Some (VStr "offline").
Proof. vm_compute. repeat split. Qed.
(** ** Status records only grow *)

Lemma keepsFields_same m m' : botStatus m' = botStatus m → keepsFields m m'.
Proof. intros H i prior Hi. rewrite H. eauto. Qed.

Lemma keepsFields_trans m1 m2 m3 :
  keepsFields m1 m2 → keepsFields m2 m3 → keepsFields m1 m3.
Proof.
  intros H12 H23 i prior Hi.
  destruct (H12 _ _ Hi) as (mid & Hmid & Hsub).
  destruct (H23 _ _ Hmid) as (new & Hnew & Hsub').
  exists new. split; [done |]. by etrans.
Qed.

Lemma keepsFields_quiet m m' : quiet m m' → keepsFields m m'.
Proof. intros (_ & _ & _ & H & _). by apply keepsFields_same. Qed.

Lemma keepsFields_updateStatus i updates m : keepsFields m (updateStatus i updates m).
Proof.
  intros j prior Hj. unfold updateStatus. simpl. rewrite lookup_insert.
  case_decide; subst; [| eauto].
  rewrite Hj. simpl. eexists. split; [done |].
  unfold spread. rewrite dom_union_L. apply union_subseteq_r.
Qed.

Lemma keepsFields_afterDisconnect b m : keepsFields m (afterDisconnect b m).
Proof. apply keepsFields_same, botStatus_afterDisconnect. Qed.

Lemma dom_spread (a b : StatusRecord) : dom a ⊆ dom (spread a b).
Proof. unfold spread. rewrite dom_union_L. apply union_subseteq_r. Qed.

Ltac keeps_brute :=
  intros ? ? ?; unfold_all; split_cases; map_cases; eauto;
  repeat match goal with
    | H : botStatus _ !! _ = Some _ |- _ => rewrite H; simpl
    end;
  eexists; (split; [reflexivity |]);
  repeat first [ apply dom_spread | etrans; [| apply dom_spread] ].

Lemma keepsFields_startBot c r m : keepsFields m (startBot c r m).
Proof. keeps_brute. Qed.

Lemma keepsFields_stopBot i q m : keepsFields m (snd (stopBot i q m)).
Proof. keeps_brute. Qed.

Lemma keepsFields_disconnect b l msg upd m :
  keepsFields m (afterDisconnect b (updateStatus (botId b) upd (emitLog (botId b) l msg m))).
Proof.
  eapply keepsFields_trans; [| apply keepsFields_afterDisconnect].
  eapply keepsFields_trans; [| apply keepsFields_updateStatus].
  by apply keepsFields_same.
Qed.

Lemma botStatus_shutdownFold l : ∀ m,
  botStatus (fold_left shutdownOne l m) = botStatus m.
Proof.
  induction l as [|[i h] l IH]; intros m; [done |].
  change (fold_left shutdownOne ((i, h) :: l) m)
    with (fold_left shutdownOne l (cleanupBot i false (act (AQuit h "System shutdown") m))).
  by rewrite IH, botStatus_cleanupBot.
Qed.

Lemma keepsFields_step m e : keepsFields m (step m e).
Proof.
  destruct e; simpl.
  - apply keepsFields_startBot.
  - apply keepsFields_stopBot.
  - apply keepsFields_same. unfold shutdownAll. simpl. by rewrite botStatus_shutdownFold.
  - apply keepsFields_quiet, quiet_sendMessage.
  - unfold onSpawn. destruct (objects m !! h) as [b|]; [| by apply keepsFields_same].
    destruct (spawnListener b); [| by apply keepsFields_same].
    eapply keepsFields_trans; [| apply keepsFields_quiet, quiet_processMessageQueue].
    eapply keepsFields_trans; [| apply keepsFields_quiet, quiet_startKeepAlive].
    eapply keepsFields_trans; [| by apply keepsFields_same].
    eapply keepsFields_trans; [| apply keepsFields_updateStatus].
    by apply keepsFields_same.
  - unfold onKicked. destruct (objects m !! h) as [b|]; [| by apply keepsFields_same].
    apply keepsFields_disconnect.
  - unfold onError. destruct (objects m !! h) as [b|]; [| by apply keepsFields_same].
    apply keepsFields_disconnect.
  - unfold onEnd. destruct (objects m !! h) as [b|]; [| by apply keepsFields_same].
    apply keepsFields_disconnect.
  - unfold onMove. destruct (objects m !! h) as [b|]; [| by apply keepsFields_same].
    destruct (botStatus m !! botId b); [| by apply keepsFields_same].
    apply keepsFields_updateStatus.
  - unfold fire. destruct (timers m !! t) as [[tk d r]|]; [| by apply keepsFields_same].
    simpl. eapply keepsFields_trans
      with (m2 := if r then m else clearTimer t m); [by destruct r; apply keepsFields_same |].
    destruct tk as [c| | | |].
    + simpl. eapply keepsFields_trans; [| apply keepsFields_startBot].
      by apply keepsFields_same.
    + by apply keepsFields_quiet, quiet_runTask.
    + by apply keepsFields_quiet, quiet_runTask.
    + by apply keepsFields_quiet, quiet_runTask.
    + by apply keepsFields_quiet, quiet_runTask.
Qed.

(** C9: [updateStatus] is a shallow merge.  For every prior record and
    every patch, a top-level field absent from the patch keeps its prior
    value, every field of the patch is taken from the patch, no field of
    the prior record disappears, and the records of the other endpoints
    are untouched.  No handler writes a record in any other way: whatever
    event the manager handles, the record is still there afterwards with
    at least the top-level fields it had. *)
Theorem updateStatus_shallow_merge (m : BotManager) (i : Id)
    (prior updates : StatusRecord) (field : string)
    (Hprior : botStatus m !! i = Some prior)
    (Habsent : updates !! field = None) :
  (∃ new, botStatus (updateStatus i updates m) !! i = Some new
          ∧ new !! field = prior !! field
          ∧ (∀ k v, updates !! k = Some v → new !! k = Some v)
          ∧ dom prior ⊆ dom new
          ∧ ∀ j, j ≠ i → botStatus (updateStatus i updates m) !! j = botStatus m !! j)
  ∧ ∀ e, ∃ after, botStatus (step m e) !! i = Some after ∧ dom prior ⊆ dom after.
Proof.
  split.
  - exists (spread prior updates). unfold updateStatus. simpl.
    rewrite Hprior. simpl. split; [by rewrite lookup_insert_eq |].
    split; [by apply spread_miss |].
    split; [intros k v Hk; by apply spread_hit |].
    split; [apply dom_spread |].
    intros j Hj. by rewrite lookup_insert_ne.
  - intros e. by apply keepsFields_step.
Qed.

Lemma updateStatus_shallow_merge_witness :
  (∃ new, botStatus (updateStatus "e1" {[ "status" := VStr "online" ]}
                       (loadBots [e1])) !! IdStr "e1" = Some new
          ∧ new !! "lastError" = offlineRecord !! "lastError"
          ∧ (∀ k v, ({[ "status" := VStr "online" ]} : StatusRecord) !! k = Some v →
                    new !! k = Some v)
          ∧ dom offlineRecord ⊆ dom new
          ∧ ∀ j, j ≠ IdStr "e1" →
                 botStatus (updateStatus "e1" {[ "status" := VStr "online" ]}
                              (loadBots [e1])) !! j = botStatus (loadBots [e1]) !! j)
  ∧ ∀ e, ∃ after, botStatus (step (loadBots [e1]) e) !! IdStr "e1" = Some after
                  ∧ dom offlineRecord ⊆ dom after.
Proof.
  apply (updateStatus_shallow_merge (loadBots [e1]) "e1" offlineRecord
           {[ "status" := VStr "online" ]} "lastError"); reflexivity.
Defined.

(** ** Disconnect signals *)

Lemma getBotStatus_afterDisconnect b m i :
  getBotStatus (afterDisconnect b m) i = getBotStatus m i.
Proof. apply getBotStatus_ext, botStatus_afterDisconnect. Qed.

(** C6, as stated, fails: a kicked signal that carries a reason leaves the
    endpoint Offline, not Error. *)
Lemma kicked_with_reason_is_offline :
  let m := run (loadBots [e1])
             [EStart e1 (CreateOk true); ESpawn 0 "2025-01-01T00:00:00Z" overworld;
              EKicked 0 "You are banned"] in
  stateOf m "e1" = Some (VStr "offline")
  ∧ stateOf m "e1" ≠ Some (VStr "error")
  ∧ getBotStatus m "e1" !! "lastError" = Some (VStr "Kicked: You are banned").
Proof. vm_compute. repeat split; congruence. Qed.

Lemma onKicked_status m h b reason :
  objects m !! h = Some b →
  stateOf (onKicked h reason m) (botId b) = Some (VStr "offline")
  ∧ getBotStatus (onKicked h reason m) (botId b) !! "lastError"
    = Some (VStr ("Kicked: " +:+ reason)).
Proof.
  intros Hb. unfold stateOf, onKicked. rewrite Hb.
  rewrite getBotStatus_afterDisconnect, getBotStatus_updateStatus. by spread_simpl.
Qed.

Lemma onError_status m h b msg :
  objects m !! h = Some b →
  stateOf (onError h msg m) (botId b) = Some (VStr "error")
  ∧ getBotStatus (onError h msg m) (botId b) !! "lastError" = Some msg.
Proof.
  intros Hb. unfold stateOf, onError. rewrite Hb.
  rewrite getBotStatus_afterDisconnect, getBotStatus_updateStatus. by spread_simpl.
Qed.

Lemma onEnd_status m h b reason :
  objects m !! h = Some b →
  stateOf (onEnd h reason m) (botId b) = Some (VStr "offline")
  ∧ getBotStatus (onEnd h reason m) (botId b) !! "lastError"
    = getBotStatus m (botId b) !! "lastError".
Proof.
  intros Hb. unfold stateOf, onEnd. rewrite Hb.
  rewrite getBotStatus_afterDisconnect, getBotStatus_updateStatus. spread_simpl.
  split; [done |]. unfold getBotStatus, emitLog. simpl.
  by destruct (botStatus m !! botId b).
Qed.

(** C6 (amended): the resulting state is fixed by the kind of signal, not
    by the presence of a reason.  [kicked] gives Offline with
    [lastError = "Kicked: " + reason]; [error] gives Error with
    [lastError = err.message]; [end] gives Offline and leaves [lastError]
    as it was, whether or not a reason came with it. *)
Theorem disconnect_signal_state (m : BotManager) (h : nat) (b : Bot)
    (Hb : objects m !! h = Some b) :
  (∀ reason,
     stateOf (onKicked h reason m) (botId b) = Some (VStr "offline")
     ∧ getBotStatus (onKicked h reason m) (botId b) !! "lastError"
       = Some (VStr ("Kicked: " +:+ reason)))
  ∧ (∀ msg,
     stateOf (onError h msg m) (botId b) = Some (VStr "error")
     ∧ getBotStatus (onError h msg m) (botId b) !! "lastError" = Some msg)
  ∧ (∀ reason,
     stateOf (onEnd h reason m) (botId b) = Some (VStr "offline")
     ∧ getBotStatus (onEnd h reason m) (botId b) !! "lastError"
       = getBotStatus m (botId b) !! "lastError").
Proof.
  split; [| split]; intros.
  - by apply onKicked_status.
  - by apply onError_status.
  - by apply onEnd_status.
Qed.

Lemma disconnect_signal_state_witness :
  let m := run (loadBots [e1]) [EStart e1 (CreateOk true)] in
  let b := {| botConfig := e1; manuallyStopped := false; chat := true;
              spawnListener := true |} in
  (∀ reason,
     stateOf (onKicked 0 reason m) (botId b) = Some (VStr "offline")
     ∧ getBotStatus (onKicked 0 reason m) (botId b) !! "lastError"
       = Some (VStr ("Kicked: " +:+ reason)))
  ∧ (∀ msg,
     stateOf (onError 0 msg m) (botId b) = Some (VStr "error")
     ∧ getBotStatus (onError 0 msg m) (botId b) !! "lastError" = Some msg)
  ∧ (∀ reason,
     stateOf (onEnd 0 reason m) (botId b) = Some (VStr "offline")
     ∧ getBotStatus (onEnd 0 reason m) (botId b) !! "lastError"
       = getBotStatus m (botId b) !! "lastError").
Proof.
  apply (disconnect_signal_state
           (run (loadBots [e1]) [EStart e1 (CreateOk true)]) 0). reflexivity.
Defined.

(** ** sendMessage *)

(** C7, as stated, fails: while the endpoint is still Connecting (the bot
    is registered but has not spawned) [sendMessage] transmits at once and
    reports delivery, and nothing is queued. *)
Lemma sendMessage_transmits_while_connecting :
  let m := run (loadBots [e1]) [EStart e1 (CreateOk true)] in
  stateOf m "e1" = Some (VStr "connecting")
  ∧ fst (sendMessage "e1" "hello" None m) = true
  ∧ actions (snd (sendMessage "e1" "hello" None m)) = [AChat 0 "hello"]
  ∧ messageQueue (snd (sendMessage "e1" "hello" None m)) !! IdStr "e1" = Some [].
Proof. vm_compute. repeat split. Qed.

(** C7 (amended): [sendMessage] transmits at once exactly when a bot is
    registered for the endpoint, exposes [chat], and [chat] returns; the
    endpoint then reads Connecting or Online.  In every other case, a throwing
    [chat] included, the message is appended to the endpoint's queue, the
    other queues are untouched, nothing is transmitted and the call
    reports queued; it never raises.  While the endpoint reads Offline no
    bot is registered, so the call always reports queued. *)
Theorem sendMessage_delivers_or_queues (m : BotManager) (i : Id) (text : string)
    (chatThrows : option string) (Hm : reachable m) :
  let r := fst (sendMessage i text chatThrows m) in
  let m' := snd (sendMessage i text chatThrows m) in
  (r = true ↔ ∃ h b, registered m i = Some (h, b) ∧ chat b = true ∧ chatThrows = None)
  ∧ (∀ h b, registered m i = Some (h, b) → r = true →
       actions m' = actions m ++ [AChat h text] ∧ messageQueue m' = messageQueue m)
  ∧ (r = false →
       actions m' = actions m
       ∧ messageQueue m' !! i = Some (default [] (messageQueue m !! i) ++ [text])
       ∧ ∀ j, j ≠ i → messageQueue m' !! j = messageQueue m !! j)
  ∧ (r = true →
       stateOf m i = Some (VStr "connecting") ∨ stateOf m i = Some (VStr "online"))
  ∧ (stateOf m i = Some (VStr "offline") → r = false).
Proof.
  apply wf_reachable in Hm. pose proof (offline_unregistered m i Hm) as Hoff.
  destruct Hm as [_ _ _ _ Hlive].
  simpl. split; [| split; [| split; [| split]]].
  - unfold sendMessage. destruct (registered m i) as [[h [c s [] l]]|]; simpl;
      [destruct chatThrows | |]; simpl;
      (split; [first [done | intros _; eauto 10]
              | first [done | intros (? & ? & ? & ? & ?); by simplify_eq]]).
  - intros h b Hr. unfold sendMessage. rewrite Hr. destruct b as [c s [] l]; simpl;
      [destruct chatThrows |]; simpl; done.
  - unfold sendMessage. destruct (registered m i) as [[h [c s [] l]]|]; simpl;
      [destruct chatThrows | |]; simpl; try done; intros _;
      (split; [done |]); (split; [by rewrite lookup_insert_eq |]);
      intros j Hj; by rewrite lookup_insert_ne.
  - unfold sendMessage, registered. destruct (bots m !! i) as [h|] eqn:Hb; [| done].
    intros _. apply Hlive. by rewrite Hb.
  - intros Hst. apply Hoff in Hst. unfold sendMessage, registered. by rewrite Hst.
Qed.

Lemma sendMessage_delivers_or_queues_witness :
  let m := run (loadBots [e1]) [EStart e1 (CreateOk true); EEnd 0 None] in
  let r := fst (sendMessage "e1" "hello" None m) in
  let m' := snd (sendMessage "e1" "hello" None m) in
  (r = true ↔ ∃ h b, registered m "e1" = Some (h, b) ∧ chat b = true
                     ∧ (None : option string) = None)
  ∧ (∀ h b, registered m "e1" = Some (h, b) → r = true →
       actions m' = actions m ++ [AChat h "hello"] ∧ messageQueue m' = messageQueue m)
  ∧ (r = false →
       actions m' = actions m
       ∧ messageQueue m' !! IdStr "e1" = Some (default [] (messageQueue m !! IdStr "e1") ++ ["hello"])
       ∧ ∀ j, j ≠ IdStr "e1" → messageQueue m' !! j = messageQueue m !! j)
  ∧ (r = true →
       stateOf m "e1" = Some (VStr "connecting") ∨ stateOf m "e1" = Some (VStr "online"))
  ∧ (stateOf m "e1" = Some (VStr "offline") → r = false).
Proof.
  apply (sendMessage_delivers_or_queues
           (run (loadBots [e1]) [EStart e1 (CreateOk true); EEnd 0 None])
           "e1" "hello" None).
  exists [e1], [EStart e1 (CreateOk true); EEnd 0 None]. reflexivity.
Defined.

(** ** Flush of the outbound queue *)

Lemma processMessageQueue_spec i m :
  let q := default [] (messageQueue m !! i) in
  let m' := processMessageQueue i m in
  nextTimer m' = nextTimer m + length q
  ∧ (∀ k text, q !! k = Some text →
       timers m' !! (nextTimer m + k)
       = Some {| task := TQueued i text; delay := inject_Z (1000 * Z.of_nat k);
                 repeats := false |})
  ∧ default [] (messageQueue m' !! i) = []
  ∧ actions m' = actions m.
Proof.
  simpl. unfold processMessageQueue.
  destruct (default [] (messageQueue m !! i)) as [|x q] eqn:Hq.
  { rewrite Hq. simpl. repeat split; [lia | done]. }
  generalize (x :: q). intros q'.
  destruct (armQueued_frame i q' 0 (emitLog i info (MsgProcessing (length q')) m))
    as (_ & _ & _ & _ & _ & _ & _ & _ & _ & Ha & Hn).
  simpl. split; [done |]. split; [| split; [by rewrite lookup_insert_eq | done]].
  intros k text Hk. rewrite armQueued_timers. simpl.
  rewrite decide_True by lia.
  replace (nextTimer m + k - nextTimer m) with k by lia. by rewrite Hk.
Qed.

Lemma startKeepAlive_frame i m :
  messageQueue (startKeepAlive i m) = messageQueue m
  ∧ actions (startKeepAlive i m) = actions m
  ∧ nextTimer m ≤ nextTimer (startKeepAlive i m) ≤ S (nextTimer m).
Proof. unfold_all. split_cases; repeat split; lia. Qed.

Lemma fireAll_queued_fifo i h b q : ∀ (dl : nat → Q) t0 m,
  registered m i = Some (h, b) → chat b = true →
  (∀ k text, q !! k = Some text →
     timers m !! (t0 + k)
     = Some {| task := TQueued i text; delay := dl k; repeats := false |}) →
  actions (fireAll (seq t0 (length q)) clientOk m) = actions m ++ (AChat h <$> q).
Proof.
  induction q as [|text q IH]; intros dl t0 m Hreg Hchat Htm; simpl.
  { by rewrite app_nil_r. }
  pose proof (Htm 0 text eq_refl) as H0. rewrite Nat.add_0_r in H0.
  unfold fireAll in *. unfold fire at 2. rewrite H0. simpl.
  assert (registered (clearTimer t0 m) i = Some (h, b)) as Hreg' by done.
  rewrite Hreg'. destruct b as [c s ch l]. simpl in Hchat. subst ch.
  rewrite (IH (fun k => dl (S k)) (S t0)).
  - simpl. by rewrite <- app_assoc.
  - done.
  - done.
  - intros k text' Hk. simpl. rewrite lookup_delete_ne by lia.
    replace (S (t0 + k)) with (t0 + S k) by lia. by apply Htm.
Qed.

(** C8: the spawn handler, which runs once per bot, sets the endpoint
    Online and starts the flush.  Every message then queued gets its own
    timeout, in queue order, the k-th one (from 0) [1000 * k] ms out, so
    consecutive messages are one second apart; the queue is empty when
    the handler returns, before anything was transmitted; a transmission
    that fails later puts nothing back; if the bot is the registered one
    and [chat] does not throw, the timeouts, firing in the order of their
    delays, transmit the messages in queue order; and a second spawn
    signal on the same bot changes nothing. *)
Theorem spawn_flushes_queue_once (m : BotManager) (h : nat) (b : Bot)
    (now : string) (t : Telemetry)
    (Hb : objects m !! h = Some b) (Hl : spawnListener b = true) :
  let i := botId b in
  let q := default [] (messageQueue m !! i) in
  let m' := onSpawn h now t m in
  stateOf m' i = Some (VStr "online")
  ∧ (∃ t0, nextTimer m < t0 ≤ nextTimer m + 2
           ∧ nextTimer m' = t0 + length q
           ∧ ∀ k text, q !! k = Some text →
               timers m' !! (t0 + k)
               = Some {| task := TQueued i text;
                         delay := inject_Z (1000 * Z.of_nat k);
                         repeats := false |})
  ∧ default [] (messageQueue m' !! i) = []
  ∧ actions m' = actions m
  ∧ (∀ text x m'', messageQueue (runTask (TQueued i text) x m'') = messageQueue m'')
  ∧ (bots m !! i = Some h → chat b = true →
     actions (fireAll (seq (nextTimer m' - length q) (length q)) clientOk m')
     = actions m ++ (AChat h <$> q))
  ∧ (∀ now' t', onSpawn h now' t' m' = m').
Proof.
  simpl.
  set (b' := {| botConfig := botConfig b; manuallyStopped := manuallyStopped b;
                chat := chat b; spawnListener := false |}).
  set (m1 := snd (arm (TAuthRegister h) 5000 false
                (updateStatus (botId b)
                   {[ "status" := VStr "online"; "connectedSince" := VStr now;
                      "world" := tl_dimension t; "dimension" := tl_dimension t;
                      "position" := tl_position t ]}
                   (emitLog (botId b) info MsgSpawned (set_objects (insert h b') m))))).
  set (m2 := startKeepAlive (botId b) m1).
  assert (onSpawn h now t m = processMessageQueue (botId b) m2) as ->
    by (unfold onSpawn; by rewrite Hb, Hl).
  destruct (quiet_processMessageQueue (botId b) m2) as (Hbs2 & Hob2 & _ & Hst2 & _).
  destruct (quiet_startKeepAlive (botId b) m1) as (Hbs1 & Hob1 & _ & Hst1 & _).
  destruct (startKeepAlive_frame (botId b) m1) as (Hq1 & Ha1 & Hn1).
  destruct (processMessageQueue_spec (botId b) m2) as (Hn & Htm & Hq & Ha).
  fold m2 in Hbs1, Hob1, Hst1, Hq1, Ha1, Hn1.
  rewrite Hq1 in Hn, Htm. change (messageQueue m1) with (messageQueue m) in Hn, Htm.
  change (nextTimer m1) with (S (nextTimer m)) in Hn1.
  split; [| split; [| split; [| split; [| split; [| split]]]]].
  - unfold stateOf, getBotStatus. rewrite Hst2, Hst1. subst m1. simpl.
    rewrite lookup_insert_eq. simpl. by spread_simpl.
  - exists (nextTimer m2). split; [lia |]. split; done.
  - done.
  - by rewrite Ha, Ha1.
  - intros text x m''. unfold runTask. unfold_all. by split_cases.
  - intros Hreg Hchat. rewrite Hn.
    replace (nextTimer m2 + length (default [] (messageQueue m !! botId b))
             - length (default [] (messageQueue m !! botId b)))
      with (nextTimer m2) by lia.
    rewrite (fireAll_queued_fifo (botId b) h b'
               (default [] (messageQueue m !! botId b))
               (fun k => inject_Z (1000 * Z.of_nat k)) (nextTimer m2)).
    + by rewrite Ha, Ha1.
    + unfold registered. rewrite Hbs2, Hbs1, Hob2, Hob1. subst m1. simpl.
      by rewrite Hreg, lookup_insert_eq.
    + done.
    + done.
  - intros now' t'. unfold onSpawn. rewrite Hob2, Hob1. subst m1. simpl.
    by rewrite lookup_insert_eq.
Qed.

Lemma spawn_flushes_queue_once_witness :
  let m := run (loadBots [e1])
             [ESend "e1" "first" None; ESend "e1" "second" None;
              EStart e1 (CreateOk true)] in
  let b := {| botConfig := e1; manuallyStopped := false; chat := true;
              spawnListener := true |} in
  let i := botId b in
  let q := default [] (messageQueue m !! i) in
  let m' := onSpawn 0 "2025-01-01T00:00:00Z" overworld m in
  stateOf m' i = Some (VStr "online")
  ∧ (∃ t0, nextTimer m < t0 ≤ nextTimer m + 2
           ∧ nextTimer m' = t0 + length q
           ∧ ∀ k text, q !! k = Some text →
               timers m' !! (t0 + k)
               = Some {| task := TQueued i text;
                         delay := inject_Z (1000 * Z.of_nat k);
                         repeats := false |})
  ∧ default [] (messageQueue m' !! i) = []
  ∧ actions m' = actions m
  ∧ (∀ text x m'', messageQueue (runTask (TQueued i text) x m'') = messageQueue m'')
  ∧ (bots m !! i = Some 0 → chat b = true →
     actions (fireAll (seq (nextTimer m' - length q) (length q)) clientOk m')
     = actions m ++ (AChat 0 <$> q))
  ∧ (∀ now' t', onSpawn 0 now' t' m' = m').
Proof.
  apply (spawn_flushes_queue_once
           (run (loadBots [e1])
              [ESend "e1" "first" None; ESend "e1" "second" None;
               EStart e1 (CreateOk true)]) 0
           {| botConfig := e1; manuallyStopped := false; chat := true;
              spawnListener := true |}); reflexivity.
Defined.

(** The scenario of the specification: two messages queued while offline
    are armed 0 ms and 1000 ms after the spawn, in the order they were
    queued, and go out in that order when the timeouts fire. *)
Example flush_scenario :
  let m := run (loadBots [e1])
             [ESend "e1" "first" None; ESend "e1" "second" None;
              EStart e1 (CreateOk true); ESpawn 0 "2025-01-01T00:00:00Z" overworld] in
  timers m !! 2 = Some {| task := TQueued "e1" "first"; delay := inject_Z 0;
                          repeats := false |}
  ∧ timers m !! 3 = Some {| task := TQueued "e1" "second"; delay := inject_Z 1000;
                            repeats := false |}
  ∧ messageQueue m !! IdStr "e1" = Some []
  ∧ actions (run m [EFire 2 clientOk; EFire 3 clientOk])
    = [AChat 0 "first"; AChat 0 "second"].
Proof. vm_compute. repeat split. Qed.

(** ** One bot per endpoint *)

Lemma reachable_step m e : reachable m → reachable (step m e).
Proof.
  intros (file & es & ->). exists file, (es ++ [e]).
  unfold run. by rewrite fold_left_app.
Qed.

Lemma startBot_registers c hasChat m :
  is_Some (bots (startBot c (CreateOk hasChat) m) !! cfg_id c).
Proof. unfold_all. split_cases; map_cases; eauto. Qed.

Lemma startBot_nextBot c r m :
  nextBot m ≤ nextBot (startBot c r m) ≤ S (nextBot m).
Proof. unfold_all. split_cases; lia. Qed.

Lemma startBot_creates_when_unregistered c r m :
  nextBot (startBot c r m) ≠ nextBot m →
  bots m !! cfg_id c = None
  ∧ bots (startBot c r m) !! cfg_id c = Some (nextBot m).
Proof. unfold_all. split_cases; intros ?; map_cases; done. Qed.

Lemma startBot_keepAliveTimers c r m :
  keepAliveTimers (startBot c r m) = keepAliveTimers m.
Proof. unfold_all. by split_cases. Qed.

(** What the guard of [startBot] does give: at most one bot is
    registered per endpoint id, and starting an endpoint whose bot is
    registered only writes the warning "Bot is already running".  No bot
    object is created, no timer is armed, no map changes, nothing is asked
    of the client, and the call returns normally. *)
Lemma start_registered_is_logged_noop (m : BotManager) (c : BotConfig) (r : Created) :
  reachable m → is_Some (bots m !! cfg_id c) →
  let m' := startBot c r m in
  log m' = log m ++ [{| log_bot := cfg_id c; log_level := warn;
                        log_msg := MsgAlreadyRunning |}]
  ∧ bots m' = bots m ∧ objects m' = objects m ∧ nextBot m' = nextBot m
  ∧ timers m' = timers m ∧ nextTimer m' = nextTimer m
  ∧ keepAliveTimers m' = keepAliveTimers m
  ∧ reconnectTimers m' = reconnectTimers m
  ∧ reconnectAttempts m' = reconnectAttempts m
  ∧ messageQueue m' = messageQueue m
  ∧ botStatus m' = botStatus m
  ∧ actions m' = actions m.
Proof.
  intros Hm Hreg. apply wf_reachable in Hm. destruct Hm as [_ _ He _ _].
  cbv zeta. unfold startBot. rewrite (He _ Hreg). by destruct Hreg as [h ->].
Qed.

(** The scenario of the specification: [start(e1)] twice in a row. *)
Example start_twice_scenario :
  let m := run (loadBots [e1]) [EStart e1 (CreateOk true); EStart e1 (CreateOk true)] in
  bots m !! IdStr "e1" = Some 0 ∧ nextBot m = 1 ∧ size (objects m) = 1
  ∧ size (timers m) = 0
  ∧ liveHandles [e1] [EStart e1 (CreateOk true); EStart e1 (CreateOk true)] "e1" = [0]
  ∧ last (log m) = Some {| log_bot := "e1"; log_level := warn;
                           log_msg := MsgAlreadyRunning |}.
Proof. vm_compute. repeat split. Qed.

(** C5: the guard of [startBot] looks at [this.bots], and [cleanupBot]
    deletes from it by id, whichever bot is registered there.  So the
    [end] signal of a stopped bot, arriving after the endpoint was
    started again, unregisters the new bot.  The new bot still spawns:
    the endpoint reads Online and has a live handle, which was never told
    to quit and never ended, yet nothing is registered.  The next start is
    then no no-op: it creates a second handle, registers it, and logs
    "Starting bot", so two live handles exist for the one endpoint. *)
Theorem stale_end_unregisters_live_bot :
  let m := run (loadBots [e1]) lateEndAfterRestart in
  let m' := startBot e1 (CreateOk true) m in
  stateOf m "e1" = Some (VStr "online")
  ∧ liveHandles [e1] lateEndAfterRestart "e1" = [1]
  ∧ bots m !! IdStr "e1" = None
  ∧ bots m' !! IdStr "e1" = Some 2
  ∧ nextBot m' = S (nextBot m)
  ∧ liveHandles [e1] (lateEndAfterRestart ++ [EStart e1 (CreateOk true)]) "e1" = [1; 2]
  ∧ log m' = log m ++ [{| log_bot := "e1"; log_level := info;
                          log_msg := MsgStarting "Bot One" "bot1" |}].
Proof. vm_compute. repeat split. Qed.

(** The same defect without a restart: the [error] handler unregisters
    its bot without telling it to quit.  When the connection survives the
    error, the retry creates a second bot beside the first; the client
    was asked to quit neither. *)
Example error_leaves_bot_connected :
  let m := run (loadBots [e1]) errorThenRetryFires in
  liveHandles [e1] errorThenRetryFires "e1" = [0; 1]
  ∧ bots m !! IdStr "e1" = Some 1
  ∧ actions m = [].
Proof. vm_compute. repeat split. Qed.
(** ** A manual stop and what follows it *)

Lemma pendingReconnect_none m i :
  (∀ t c d r,
     timers m !! t = Some {| task := TReconnect c; delay := d; repeats := r |} →
     cfg_id c ≠ i) →
  ∀ t, ¬ pendingReconnect m i t.
Proof. intros H t (c & d & r & Ht & Hc). by apply (H t c d r). Qed.

Lemma unmarkedBotOf_true i m h :
  unmarkedBotOf i m h = true
  ↔ ∃ b, objects m !! h = Some b ∧ botId b = i ∧ manuallyStopped b = false.
Proof.
  unfold unmarkedBotOf. destruct (objects m !! h) as [b|]; split.
  - intros H. apply andb_true_iff in H as [H1 H2].
    apply bool_decide_eq_true in H1. apply negb_true_iff in H2. eauto.
  - intros (b' & Hb & Hi & Hs). simplify_eq. rewrite Hs.
    by rewrite bool_decide_eq_true_2.
  - done.
  - by intros (? & ? & _).
Qed.

Lemma scheduledFor_emitLog i j l msg m :
  scheduledFor i (emitLog j l msg m)
  = scheduledFor i m ++ match msg with
                        | MsgScheduled d _ => if decide (j = i) then [d] else []
                        | _ => []
                        end.
Proof.
  unfold scheduledFor, emitLog. simpl. rewrite omap_app. simpl.
  destruct msg; try done. by case_decide.
Qed.

(** *** What [stop] itself does *)

Lemma stopBot_cancels i q m :
  wf m → noRetry i (snd (stopBot i q m)).
Proof.
  intros [_ _ _ Ht _]. split.
  - unfold_all. split_cases; by map_cases.
  - intros t c d r. unfold_all. split_cases; intros Hx Hc; map_cases;
      apply Ht in Hx; congruence.
Qed.

Lemma objects_stopBot i q m :
  objects (snd (stopBot i q m))
  = match bots m !! i with
    | Some h => alter markStopped h (objects m)
    | None => objects m
    end.
Proof. unfold_all. by split_cases. Qed.

Lemma stopBot_status i q m :
  match bots m !! i with
  | Some _ => stateOf (snd (stopBot i q m)) i = stateOf m i
  | None => stateOf (snd (stopBot i q m)) i = Some (VStr "offline")
  end.
Proof.
  rewrite !stateOf_unfold. unfold_all. split_cases; try done.
  all: rewrite lookup_insert_eq; simpl; by spread_simpl.
Qed.

Lemma stopBot_outcome i q m :
  reconnectAttempts (snd (stopBot i q m)) !! i = Some 0
  ∧ match bots m !! i, q with
    | Some h, None =>
        fst (stopBot i q m) = Returned
        ∧ bots (snd (stopBot i q m)) !! i = None
        ∧ actions (snd (stopBot i q m)) = actions m ++ [AQuit h "Stopped by user"]
    | Some h, Some e =>
        fst (stopBot i q m) = Raised e
        ∧ bots (snd (stopBot i q m)) !! i = Some h
        ∧ actions (snd (stopBot i q m)) = actions m
    | None, _ =>
        fst (stopBot i q m) = Returned
        ∧ bots (snd (stopBot i q m)) !! i = None
        ∧ actions (snd (stopBot i q m)) = actions m
    end.
Proof.
  unfold_all. split_cases; rewrite ?lookup_insert_eq, ?lookup_delete_eq; done.
Qed.
(** *** What the events after a stop keep *)

Lemma stoppedSince_refl i m : noRetry i m → stoppedSince i m m.
Proof. intros H. repeat split; try done; try apply H. eauto. Qed.

Lemma stoppedSince_trans i m0 m1 m2 :
  stoppedSince i m0 m1 → stoppedSince i m1 m2 → stoppedSince i m0 m2.
Proof.
  intros (_ & Hu1 & Hs1 & Hb1 & Ho1) (Hn & Hu2 & Hs2 & Hb2 & Ho2).
  split; [done |]. split; [eauto |]. split; [congruence |]. split; [eauto |].
  intros h b Hb. destruct (Ho1 _ _ Hb) as (b1 & Hb1' & Hi1).
  destruct (Ho2 _ _ Hb1') as (b2 & Hb2' & Hi2). exists b2. split; [done | congruence].
Qed.

(** An operation that leaves the registrations, the bot objects and the
    reconnect records alone, arms no reconnect and announces none. *)
Lemma stoppedSince_calm i m m' :
  noRetry i m →
  bots m' = bots m → objects m' = objects m →
  reconnectTimers m' = reconnectTimers m →
  (∀ t c d r,
     timers m' !! t = Some {| task := TReconnect c; delay := d; repeats := r |} →
     timers m !! t = Some {| task := TReconnect c; delay := d; repeats := r |}) →
  scheduledFor i m' = scheduledFor i m →
  stoppedSince i m m'.
Proof.
  intros [Hr Ht] Hb Ho Hr' Ht' Hs. split; [split |].
  - by rewrite Hr'.
  - intros t c d r Hx. eapply Ht, Ht', Hx.
  - split; [unfold unmarkedBotOf; by rewrite Ho |]. split; [done |].
    split; [by rewrite Hb |]. intros h b. rewrite Ho. eauto.
Qed.

Lemma stoppedSince_quiet i m m' :
  noRetry i m → quiet m m' → scheduledFor i m' = scheduledFor i m →
  stoppedSince i m m'.
Proof.
  intros Hn (Hb & Hob & Hr & _ & _ & Htm) Hs. by apply stoppedSince_calm.
Qed.

Ltac sched_same :=
  unfold scheduledFor; unfold_all; split_cases;
  rewrite ?omap_app; simpl; rewrite ?app_nil_r; done.

Lemma scheduledFor_clearTimer i t m : scheduledFor i (clearTimer t m) = scheduledFor i m.
Proof. sched_same. Qed.

Lemma scheduledFor_sendMessage i j text x m :
  scheduledFor i (snd (sendMessage j text x m)) = scheduledFor i m.
Proof. sched_same. Qed.

Lemma scheduledFor_startKeepAlive i j m :
  scheduledFor i (startKeepAlive j m) = scheduledFor i m.
Proof. sched_same. Qed.

Lemma scheduledFor_processMessageQueue i j m :
  scheduledFor i (processMessageQueue j m) = scheduledFor i m.
Proof.
  unfold processMessageQueue. destruct (default [] (messageQueue m !! j)) as [|x q];
    [done |].
  generalize (x :: q). intros q'.
  destruct (armQueued_frame j q' 0 (emitLog j info (MsgProcessing (length q')) m))
    as (_ & _ & _ & _ & _ & _ & _ & _ & Hl & _).
  unfold scheduledFor. simpl. rewrite Hl. simpl. rewrite omap_app. simpl.
  by rewrite app_nil_r.
Qed.

Lemma scheduledFor_runTask i tk x m :
  (∀ c, tk ≠ TReconnect c) → scheduledFor i (runTask tk x m) = scheduledFor i m.
Proof. destruct tk; intros Hne; [by destruct (Hne c) | sched_same ..]. Qed.

Lemma scheduledFor_onMove i h t m : scheduledFor i (onMove h t m) = scheduledFor i m.
Proof. sched_same. Qed.
Ltac stopped_brute Hf Hr Ht :=
  split; [split |
  split; [| split; [| split]]];
  [ unfold_all; split_cases; map_cases; eauto
  | intros ? ? ? ?; unfold_all; split_cases; intros ?; map_cases; eauto
  | intros ?; rewrite !unmarkedBotOf_true; unfold_all; split_cases;
    intros (? & ? & ? & ?); map_cases; eauto
  | unfold scheduledFor; unfold_all; split_cases;
    rewrite ?omap_app; simpl; rewrite ?app_nil_r; try done;
    repeat case_decide; simplify_eq; rewrite ?app_nil_r; try done
  | unfold_all; split_cases; intros ?; map_cases; eauto
  | intros ? ?; unfold_all; split_cases; intros ?; map_cases; eauto;
    try by_fresh Hf;
    try (match goal with H : objects _ !! _ = Some _ |- _ => rewrite H end;
         simpl; eexists; split; [reflexivity | done]) ].

Lemma stoppedSince_startBot i c r m :
  fresh m → noRetry i m → cfg_id c ≠ i → stoppedSince i m (startBot c r m).
Proof.
  intros Hf [Hr Ht] Hne. stopped_brute Hf Hr Ht.
Qed.

Lemma stoppedSince_stopBot i j q m :
  fresh m → noRetry i m → stoppedSince i m (snd (stopBot j q m)).
Proof.
  intros Hf [Hr Ht]. stopped_brute Hf Hr Ht.
Qed.

Lemma stoppedSince_then i m0 m1 m2 :
  stoppedSince i m0 m1 → (noRetry i m1 → stoppedSince i m1 m2) → stoppedSince i m0 m2.
Proof.
  intros H1 H2. eapply stoppedSince_trans; [done |]. apply H2, H1.
Qed.

Lemma stoppedSince_emitLog i j l msg m :
  noRetry i m → (∀ d a, msg ≠ MsgScheduled d a) → stoppedSince i m (emitLog j l msg m).
Proof.
  intros Hn Hmsg. apply stoppedSince_calm; try done.
  rewrite scheduledFor_emitLog. destruct msg; try (by rewrite app_nil_r).
  exfalso. by eapply Hmsg.
Qed.

Lemma stoppedSince_updateStatus i j upd m :
  noRetry i m → stoppedSince i m (updateStatus j upd m).
Proof. intros Hn. by apply stoppedSince_calm. Qed.

Lemma stoppedSince_cleanupBot i j s m :
  fresh m → noRetry i m → stoppedSince i m (cleanupBot j s m).
Proof. intros Hf [Hr Ht]. stopped_brute Hf Hr Ht. Qed.

Lemma stoppedSince_scheduleReconnect i c m :
  fresh m → noRetry i m → cfg_id c ≠ i →
  stoppedSince i m (scheduleReconnect (cfg_id c) c m).
Proof. intros Hf [Hr Ht] Hne. stopped_brute Hf Hr Ht. Qed.

Lemma fresh_same m m' :
  objects m' = objects m → nextBot m' = nextBot m → fresh m → fresh m'.
Proof. intros Ho Hn Hf h. rewrite Ho, Hn. apply Hf. Qed.

(** The tail of a disconnect handler of a bot that is not an unmarked
    bot of [i]. *)
Lemma stoppedSince_afterDisconnect i b m :
  fresh m → noRetry i m →
  (botId b = i → manuallyStopped b = true) →
  stoppedSince i m (afterDisconnect b m).
Proof.
  intros Hf Hn Hmark. unfold afterDisconnect.
  destruct (decide (botId b = i)) as [Hi | Hne].
  - rewrite (Hmark Hi), andb_false_r. by apply stoppedSince_cleanupBot.
  - destruct (enabledNotFalse (botConfig b) && negb (manuallyStopped b)).
    + eapply stoppedSince_then; [by apply stoppedSince_scheduleReconnect |].
      intros Hn'. apply stoppedSince_cleanupBot; [| done].
      eapply fresh_same, Hf; unfold_ops; by split_cases.
    + by apply stoppedSince_cleanupBot.
Qed.

Lemma stoppedSince_disconnect i b l msg upd m :
  fresh m → noRetry i m →
  (botId b = i → manuallyStopped b = true) →
  (∀ d a, msg ≠ MsgScheduled d a) →
  stoppedSince i m
    (afterDisconnect b (updateStatus (botId b) upd (emitLog (botId b) l msg m))).
Proof.
  intros Hf Hn Hmark Hmsg.
  eapply stoppedSince_then; [by apply stoppedSince_emitLog |]. intros Hn1.
  eapply stoppedSince_then; [by apply stoppedSince_updateStatus |]. intros Hn2.
  by apply stoppedSince_afterDisconnect.
Qed.
Lemma stoppedSince_spawned i h b m :
  noRetry i m → objects m !! h = Some b →
  stoppedSince i m
    (set_objects (insert h {| botConfig := botConfig b;
                              manuallyStopped := manuallyStopped b;
                              chat := chat b; spawnListener := false |}) m).
Proof.
  intros [Hr Ht] Hb. split; [by split |].
  split; [| split; [done | split; [done |]]].
  - intros h'. rewrite !unmarkedBotOf_true. simpl. intros (b' & Hb' & Hi & Hs).
    rewrite lookup_insert in Hb'. case_decide; simplify_eq; eauto.
  - intros h' b' Hb'. simpl. rewrite lookup_insert. case_decide; simplify_eq; eauto.
Qed.

Lemma stoppedSince_arm i tk d r m :
  noRetry i m → (∀ c, tk ≠ TReconnect c) → stoppedSince i m (snd (arm tk d r m)).
Proof.
  intros Hn Hne. apply stoppedSince_calm; try done.
  intros t c d' r'. simpl. rewrite lookup_insert. case_decide; [| done].
  intros Hx. simplify_eq. by destruct (Hne c).
Qed.

(** Peel the outermost operation off the state of the goal. *)
Ltac peel tac := eapply stoppedSince_then; [| let H := fresh "Hn" in intros H; tac].

Lemma stoppedSince_onSpawn i h now t m :
  noRetry i m → stoppedSince i m (onSpawn h now t m).
Proof.
  intros Hn. unfold onSpawn. destruct (objects m !! h) as [b|] eqn:Hb;
    [| by apply stoppedSince_refl].
  destruct (spawnListener b); [| by apply stoppedSince_refl].
  cbv zeta.
  peel ltac:(apply stoppedSince_quiet;
             [done | apply quiet_processMessageQueue
             | apply scheduledFor_processMessageQueue]).
  peel ltac:(apply stoppedSince_quiet;
             [done | apply quiet_startKeepAlive | apply scheduledFor_startKeepAlive]).
  peel ltac:(by apply stoppedSince_arm).
  peel ltac:(by apply stoppedSince_updateStatus).
  peel ltac:(by apply stoppedSince_emitLog).
  by apply (stoppedSince_spawned i h b).
Qed.

Lemma stoppedSince_onMove i h t m : noRetry i m → stoppedSince i m (onMove h t m).
Proof.
  intros Hn. unfold onMove. destruct (objects m !! h) as [b|];
    [| by apply stoppedSince_refl].
  destruct (botStatus m !! botId b); [| by apply stoppedSince_refl].
  by apply stoppedSince_updateStatus.
Qed.

Lemma fresh_cleanupBot j s m : fresh m → fresh (cleanupBot j s m).
Proof. apply fresh_same; unfold_ops; by split_cases. Qed.

Lemma stoppedSince_shutdownFold i l : ∀ m,
  fresh m → noRetry i m → stoppedSince i m (fold_left shutdownOne l m).
Proof.
  induction l as [|[j h] l IH]; intros m Hf Hn; [by apply stoppedSince_refl |].
  change (fold_left shutdownOne ((j, h) :: l) m)
    with (fold_left shutdownOne l (cleanupBot j false (act (AQuit h "System shutdown") m))).
  assert (stoppedSince i m (cleanupBot j false (act (AQuit h "System shutdown") m)))
    as H1.
  { peel ltac:(by apply stoppedSince_cleanupBot). by apply stoppedSince_calm. }
  eapply stoppedSince_then; [exact H1 |]. intros Hn1.
  apply IH; [| done]. by apply fresh_cleanupBot.
Qed.

Lemma stoppedSince_shutdownAll i m :
  fresh m → noRetry i m → stoppedSince i m (shutdownAll m).
Proof.
  intros Hf Hn. unfold shutdownAll. cbv zeta.
  set (m1 := emitLog "system" info MsgShuttingDown m).
  set (l := map_to_list (bots m1)).
  apply (stoppedSince_then i m (fold_left shutdownOne l m1)).
  - peel ltac:(by apply stoppedSince_shutdownFold). by apply stoppedSince_emitLog.
  - intros [Hr Ht]. split; [by split |].
    split; [done |]. split; [done |]. split; [done |]. eauto.
Qed.

Lemma stoppedSince_fire i t x m :
  fresh m → noRetry i m → stoppedSince i m (fire t x m).
Proof.
  intros Hf Hn. unfold fire. destruct (timers m !! t) as [[tk d r]|] eqn:Htm;
    [| by apply stoppedSince_refl].
  simpl.
  assert (stoppedSince i m (if r then m else clearTimer t m)) as H1.
  { destruct r; [by apply stoppedSince_refl |].
    apply stoppedSince_quiet; [done | apply quiet_clearTimer |].
    apply scheduledFor_clearTimer. }
  assert (fresh (if r then m else clearTimer t m)) as Hf1 by (by destruct r).
  eapply stoppedSince_then; [exact H1 |]. intros Hn1.
  revert Hf1 Hn1. generalize (if r then m else clearTimer t m). intros m1 Hf1 Hn1.
  assert (∀ tk', tk' = tk → (∀ c, tk' ≠ TReconnect c) →
            stoppedSince i m1 (runTask tk' x m1)) as Hquiet.
  { intros tk' _ Hne. apply stoppedSince_quiet; [done | by apply quiet_runTask |].
    by apply scheduledFor_runTask. }
  destruct tk as [c| | | |]; try (by apply Hquiet).
  simpl.
  peel ltac:(apply stoppedSince_startBot; [done | done | by apply (proj2 Hn t c d r)]).
  by apply stoppedSince_emitLog.
Qed.

(** Every event that may follow the stop keeps the endpoint stopped. *)
Lemma stoppedSince_step i m e :
  fresh m → noRetry i m →
  startOf i e = false → staleSignal i m e = false →
  stoppedSince i m (step m e).
Proof.
  intros Hf Hn Hstart Hstale.
  assert (∀ h b, unmarkedBotOf i m h = false → objects m !! h = Some b →
            botId b = i → manuallyStopped b = true) as Hmark.
  { intros h b Hu Hb Hi. unfold unmarkedBotOf in Hu. rewrite Hb in Hu.
    rewrite bool_decide_eq_true_2 in Hu by done. simpl in Hu.
    by destruct (manuallyStopped b). }
  destruct e; simpl in *.
  - apply stoppedSince_startBot; try done. by apply bool_decide_eq_false in Hstart.
  - by apply stoppedSince_stopBot.
  - by apply stoppedSince_shutdownAll.
  - apply stoppedSince_quiet; [done | apply quiet_sendMessage |].
    apply scheduledFor_sendMessage.
  - by apply stoppedSince_onSpawn.
  - unfold onKicked. destruct (objects m !! h) as [b|] eqn:Hb;
      [| by apply stoppedSince_refl].
    apply stoppedSince_disconnect; try done. by apply (Hmark h).
  - unfold onError. destruct (objects m !! h) as [b|] eqn:Hb;
      [| by apply stoppedSince_refl].
    apply stoppedSince_disconnect; try done. by apply (Hmark h).
  - unfold onEnd. destruct (objects m !! h) as [b|] eqn:Hb;
      [| by apply stoppedSince_refl].
    apply stoppedSince_disconnect; try done. by apply (Hmark h).
  - by apply stoppedSince_onMove.
  - by apply stoppedSince_fire.
Qed.

Lemma staleSignal_mono i m0 m e :
  (∀ h, unmarkedBotOf i m h = true → unmarkedBotOf i m0 h = true) →
  staleSignal i m0 e = false → staleSignal i m e = false.
Proof.
  intros Hu. destruct e; simpl; try done; intros H0;
    destruct (unmarkedBotOf i m h) eqn:E; try done;
    apply Hu in E; congruence.
Qed.

Lemma stoppedSince_run i es : ∀ m0 m,
  wf m → stoppedSince i m0 m →
  forallb (followsStop i m0) es = true →
  stoppedSince i m0 (run m es).
Proof.
  induction es as [|e es IH]; intros m0 m Hwf Hs Hes; [done |].
  simpl in Hes. apply andb_true_iff in Hes as [He Hes].
  apply andb_true_iff in He as [Hstart Hstale].
  apply negb_true_iff in Hstart, Hstale.
  change (run m (e :: es)) with (run (step m e) es).
  apply IH; [by apply wf_step | | done].
  eapply stoppedSince_trans; [done |].
  apply stoppedSince_step; [apply Hwf | apply Hs | done |].
  eapply staleSignal_mono, Hstale. apply Hs.
Qed.
(** C3, as stated, fails: right after [stop] of a connected endpoint the
    state still reads Online, and a late error signal of the stopped
    session turns it into Error; no reconnect is scheduled. *)
Lemma state_after_stop_not_offline :
  let stopped := run (loadBots [e1])
                   [EStart e1 (CreateOk true);
                    ESpawn 0 "2025-01-01T00:00:00Z" overworld; EStop "e1" None] in
  let late := step stopped (EError 0 (VStr "read ECONNRESET")) in
  stateOf stopped "e1" = Some (VStr "online")
  ∧ stateOf late "e1" = Some (VStr "error")
  ∧ stateOf late "e1" ≠ Some (VStr "offline")
  ∧ reconnectTimers late !! IdStr "e1" = None.
Proof. vm_compute. repeat split; congruence. Qed.

(** C3 (amended): a manual stop wins until the next start.  [stop]
    cancels the endpoint's reconnect timer, clears its record and resets
    the attempt counter.  A registered bot is marked as manually stopped
    and told to quit; when [bot.quit] returns the bot is unregistered,
    and when [bot.quit] throws [stop] raises and the marked bot stays
    registered.  [stop] sets the state to Offline only when no bot was
    registered and otherwise leaves it as it was.  Whatever events follow
    (sends, further stops, a shutdown, timers firing, requests and signals
    of other endpoints, the late signals of the stopped bot), with
    auto-reconnect enabled or not, as long as there is no start request
    for the endpoint and no disconnect signal of a bot of the endpoint
    that the stop did not mark, no reconnect is on record, armed or
    announced for the endpoint, so none fires, and an endpoint left
    without registered bot stays without.  The state is Offline once
    the stopped bot's [end] or [kicked] signal was handled, and Error
    after its [error] signal. *)
Theorem manual_stop_wins (m : BotManager) (i : Id) (quitThrows : option string)
    (es : list Event)
    (Hm : reachable m)
    (Hes : forallb (followsStop i (snd (stopBot i quitThrows m))) es = true) :
  let m0 := snd (stopBot i quitThrows m) in
  let m' := run m0 es in
  (reconnectTimers m0 !! i = None
   ∧ (∀ t, ¬ pendingReconnect m0 i t)
   ∧ reconnectAttempts m0 !! i = Some 0)
  ∧ match bots m !! i, quitThrows with
    | Some h, None =>
        fst (stopBot i quitThrows m) = Returned
        ∧ bots m0 !! i = None
        ∧ actions m0 = actions m ++ [AQuit h "Stopped by user"]
    | Some h, Some e =>
        fst (stopBot i quitThrows m) = Raised e
        ∧ bots m0 !! i = Some h
        ∧ actions m0 = actions m
    | None, _ =>
        fst (stopBot i quitThrows m) = Returned
        ∧ bots m0 !! i = None
        ∧ actions m0 = actions m
    end
  ∧ match bots m !! i with
    | Some h =>
        stateOf m0 i = stateOf m i
        ∧ ∃ b, objects m0 !! h = Some b ∧ botId b = i ∧ manuallyStopped b = true
    | None => stateOf m0 i = Some (VStr "offline")
    end
  ∧ reconnectTimers m' !! i = None
  ∧ (∀ t, ¬ pendingReconnect m' i t)
  ∧ scheduledFor i m' = scheduledFor i m0
  ∧ (bots m0 !! i = None → bots m' !! i = None)
  ∧ ∀ h, bots m !! i = Some h →
      (∀ reason, stateOf (onEnd h reason m') i = Some (VStr "offline"))
      ∧ (∀ reason, stateOf (onKicked h reason m') i = Some (VStr "offline"))
      ∧ (∀ msg, stateOf (onError h msg m') i = Some (VStr "error")).
Proof.
  intros m0 m'. apply wf_reachable in Hm.
  pose proof (stopBot_cancels i quitThrows m Hm) as Hn0. fold m0 in Hn0.
  destruct (stopBot_outcome i quitThrows m) as [Ha Hout]. fold m0 in Ha, Hout.
  pose proof (stopBot_status i quitThrows m) as Hst. fold m0 in Hst.
  pose proof (wf_stopBot i quitThrows m Hm) as Hwf0. fold m0 in Hwf0.
  destruct (stoppedSince_run i es m0 m0 Hwf0 (stoppedSince_refl i m0 Hn0) Hes)
    as ([Hr Ht] & _ & Hs & Hb & Ho).
  fold m' in Hr, Ht, Hs, Hb, Ho.
  split; [split; [apply Hn0 | split; [apply pendingReconnect_none, Hn0 | done]] |].
  split; [done |].
  assert (∀ h, bots m !! i = Some h →
            ∃ b, objects m0 !! h = Some b ∧ botId b = i ∧ manuallyStopped b = true)
    as Hmarked.
  { intros h Hh. destruct (wf_owned m Hm i h Hh) as (b & Hb' & Hi).
    exists (markStopped b). subst m0.
    by rewrite objects_stopBot, Hh, lookup_alter_eq, Hb'. }
  split; [destruct (bots m !! i) as [h|]; [split; [done | by apply Hmarked] | done] |].
  split; [done |]. split; [by apply pendingReconnect_none |].
  split; [done |]. split; [done |].
  intros h Hh. destruct (Hmarked h Hh) as (b & Hb0 & Hi & _).
  destruct (Ho h b Hb0) as (b' & Hb' & Hi'). rewrite <- Hi, <- Hi'.
  split; [| split]; intros.
  - by apply onEnd_status.
  - by apply onKicked_status.
  - by apply onError_status.
Qed.

Lemma manual_stop_wins_witness :
  let m := connectedFlushing in
  let i := IdStr "e1" in
  let m0 := snd (stopBot i None m) in
  let m' := run m0 busyFuture in
  (reconnectTimers m0 !! i = None
   ∧ (∀ t, ¬ pendingReconnect m0 i t)
   ∧ reconnectAttempts m0 !! i = Some 0)
  ∧ match bots m !! i, (None : option string) with
    | Some h, None =>
        fst (stopBot i None m) = Returned
        ∧ bots m0 !! i = None
        ∧ actions m0 = actions m ++ [AQuit h "Stopped by user"]
    | Some h, Some e =>
        fst (stopBot i None m) = Raised e
        ∧ bots m0 !! i = Some h
        ∧ actions m0 = actions m
    | None, _ =>
        fst (stopBot i None m) = Returned
        ∧ bots m0 !! i = None
        ∧ actions m0 = actions m
    end
  ∧ match bots m !! i with
    | Some h =>
        stateOf m0 i = stateOf m i
        ∧ ∃ b, objects m0 !! h = Some b ∧ botId b = i ∧ manuallyStopped b = true
    | None => stateOf m0 i = Some (VStr "offline")
    end
  ∧ reconnectTimers m' !! i = None
  ∧ (∀ t, ¬ pendingReconnect m' i t)
  ∧ scheduledFor i m' = scheduledFor i m0
  ∧ (bots m0 !! i = None → bots m' !! i = None)
  ∧ ∀ h, bots m !! i = Some h →
      (∀ reason, stateOf (onEnd h reason m') i = Some (VStr "offline"))
      ∧ (∀ reason, stateOf (onKicked h reason m') i = Some (VStr "offline"))
      ∧ (∀ msg, stateOf (onError h msg m') i = Some (VStr "error")).
Proof.
  apply (manual_stop_wins connectedFlushing (IdStr "e1") None busyFuture).
  - exists [e1; e2],
      [ESend "e1" "queued" None; EStart e1 (CreateOk true);
       ESpawn 0 "2025-01-01T00:00:00Z" overworld].
    reflexivity.
  - vm_compute. reflexivity.
Defined.

(** The busy future at work: the queued message and the AuthMe timeout
    left armed by the stop fire and send nothing, the second endpoint
    fails and its retry, the only one ever announced, creates its next
    bot, and [e1] ends Offline with nothing on record. *)
Example busy_future_after_stop :
  let m0 := snd (stopBot "e1" None connectedFlushing) in
  let m' := run m0 busyFuture in
  stateOf m0 "e1" = Some (VStr "online")
  ∧ stateOf m' "e1" = Some (VStr "offline")
  ∧ scheduledFor "e1" m' = []
  ∧ Forall2 Qeq (scheduledFor "e2" m') [7500%Q]
  ∧ messageQueue m' !! IdStr "e1" = Some ["hello"]
  ∧ actions m' = [AQuit 0 "Stopped by user"; AQuit 2 "System shutdown"].
Proof.
  vm_compute. repeat split; try congruence. repeat constructor.
Qed.

(** When [bot.quit] throws, [stop] raises: the bot is marked but stays
    registered, its keep-alive interval stays armed, and the state is
    unchanged.  The mark still holds the reconnect back when the bot's
    signals arrive. *)
Example stop_raises_when_quit_throws :
  let m0 := stopBot "e1" (Some "socket is closed") connectedFlushing in
  let m' := run (snd m0) [EError 0 (VStr "read ECONNRESET"); EEnd 0 None] in
  fst m0 = Raised "socket is closed"
  ∧ bots (snd m0) !! IdStr "e1" = Some 0
  ∧ keepAliveTimers (snd m0) !! IdStr "e1" = Some 1
  ∧ stateOf (snd m0) "e1" = Some (VStr "online")
  ∧ actions (snd m0) = []
  ∧ bots m' !! IdStr "e1" = None
  ∧ reconnectTimers m' !! IdStr "e1" = None
  ∧ scheduledFor "e1" m' = []
  ∧ stateOf m' "e1" = Some (VStr "offline").
Proof. vm_compute. repeat split. Qed.

(** The race the stop flag closes: the stopped bot's [kicked] and [end]
    signals arrive after [stop] returned and arm nothing. *)
Example late_kick_after_stop :
  let m := run (loadBots [e1])
             [EStart e1 (CreateOk true); ESpawn 0 "2025-01-01T00:00:00Z" overworld;
              EStop "e1" None; EKicked 0 "Server closed"; EEnd 0 None] in
  stateOf m "e1" = Some (VStr "offline")
  ∧ reconnectTimers m !! IdStr "e1" = None
  ∧ scheduledDelays m = [].
Proof. vm_compute. repeat split. Qed.

(** What the flag does not cover: a bot that its [kicked] handler had
    already unregistered is not the one [stop] marks, so its [end]
    signal, arriving after the stop, arms a reconnect again. *)
Example stale_end_after_stop_rearms :
  let stopped := run (loadBots [e1])
                   [EStart e1 (CreateOk true); EKicked 0 "Server closed";
                    EStop "e1" None] in
  let m := step stopped (EEnd 0 None) in
  followsStop "e1" stopped (EEnd 0 None) = false
  ∧ pendingReconnect m "e1" 1 ∧ reconnectTimers m !! IdStr "e1" = Some 1.
Proof.
  vm_compute. split; [done |]. split; [| done].
  eexists _, _, _. split; reflexivity.
Qed.
(** ** Backoff across consecutive failures *)

Lemma scheduledDelays_emitLog i l msg m :
  scheduledDelays (emitLog i l msg m)
  = scheduledDelays m ++ match msg with
                         | MsgScheduled d _ => [d]
                         | _ => []
                         end.
Proof.
  unfold scheduledDelays, emitLog. simpl. rewrite omap_app. simpl.
  by destruct msg.
Qed.

Lemma startBot_throws_arms c msg m :
  enabledNotFalse c = true → bots m !! cfg_id c = None →
  let a := default 0 (reconnectAttempts m !! cfg_id c) + 1 in
  armedRetry c a (startBot c (CreateThrows msg) m)
  ∧ scheduledDelays (startBot c (CreateThrows msg) m)
    = scheduledDelays m ++ [reconnectDelay a].
Proof.
  intros Hen Hb. simpl. unfold armedRetry, scheduledDelays. unfold_all.
  rewrite Hen. split_cases; try congruence.
  all: rewrite ?omap_app; simpl; rewrite ?app_nil_r.
  all: repeat split; try done; rewrite ?lookup_insert_eq; try done.
  all: eexists; split; [reflexivity | by rewrite lookup_insert_eq].
Qed.

Lemma retryThrows_arms c msg a m :
  enabledNotFalse c = true → armedRetry c a m →
  armedRetry c (a + 1) (retryThrows (cfg_id c) msg m)
  ∧ scheduledDelays (retryThrows (cfg_id c) msg m)
    = scheduledDelays m ++ [reconnectDelay (a + 1)].
Proof.
  intros Hen (Hb & Ha & t & Hr & Ht). unfold retryThrows, fire. rewrite Hr, Ht. simpl.
  set (m1 := emitLog (cfg_id c) info MsgAttempting (clearTimer t m)).
  destruct (startBot_throws_arms c msg m1 Hen Hb) as [H1 H2].
  change (reconnectAttempts m1) with (reconnectAttempts m) in H1, H2.
  rewrite Ha in H1, H2. simpl in H1, H2. split; [done |].
  rewrite H2. unfold m1. rewrite scheduledDelays_emitLog. simpl. by rewrite app_nil_r.
Qed.

Lemma loadBots_fresh_counters file i :
  default 0 (reconnectAttempts (loadBots file) !! i) = 0
  ∧ log (loadBots file) = [].
Proof.
  unfold loadBots.
  assert (default 0 (reconnectAttempts emptyManager !! i) = 0 ∧ log emptyManager = [])
    as H0 by (simpl; by rewrite lookup_empty).
  revert H0. generalize emptyManager.
  induction file as [|c file IH]; intros m Hm; simpl; [done |].
  apply IH. simpl. destruct Hm as [Hm ->]. split; [| done].
  rewrite lookup_insert. by case_decide.
Qed.

Lemma iter_retryThrows c msg m0 a0 k :
  enabledNotFalse c = true → armedRetry c a0 m0 →
  armedRetry c (a0 + k) (Nat.iter k (retryThrows (cfg_id c) msg) m0)
  ∧ scheduledDelays (Nat.iter k (retryThrows (cfg_id c) msg) m0)
    = scheduledDelays m0 ++ (reconnectDelay <$> seq (S a0) k).
Proof.
  intros Hen H0. induction k as [|k [IH1 IH2]].
  - simpl. rewrite Nat.add_0_r, app_nil_r. done.
  - rewrite seq_S, fmap_app. simpl.
    destruct (retryThrows_arms c msg _ _ Hen IH1) as [H1 H2].
    replace (a0 + S k) with (a0 + k + 1) by lia. split; [done |].
    rewrite H2, IH2, <- app_assoc.
    by replace (a0 + k + 1) with (S a0 + k) by lia.
Qed.

(** C1, as stated, fails.  With three connect failures reported by the
    client, each retry re-invoking [startBot], every scheduled delay is
    7.5 s; with three failures of [createBot] itself the delays are 7.5 s,
    11.25 s and 16.875 s.  In neither run is the first delay 5 s. *)
Lemma three_failures_delays :
  Forall2 Qeq (scheduledDelays (run (loadBots [e1]) threeConnectErrors))
    [7500; 7500; 7500]%Q
  ∧ Forall2 Qeq (scheduledDelays (run (loadBots [e1]) threeCreateFailures))
      [7500; 11250; 16875]%Q
  ∧ ¬ Forall2 Qeq (scheduledDelays (run (loadBots [e1]) threeConnectErrors))
        [5000; 7500; 11250]%Q
  ∧ ¬ Forall2 Qeq (scheduledDelays (run (loadBots [e1]) threeCreateFailures))
        [5000; 7500; 11250]%Q.
Proof.
  assert (scheduledDelays (run (loadBots [e1]) threeConnectErrors)
          = [15000 # 2; 15000 # 2; 15000 # 2]%Q) as -> by (vm_compute; reflexivity).
  assert (scheduledDelays (run (loadBots [e1]) threeCreateFailures)
          = [15000 # 2; 45000 # 4; 135000 # 8]%Q) as -> by (vm_compute; reflexivity).
  split; [repeat constructor |]. split; [repeat constructor |].
  split; intros H; inversion H as [|? ? ? ? Hq _]; discriminate Hq.
Qed.

(** C1 (amended): consecutive failures between which the attempt counter
    is not reset, that is failures of [createBot] itself, back off
    exponentially.  From a fresh manager the k-th consecutive failure
    (k = 1, 2, ...) schedules [min(300000, 5000 * 1.5^k)] ms: 7.5 s,
    11.25 s, 16.875 s, ..., below the cap up to the tenth failure and
    exactly 300 s from the eleventh on. *)
Theorem backoff_on_consecutive_create_failures (file : list BotConfig)
    (c : BotConfig) (msg : Value) (k : nat) (Hen : enabledNotFalse c = true) :
  let m := Nat.iter k (retryThrows (cfg_id c) msg)
             (startBot c (CreateThrows msg) (loadBots file)) in
  scheduledDelays m = reconnectDelay <$> seq 1 (S k)
  ∧ armedRetry c (S k) m
  ∧ (reconnectDelay 1 == 7500 ∧ reconnectDelay 2 == 11250
     ∧ reconnectDelay 3 == 16875)%Q
  ∧ (∀ n, n ≤ 10 → (reconnectDelay n < 300000)%Q)
  ∧ (∀ n, 11 ≤ n → (reconnectDelay n == 300000)%Q).
Proof.
  intros m.
  destruct (loadBots_fresh_counters file (cfg_id c)) as [Ha Hl].
  destruct (loadBots_frame file emptyManager) as (Hb & _).
  assert (bots (loadBots file) !! cfg_id c = None) as Hnone
    by (unfold loadBots; rewrite Hb; apply lookup_empty).
  destruct (startBot_throws_arms c msg (loadBots file) Hen Hnone) as [H1 H2].
  rewrite Ha in H1, H2. simpl in H1, H2.
  destruct (iter_retryThrows c msg _ 1 k Hen H1) as [H3 H4].
  split; [| split; [done |]].
  - subst m. rewrite H4, H2. unfold scheduledDelays at 1. rewrite Hl. done.
  - split; [repeat split |]. split.
    + apply reconnectDelay_below_cap.
    + apply reconnectDelay_capped.
Qed.

Lemma backoff_on_consecutive_create_failures_witness :
  let m := Nat.iter 2 (retryThrows (cfg_id e1) (VStr "connect ECONNREFUSED"))
             (startBot e1 (CreateThrows (VStr "connect ECONNREFUSED")) (loadBots [e1])) in
  scheduledDelays m = reconnectDelay <$> seq 1 (S 2)
  ∧ armedRetry e1 (S 2) m
  ∧ (reconnectDelay 1 == 7500 ∧ reconnectDelay 2 == 11250
     ∧ reconnectDelay 3 == 16875)%Q
  ∧ (∀ n, n ≤ 10 → (reconnectDelay n < 300000)%Q)
  ∧ (∀ n, 11 ≤ n → (reconnectDelay n == 300000)%Q).
Proof.
  apply (backoff_on_consecutive_create_failures [e1] e1
           (VStr "connect ECONNREFUSED") 2).
  reflexivity.
Defined.

(** ** The counter reset in [startBot] keeps the delay at its first value *)

Lemma startBot_ok_justStarted c hasChat m :
  keepAliveFresh m → bots m !! cfg_id c = None →
  justStarted c (startBot c (CreateOk hasChat) m)
  ∧ scheduledDelays (startBot c (CreateOk hasChat) m) = scheduledDelays m.
Proof.
  intros Hk Hb. unfold justStarted, keepAliveFresh, scheduledDelays in *.
  unfold_all. split_cases; try congruence.
  all: rewrite ?omap_app; simpl; rewrite ?app_nil_r.
  all: repeat split; try done; rewrite ?lookup_insert_eq; try done.
  all: eexists _, _; by rewrite !lookup_insert_eq.
Qed.

Lemma onError_arms c h b msg m :
  enabledNotFalse c = true → keepAliveFresh m →
  reconnectAttempts m !! cfg_id c = Some 0 →
  bots m !! cfg_id c = Some h → objects m !! h = Some b →
  botConfig b = c → manuallyStopped b = false →
  armedRetry c 1 (onError h msg m)
  ∧ keepAliveFresh (onError h msg m)
  ∧ scheduledDelays (onError h msg m) = scheduledDelays m ++ [reconnectDelay 1].
Proof.
  intros Hen Hk Ha Hb Ho <- Hs.
  unfold armedRetry, keepAliveFresh, scheduledDelays, botId in *.
  unfold onError, botId. rewrite Ho. unfold_ops. unfold botId.
  repeat (simpl; rewrite ?Hb, ?Ho, ?Ha, ?Hen, ?Hs).
  split_cases; try congruence.
  all: rewrite ?omap_app; simpl; rewrite ?app_nil_r.
  all: repeat split; try done; rewrite ?lookup_delete_eq, ?lookup_insert_eq; try done.
  all: try (intros i t Ht; map_cases;
            match goal with H : keepAliveTimers _ !! _ = Some _ |- _ =>
              apply Hk in H
            end; lia).
  all: rewrite ?Ha; simpl; try done.
  all: eexists; split; [reflexivity |].
  all: rewrite ?lookup_delete_ne, ?lookup_insert_eq; try done.
  all: match goal with H : keepAliveTimers _ !! _ = Some _ |- _ => apply Hk in H end; lia.
Qed.

Lemma retryOk_justStarted c a m :
  keepAliveFresh m → armedRetry c a m →
  match reconnectTimers m !! cfg_id c with
  | Some t =>
      justStarted c (fire t clientOk m)
      ∧ scheduledDelays (fire t clientOk m) = scheduledDelays m
  | None => False
  end.
Proof.
  intros Hk (Hb & Ha & t & Hr & Ht). rewrite Hr. unfold fire. rewrite Ht. simpl.
  set (m1 := emitLog (cfg_id c) info MsgAttempting (clearTimer t m)).
  destruct (startBot_ok_justStarted c true m1 Hk Hb) as [H1 H2].
  split; [done |]. rewrite H2. unfold m1. rewrite scheduledDelays_emitLog.
  by rewrite app_nil_r.
Qed.

Lemma errorThenRetry_first_delay c msg m :
  enabledNotFalse c = true → justStarted c m →
  justStarted c (errorThenRetry (cfg_id c) msg m)
  ∧ scheduledDelays (errorThenRetry (cfg_id c) msg m)
    = scheduledDelays m ++ [reconnectDelay 1].
Proof.
  intros Hen (Hk & Ha & h & b & Hb & Ho & Hc & Hs). unfold errorThenRetry.
  rewrite Hb. cbv zeta.
  destruct (onError_arms c h b msg m Hen Hk Ha Hb Ho Hc Hs) as (Harm & Hk' & Hd).
  pose proof (retryOk_justStarted c 1 _ Hk' Harm) as Hretry.
  destruct (reconnectTimers (onError h msg m) !! cfg_id c) as [t|]; [| done].
  destruct Hretry as [H1 H2]. split; [done |]. by rewrite H2, Hd.
Qed.

Lemma loadBots_no_keepAlive file : keepAliveTimers (loadBots file) = ∅.
Proof.
  unfold loadBots. assert (keepAliveTimers emptyManager = ∅) as H0 by done.
  revert H0. generalize emptyManager.
  induction file as [|c file IH]; intros m Hm; simpl; [done |]. by apply IH.
Qed.

(** With failures reported by the client's [error] signal the attempt
    counter is back at 0 when each retry has created its bot, so however
    many failures follow one another, every one of them schedules the
    first delay, 7.5 s, and the cap is never reached. *)
Lemma connect_errors_never_back_off (file : list BotConfig) (c : BotConfig)
    (msg : Value) (hasChat : bool) (k : nat) :
  enabledNotFalse c = true →
  scheduledDelays
    (Nat.iter k (errorThenRetry (cfg_id c) msg)
       (startBot c (CreateOk hasChat) (loadBots file)))
  = replicate k (reconnectDelay 1).
Proof.
  intros Hen.
  assert (keepAliveFresh (loadBots file)) as Hk.
  { intros i t. rewrite loadBots_no_keepAlive. by rewrite lookup_empty. }
  destruct (loadBots_frame file emptyManager) as (Hb & _).
  assert (bots (loadBots file) !! cfg_id c = None) as Hnone
    by (unfold loadBots; rewrite Hb; apply lookup_empty).
  destruct (loadBots_fresh_counters file (cfg_id c)) as [_ Hl].
  destruct (startBot_ok_justStarted c hasChat _ Hk Hnone) as [H0 Hd0].
  assert (scheduledDelays (startBot c (CreateOk hasChat) (loadBots file)) = []) as Hd
    by (rewrite Hd0; unfold scheduledDelays; by rewrite Hl).
  clear Hd0. revert H0 Hd.
  generalize (startBot c (CreateOk hasChat) (loadBots file)). intros m0 H0 Hd.
  assert (justStarted c (Nat.iter k (errorThenRetry (cfg_id c) msg) m0)
          ∧ scheduledDelays (Nat.iter k (errorThenRetry (cfg_id c) msg) m0)
            = replicate k (reconnectDelay 1)) as [_ H]; [| done].
  induction k as [|k [IH1 IH2]]; [done |].
  destruct (errorThenRetry_first_delay c msg _ Hen IH1) as [H1 H2].
  change (Nat.iter (S k) (errorThenRetry (cfg_id c) msg) m0)
    with (errorThenRetry (cfg_id c) msg (Nat.iter k (errorThenRetry (cfg_id c) msg) m0)).
  split; [done |]. rewrite H2, IH2.
  change (reconnectDelay 1 :: replicate k (reconnectDelay 1))
    with (replicate (S k) (reconnectDelay 1)).
  by rewrite replicate_S_end.
Qed.

(** ** shutdownAll *)

Lemma shutdownFold_spec l : ∀ m,
  let m' := fold_left shutdownOne l m in
  (∀ i, keepAliveTimers m' !! i
        = if decide (i ∈ l.*1) then None else keepAliveTimers m !! i)
  ∧ (∀ i, reconnectTimers m' !! i
          = if decide (i ∈ l.*1) then None else reconnectTimers m !! i)
  ∧ (∀ t, timers m !! t = None → timers m' !! t = None)
  ∧ (∀ i t, i ∈ l.*1 → keepAliveTimers m !! i = Some t → timers m' !! t = None)
  ∧ (∀ i t, i ∈ l.*1 → reconnectTimers m !! i = Some t → timers m' !! t = None)
  ∧ (∀ t tm, timers m' !! t = Some tm → timers m !! t = Some tm).
Proof.
  induction l as [|[j h] l IH]; intros m; simpl.
  { repeat split; intros; try done;
      first [ by rewrite decide_False by apply not_elem_of_nil
            | exfalso; by eapply not_elem_of_nil ]. }
  destruct (IH (shutdownOne m (j, h))) as (Hk & Hr & Hn & Hkt & Hrt & Hsub).
  assert (∀ t, timers m !! t = None → timers (shutdownOne m (j, h)) !! t = None) as Hn1.
  { intros t. unfold_all. split_cases; intros ?; by map_cases. }
  assert (∀ t tm, timers (shutdownOne m (j, h)) !! t = Some tm → timers m !! t = Some tm)
    as Hsub1.
  { intros t tm. unfold_all. split_cases; intros ?; by map_cases. }
  assert (∀ i, keepAliveTimers (shutdownOne m (j, h)) !! i
               = if decide (i = j) then None else keepAliveTimers m !! i) as Hk1.
  { intros i. unfold_all. split_cases; map_cases; try done; by case_decide; simplify_eq. }
  assert (∀ i, reconnectTimers (shutdownOne m (j, h)) !! i
               = if decide (i = j) then None else reconnectTimers m !! i) as Hr1.
  { intros i. unfold_all. split_cases; map_cases; try done; by case_decide; simplify_eq. }
  assert (∀ t, keepAliveTimers m !! j = Some t → timers (shutdownOne m (j, h)) !! t = None)
    as Hkt1.
  { intros t. unfold_all. split_cases; intros ?; by map_cases. }
  assert (∀ t, reconnectTimers m !! j = Some t → timers (shutdownOne m (j, h)) !! t = None)
    as Hrt1.
  { intros t. unfold_all. split_cases; intros ?; by map_cases. }
  split; [| split; [| split; [| split; [| split]]]].
  - intros i. rewrite Hk, Hk1. repeat case_decide; try done; exfalso;
      match goal with
      | H : ¬ (_ ∈ _ :: _) |- _ => apply H, elem_of_cons; tauto
      | H : _ ∈ _ :: _ |- _ => apply elem_of_cons in H; tauto
      end.
  - intros i. rewrite Hr, Hr1. repeat case_decide; try done; exfalso;
      match goal with
      | H : ¬ (_ ∈ _ :: _) |- _ => apply H, elem_of_cons; tauto
      | H : _ ∈ _ :: _ |- _ => apply elem_of_cons in H; tauto
      end.
  - intros t Ht. by apply Hn, Hn1.
  - intros i t Hi Ht. destruct (decide (i = j)) as [->|Hne].
    + by apply Hn, Hkt1.
    + apply (Hkt i); [apply elem_of_cons in Hi as [? | ?]; done |].
      rewrite Hk1. by rewrite decide_False.
  - intros i t Hi Ht. destruct (decide (i = j)) as [->|Hne].
    + by apply Hn, Hrt1.
    + apply (Hrt i); [apply elem_of_cons in Hi as [? | ?]; done |].
      rewrite Hr1. by rewrite decide_False.
  - intros t tm Ht. by apply Hsub1, Hsub.
Qed.

(** What [shutdownAll] does do: every registered bot is unregistered and
    its keep-alive interval is removed from the event loop; no timer is
    armed. *)
Lemma shutdownAll_clears_registered m :
  bots (shutdownAll m) = ∅
  ∧ (∀ i h, bots m !! i = Some h →
       keepAliveTimers (shutdownAll m) !! i = None
       ∧ reconnectTimers (shutdownAll m) !! i = None
       ∧ ∀ t, keepAliveTimers m !! i = Some t → timers (shutdownAll m) !! t = None)
  ∧ (∀ t tm, timers (shutdownAll m) !! t = Some tm → timers m !! t = Some tm).
Proof.
  unfold shutdownAll. simpl.
  destruct (shutdownFold_spec (map_to_list (bots m))
              (emitLog "system" info MsgShuttingDown m))
    as (Hk & Hr & _ & Hkt & _ & Hsub).
  simpl in *. split; [done |]. split; [| done].
  intros i h Hh.
  assert (i ∈ (map_to_list (bots m)).*1) as Hi.
  { apply list_elem_of_fmap. exists (i, h). split; [done |].
    by apply elem_of_map_to_list. }
  rewrite Hk, Hr, !decide_True by done. repeat split. intros t. by apply Hkt.
Qed.

Lemma set_bots_empty m : bots m = ∅ → set_bots (fun _ => ∅) m = m.
Proof. destruct m. simpl. by intros ->. Qed.

(** [shutdownAll] is idempotent: a second call only repeats the log line. *)
Lemma shutdownAll_idempotent m :
  shutdownAll (shutdownAll m)
  = emitLog "system" info MsgShuttingDown (shutdownAll m).
Proof.
  unfold shutdownAll at 1.
  assert (bots (emitLog "system" info MsgShuttingDown (shutdownAll m)) = ∅) as Hb by done.
  rewrite Hb, map_to_list_empty. simpl. by apply set_bots_empty.
Qed.

(** C4: [shutdownAll] visits the registered bots only.  An endpoint that
    is disconnected and waiting for its reconnect keeps its timer; when
    the timer fires after the shutdown a new bot is created.  And a bot
    that [shutdownAll] did quit is not marked as stopped, so its [end]
    signal arms a reconnect after the shutdown. *)
Theorem shutdownAll_leaves_reconnect_timers :
  pendingReconnect waitingForRetry "e1" 0
  ∧ pendingReconnect (shutdownAll waitingForRetry) "e1" 0
  ∧ bots (shutdownAll waitingForRetry) = ∅
  ∧ bots (fire 0 clientOk (shutdownAll waitingForRetry)) !! IdStr "e1" = Some 1
  ∧ (∀ t, ¬ pendingReconnect (shutdownAll connected) "e1" t)
  ∧ pendingReconnect (onEnd 0 (Some "System shutdown") (shutdownAll connected)) "e1" 2
  ∧ reconnectTimers (onEnd 0 (Some "System shutdown") (shutdownAll connected)) !! IdStr "e1"
    = Some 2.
Proof.
  split; [| split; [| split; [| split; [| split; [| split]]]]].
  - eexists _, _, _. split; [vm_compute; reflexivity | reflexivity].
  - eexists _, _, _. split; [vm_compute; reflexivity | reflexivity].
  - vm_compute. reflexivity.
  - vm_compute. reflexivity.
  - intros t (c & d & r & Ht & _).
    assert (map_to_list (timers (shutdownAll connected))
            = [(0, {| task := TAuthRegister 0; delay := 5000; repeats := false |})])
      as Hl by (vm_compute; reflexivity).
    apply elem_of_map_to_list in Ht. rewrite Hl in Ht.
    apply list_elem_of_singleton in Ht. discriminate Ht.
  - eexists _, _, _. split; [vm_compute; reflexivity | reflexivity].
  - vm_compute. reflexivity.
Qed.

(** * Properties of the rest of the class *)

(** ** Keep-alive intervals *)

Ltac ka_brute H :=
  intros ? ? ? ?; unfold_all; split_cases; intros ?; map_cases;
  try match goal with
      | Hx : timers _ !! _ = Some _ |- _ =>
          let j := fresh "j" in
          destruct (H _ _ _ _ Hx) as (j & ? & ?); exists j; map_cases; eauto; fail
      end;
  try (eexists; split; [apply lookup_insert_eq | eassumption]);
  eauto.

Lemma keepAliveTracked_same m m' :
  bots m' = bots m → keepAliveTimers m' = keepAliveTimers m →
  (∀ t h d r,
     timers m' !! t = Some {| task := TKeepAlive h; delay := d; repeats := r |} →
     timers m !! t = Some {| task := TKeepAlive h; delay := d; repeats := r |}) →
  keepAliveTracked m → keepAliveTracked m'.
Proof.
  intros Hb Hk Ht H t h d r Hx. rewrite Hb, Hk. eapply H, Ht, Hx.
Qed.

Lemma keepAliveTracked_cleanupBot i s m :
  keepAliveTracked m → keepAliveTracked (cleanupBot i s m).
Proof. intros H. ka_brute H. Qed.

Lemma keepAliveTracked_startBot c r m :
  keepAliveTracked m → keepAliveTracked (startBot c r m).
Proof. intros H. ka_brute H. Qed.

Lemma keepAliveTracked_stopBot i q m :
  keepAliveTracked m → keepAliveTracked (snd (stopBot i q m)).
Proof. intros H. ka_brute H. Qed.

Lemma keepAliveTracked_disconnect b l msg upd m :
  keepAliveTracked m →
  keepAliveTracked
    (afterDisconnect b (updateStatus (botId b) upd (emitLog (botId b) l msg m))).
Proof. intros H. ka_brute H. Qed.

Lemma keepAliveTracked_startKeepAlive i m :
  keepAliveTracked m → keepAliveTracked (startKeepAlive i m).
Proof. intros H. ka_brute H. Qed.

Lemma keepAliveTracked_processMessageQueue i m :
  keepAliveTracked m → keepAliveTracked (processMessageQueue i m).
Proof.
  unfold processMessageQueue.
  destruct (default [] (messageQueue m !! i)) as [|x q]; [done |].
  generalize (x :: q). intros q'.
  destruct (armQueued_frame i q' 0 (emitLog i info (MsgProcessing (length q')) m))
    as (Hb & _ & _ & _ & Hk & _).
  apply keepAliveTracked_same; simpl; try done.
  intros t h d r. rewrite armQueued_timers. simpl.
  case_decide; [case_match |]; done.
Qed.

Lemma keepAliveTracked_onSpawn h now t m :
  keepAliveTracked m → keepAliveTracked (onSpawn h now t m).
Proof.
  intros H. unfold onSpawn. destruct (objects m !! h) as [b|] eqn:Hb; [| done].
  destruct (spawnListener b); [| done].
  apply keepAliveTracked_processMessageQueue, keepAliveTracked_startKeepAlive.
  ka_brute H.
Qed.

Lemma keepAliveTracked_shutdownFold l : ∀ m,
  keepAliveTracked m → keepAliveTracked (fold_left shutdownOne l m).
Proof.
  induction l as [|[i h] l IH]; intros m Hm; [done |].
  apply (IH (cleanupBot i false (act (AQuit h "System shutdown") m))).
  apply keepAliveTracked_cleanupBot. revert Hm. by apply keepAliveTracked_same.
Qed.

Lemma bots_shutdownFold l : ∀ m i,
  bots (fold_left shutdownOne l m) !! i
  = if decide (i ∈ l.*1) then None else bots m !! i.
Proof.
  induction l as [|[j h] l IH]; intros m i.
  { case_decide as Hx; [by apply elem_of_nil in Hx | done]. }
  change (fold_left shutdownOne ((j, h) :: l) m)
    with (fold_left shutdownOne l (cleanupBot j false (act (AQuit h "System shutdown") m))).
  rewrite IH.
  assert (bots (cleanupBot j false (act (AQuit h "System shutdown") m)) !! i
          = if decide (i = j) then None else bots m !! i) as ->.
  { unfold_all. split_cases; map_cases; try done; by case_decide; simplify_eq. }
  rewrite fmap_cons. simpl.
  repeat case_decide; try done; exfalso;
    match goal with
    | H : ¬ (_ ∈ _ :: _) |- _ => apply H, elem_of_cons; tauto
    | H : _ ∈ _ :: _ |- _ => apply elem_of_cons in H; tauto
    end.
Qed.

Lemma bots_shutdownFold_all m0 m i :
  bots m = bots m0 →
  bots (fold_left shutdownOne (map_to_list (bots m0)) m) !! i = None.
Proof.
  intros Hb. rewrite bots_shutdownFold. case_decide as Hi; [done |].
  rewrite Hb. destruct (bots m0 !! i) as [h|] eqn:Hh; [| done].
  exfalso. apply Hi, list_elem_of_fmap. exists (i, h). split; [done |].
  by apply elem_of_map_to_list.
Qed.

Lemma keepAliveTracked_step m e :
  keepAliveTracked m → keepAliveTracked (step m e).
Proof.
  intros H. destruct e; simpl.
  - by apply keepAliveTracked_startBot.
  - by apply keepAliveTracked_stopBot.
  - unfold shutdownAll.
    assert (keepAliveTracked
              (fold_left shutdownOne
                 (map_to_list (bots (emitLog "system" info MsgShuttingDown m)))
                 (emitLog "system" info MsgShuttingDown m))) as Hf.
    { apply keepAliveTracked_shutdownFold. revert H. by apply keepAliveTracked_same. }
    intros t h d r Hx. destruct (Hf t h d r Hx) as (j & Hj & Hb).
    by rewrite bots_shutdownFold_all in Hb.
  - revert H. apply keepAliveTracked_same; unfold_all; by split_cases.
  - by apply keepAliveTracked_onSpawn.
  - unfold onKicked. destruct (objects m !! h); [| done].
    by apply keepAliveTracked_disconnect.
  - unfold onError. destruct (objects m !! h); [| done].
    by apply keepAliveTracked_disconnect.
  - unfold onEnd. destruct (objects m !! h); [| done].
    by apply keepAliveTracked_disconnect.
  - unfold onMove. destruct (objects m !! h); [| done].
    destruct (botStatus m !! botId b); [| done].
    revert H. by apply keepAliveTracked_same.
  - unfold fire. destruct (timers m !! t) as [[tk d r]|] eqn:Htm; [| done]. simpl.
    assert (keepAliveTracked (if r then m else clearTimer t m)) as H'.
    { destruct r; [done |]. revert H. apply keepAliveTracked_same; try done.
      intros t' h' d' r'. unfold clearTimer. simpl. rewrite lookup_delete.
      by case_decide. }
    revert H'. generalize (if r then m else clearTimer t m). intros m' H'.
    destruct tk as [c| | | |]; simpl.
    + apply keepAliveTracked_startBot. revert H'. by apply keepAliveTracked_same.
    + revert H'. by apply keepAliveTracked_same.
    + revert H'. apply keepAliveTracked_same; unfold_all; by split_cases.
    + revert H'. apply keepAliveTracked_same; unfold_all; split_cases; try done.
      all: intros ? ? ? ?; map_cases; done.
    + revert H'. apply keepAliveTracked_same; unfold_all; by split_cases.
Qed.

Lemma keepAliveTracked_run es : ∀ m,
  keepAliveTracked m → keepAliveTracked (run m es).
Proof.
  induction es as [|e es IH]; intros m Hm; simpl; [done |].
  by apply IH, keepAliveTracked_step.
Qed.

Lemma keepAliveTracked_reachable m : reachable m → keepAliveTracked m.
Proof.
  intros (file & es & ->). apply keepAliveTracked_run.
  intros t h d r. unfold loadBots.
  destruct (loadBots_frame file emptyManager) as (_ & _ & _ & -> & _).
  simpl. by rewrite lookup_empty.
Qed.

(** X1: a keep-alive interval runs only for a registered bot.  In every
    reachable state an armed keep-alive interval moves a bot that is
    registered, under the id of its own configuration, and is the timer on
    record for that id; so a bot has at most one keep-alive interval, and
    a bot that is no longer registered has none. *)
Theorem keepAlive_only_for_registered (m : BotManager) (t h : nat) (d : Q) (r : bool)
    (Hm : reachable m)
    (Harmed : timers m !! t
              = Some {| task := TKeepAlive h; delay := d; repeats := r |}) :
  (∃ b, objects m !! h = Some b
        ∧ bots m !! botId b = Some h
        ∧ keepAliveTimers m !! botId b = Some t)
  ∧ ∀ t' d' r',
      timers m !! t' = Some {| task := TKeepAlive h; delay := d'; repeats := r' |} →
      t' = t.
Proof.
  pose proof (keepAliveTracked_reachable m Hm) as Hk.
  apply wf_reachable in Hm. destruct Hm as [_ Ho _ _ _].
  assert (∀ t1 d1 r1,
            timers m !! t1 = Some {| task := TKeepAlive h; delay := d1; repeats := r1 |} →
            ∃ b, objects m !! h = Some b ∧ bots m !! botId b = Some h
                 ∧ keepAliveTimers m !! botId b = Some t1) as Hone.
  { intros t1 d1 r1 H1. destruct (Hk _ _ _ _ H1) as (i & Hi & Hb).
    destruct (Ho _ _ Hb) as (b & Hob & <-). eauto. }
  split; [by eapply Hone |].
  intros t' d' r' H'.
  destruct (Hone _ _ _ Harmed) as (b & Hob & _ & Ht).
  destruct (Hone _ _ _ H') as (b' & Hob' & _ & Ht'). congruence.
Qed.

Lemma keepAlive_only_for_registered_witness :
  (∃ b, objects connected !! 0 = Some b
        ∧ bots connected !! botId b = Some 0
        ∧ keepAliveTimers connected !! botId b = Some 1)
  ∧ ∀ t' d' r',
      timers connected !! t'
      = Some {| task := TKeepAlive 0; delay := d'; repeats := r' |} →
      t' = 1.
Proof.
  apply (keepAlive_only_for_registered connected 1 0 45000 true).
  - exists [e1], [EStart e1 (CreateOk true); ESpawn 0 "2025-01-01T00:00:00Z" overworld].
    reflexivity.
  - vm_compute. reflexivity.
Defined.

Ltac kr_brute H :=
  intros ? ?; unfold_all; split_cases; intros ?; map_cases; eauto;
  try (match goal with
       | Hx : keepAliveTimers _ !! _ = Some _ |- _ =>
           destruct (H _ _ Hx) as [? ?]; map_cases; eauto; congruence
       end).

Lemma keepAliveRecorded_same m m' :
  bots m' = bots m → keepAliveTimers m' = keepAliveTimers m →
  keepAliveRecorded m → keepAliveRecorded m'.
Proof. intros Hb Hk H i t. rewrite Hb, Hk. apply H. Qed.

Lemma keepAliveRecorded_startBot c r m :
  keepAliveRecorded m → keepAliveRecorded (startBot c r m).
Proof. intros H. kr_brute H. Qed.

Lemma keepAliveRecorded_stopBot i q m :
  keepAliveRecorded m → keepAliveRecorded (snd (stopBot i q m)).
Proof. intros H. kr_brute H. Qed.

Lemma keepAliveRecorded_disconnect b l msg upd m :
  keepAliveRecorded m →
  keepAliveRecorded
    (afterDisconnect b (updateStatus (botId b) upd (emitLog (botId b) l msg m))).
Proof. intros H. kr_brute H. Qed.

Lemma keepAliveRecorded_startKeepAlive i m :
  keepAliveRecorded m → keepAliveRecorded (startKeepAlive i m).
Proof. intros H. kr_brute H. Qed.

Lemma keepAliveRecorded_processMessageQueue i m :
  keepAliveRecorded m → keepAliveRecorded (processMessageQueue i m).
Proof.
  unfold processMessageQueue.
  destruct (default [] (messageQueue m !! i)) as [|x q]; [done |].
  generalize (x :: q). intros q'.
  destruct (armQueued_frame i q' 0 (emitLog i info (MsgProcessing (length q')) m))
    as (Hb & _ & _ & _ & Hk & _).
  by apply keepAliveRecorded_same.
Qed.

Lemma keepAliveRecorded_onSpawn h now t m :
  keepAliveRecorded m → keepAliveRecorded (onSpawn h now t m).
Proof.
  intros H. unfold onSpawn. destruct (objects m !! h) as [b|] eqn:Hb; [| done].
  destruct (spawnListener b); [| done].
  apply keepAliveRecorded_processMessageQueue, keepAliveRecorded_startKeepAlive.
  revert H. by apply keepAliveRecorded_same.
Qed.

Lemma keepAliveRecorded_step m e :
  keepAliveRecorded m → keepAliveRecorded (step m e).
Proof.
  intros H. destruct e; simpl.
  - by apply keepAliveRecorded_startBot.
  - by apply keepAliveRecorded_stopBot.
  - intros i t. unfold shutdownAll. simpl.
    destruct (shutdownFold_spec (map_to_list (bots m))
                (emitLog "system" info MsgShuttingDown m)) as (Hk & _).
    simpl in Hk. rewrite Hk. case_decide as Hi; [done |].
    intros Ht. destruct (H _ _ Ht) as [h Hh]. exfalso. apply Hi.
    apply list_elem_of_fmap. exists (i, h). split; [done |].
    by apply elem_of_map_to_list.
  - revert H. apply keepAliveRecorded_same; unfold_all; by split_cases.
  - by apply keepAliveRecorded_onSpawn.
  - unfold onKicked. destruct (objects m !! h); [| done].
    by apply keepAliveRecorded_disconnect.
  - unfold onError. destruct (objects m !! h); [| done].
    by apply keepAliveRecorded_disconnect.
  - unfold onEnd. destruct (objects m !! h); [| done].
    by apply keepAliveRecorded_disconnect.
  - unfold onMove. destruct (objects m !! h); [| done].
    destruct (botStatus m !! botId b); [| done].
    revert H. by apply keepAliveRecorded_same.
  - unfold fire. destruct (timers m !! t) as [[tk d r]|] eqn:Htm; [| done]. simpl.
    assert (keepAliveRecorded (if r then m else clearTimer t m)) as H'
      by (destruct r; [done | revert H; by apply keepAliveRecorded_same]).
    revert H'. generalize (if r then m else clearTimer t m). intros m' H'.
    destruct tk as [c| | | |]; simpl.
    + apply keepAliveRecorded_startBot. revert H'. by apply keepAliveRecorded_same.
    + revert H'. by apply keepAliveRecorded_same.
    + revert H'. apply keepAliveRecorded_same; unfold_all; by split_cases.
    + revert H'. apply keepAliveRecorded_same; unfold_all; by split_cases.
    + revert H'. apply keepAliveRecorded_same; unfold_all; by split_cases.
Qed.

Lemma keepAliveRecorded_reachable m : reachable m → keepAliveRecorded m.
Proof.
  intros (file & es & ->).
  assert (keepAliveRecorded (loadBots file)) as H0.
  { intros i t. rewrite loadBots_no_keepAlive. by rewrite lookup_empty. }
  revert H0. generalize (loadBots file).
  induction es as [|e es IH]; intros m Hm; simpl; [done |].
  by apply IH, keepAliveRecorded_step.
Qed.

(** ** From start to online *)

Lemma processMessageQueue_frame i m :
  bots (processMessageQueue i m) = bots m
  ∧ botStatus (processMessageQueue i m) = botStatus m
  ∧ objects (processMessageQueue i m) = objects m
  ∧ reconnectTimers (processMessageQueue i m) = reconnectTimers m
  ∧ keepAliveTimers (processMessageQueue i m) = keepAliveTimers m
  ∧ reconnectAttempts (processMessageQueue i m) = reconnectAttempts m
  ∧ nextBot (processMessageQueue i m) = nextBot m
  ∧ actions (processMessageQueue i m) = actions m
  ∧ (∀ j, j ≠ i → messageQueue (processMessageQueue i m) !! j = messageQueue m !! j)
  ∧ ∀ t, t < nextTimer m → timers (processMessageQueue i m) !! t = timers m !! t.
Proof.
  unfold processMessageQueue.
  destruct (default [] (messageQueue m !! i)) as [|x q]; [done |].
  generalize (x :: q). intros q'.
  destruct (armQueued_frame i q' 0 (emitLog i info (MsgProcessing (length q')) m))
    as (Hb & Hs & Ho & Hr & Hk & Hq & Ha & Hn & _ & Hac & _).
  simpl. repeat split; try done.
  - intros j Hj. rewrite lookup_insert_ne by done. by rewrite Hq.
  - intros t Ht. rewrite armQueued_timers. simpl. by rewrite decide_False by lia.
Qed.

Lemma startKeepAlive_first i h m :
  bots m !! i = Some h → keepAliveTimers m !! i = None →
  startKeepAlive i m
  = set_keepAliveTimers (insert i (nextTimer m))
      (snd (arm (TKeepAlive h) 45000 true m)).
Proof. intros Hb Hk. unfold startKeepAlive. by rewrite Hb, Hk. Qed.

Lemma onSpawn_first m h b now t :
  objects m !! h = Some b → spawnListener b = true →
  bots m !! botId b = Some h → keepAliveTimers m !! botId b = None →
  let i := botId b in
  let m' := onSpawn h now t m in
  bots m' = bots m
  ∧ stateOf m' i = Some (VStr "online")
  ∧ getBotStatus m' i !! "connectedSince" = Some (VStr now)
  ∧ reconnectAttempts m' = reconnectAttempts m
  ∧ reconnectTimers m' = reconnectTimers m
  ∧ timers m' !! nextTimer m
    = Some {| task := TAuthRegister h; delay := 5000; repeats := false |}
  ∧ keepAliveTimers m' !! i = Some (S (nextTimer m))
  ∧ timers m' !! S (nextTimer m)
    = Some {| task := TKeepAlive h; delay := 45000; repeats := true |}.
Proof.
  intros Hb Hl Hreg Hka. cbv zeta. unfold onSpawn. rewrite Hb, Hl.
  set (b' := {| botConfig := botConfig b; manuallyStopped := manuallyStopped b;
                chat := chat b; spawnListener := false |}).
  set (m1 := snd (arm (TAuthRegister h) 5000 false
                (updateStatus (botId b)
                   {[ "status" := VStr "online"; "connectedSince" := VStr now;
                      "world" := tl_dimension t; "dimension" := tl_dimension t;
                      "position" := tl_position t ]}
                   (emitLog (botId b) info MsgSpawned (set_objects (insert h b') m))))).
  rewrite (startKeepAlive_first (botId b) h m1) by done.
  set (m2 := set_keepAliveTimers _ _).
  destruct (processMessageQueue_frame (botId b) m2)
    as (-> & Hs & _ & -> & -> & -> & _ & _ & _ & Ht).
  assert (nextTimer m2 = S (S (nextTimer m))) as Hn2 by done.
  unfold stateOf, getBotStatus. rewrite Hs, !Ht by lia.
  subst m2 m1. simpl. rewrite !lookup_insert_eq. simpl.
  rewrite lookup_insert_ne by lia. rewrite lookup_insert_eq.
  repeat split; by spread_simpl.
Qed.

Lemma startBot_first c hasChat m :
  bots m !! cfg_id c = None →
  let i := cfg_id c in
  let m' := startBot c (CreateOk hasChat) m in
  bots m' !! i = Some (nextBot m)
  ∧ objects m' !! nextBot m
    = Some {| botConfig := c; manuallyStopped := false; chat := hasChat;
              spawnListener := true |}
  ∧ stateOf m' i = Some (VStr "connecting")
  ∧ reconnectAttempts m' !! i = Some 0
  ∧ reconnectTimers m' !! i = None
  ∧ keepAliveTimers m' = keepAliveTimers m
  ∧ messageQueue m' = messageQueue m
  ∧ actions m' = actions m
  ∧ nextTimer m' = nextTimer m.
Proof.
  intros Hb. cbv zeta. rewrite !stateOf_unfold. unfold_all.
  split_cases; try congruence; rewrite ?lookup_insert_eq, ?lookup_delete_eq; simpl;
    repeat split; try done; by spread_simpl.
Qed.

(** X2: [start] followed by the client's [spawn].  For an endpoint with no
    registered bot, [startBot] registers a new bot and sets the state to
    connecting; when that bot spawns the state is online with
    [connectedSince] the time of the spawn, the attempt counter is 0, no
    reconnect timer is on record, the AuthMe timeout is armed 5 s out and
    one keep-alive interval of 45 s is armed and on record. *)
Theorem start_then_spawn_online (m : BotManager) (c : BotConfig) (hasChat : bool)
    (now : string) (t : Telemetry)
    (Hm : reachable m) (Hnone : bots m !! cfg_id c = None) :
  let i := cfg_id c in
  let h := nextBot m in
  let m1 := startBot c (CreateOk hasChat) m in
  let m2 := onSpawn h now t m1 in
  (bots m1 !! i = Some h ∧ stateOf m1 i = Some (VStr "connecting"))
  ∧ bots m2 !! i = Some h
  ∧ stateOf m2 i = Some (VStr "online")
  ∧ getBotStatus m2 i !! "connectedSince" = Some (VStr now)
  ∧ reconnectAttempts m2 !! i = Some 0
  ∧ reconnectTimers m2 !! i = None
  ∧ timers m2 !! nextTimer m
    = Some {| task := TAuthRegister h; delay := 5000; repeats := false |}
  ∧ keepAliveTimers m2 !! i = Some (S (nextTimer m))
  ∧ timers m2 !! S (nextTimer m)
    = Some {| task := TKeepAlive h; delay := 45000; repeats := true |}.
Proof.
  pose proof (keepAliveRecorded_reachable m Hm) as Hk.
  assert (keepAliveTimers m !! cfg_id c = None) as Hka.
  { destruct (keepAliveTimers m !! cfg_id c) as [tk|] eqn:E; [| done].
    destruct (Hk _ _ E) as [h Hh]. congruence. }
  cbv zeta.
  destruct (startBot_first c hasChat m Hnone)
    as (Hb1 & Ho1 & Hs1 & Ha1 & Hr1 & Hk1 & _ & _ & Hn1).
  split; [done |].
  destruct (onSpawn_first (startBot c (CreateOk hasChat) m) (nextBot m) _ now t Ho1)
    as (Hb2 & Hs2 & Hc2 & Ha2 & Hr2 & Ht2 & Hk2 & Htk2); try done.
  { by rewrite Hk1. }
  rewrite Hn1 in Ht2, Hk2, Htk2.
  rewrite Hb2, Ha2, Hr2. repeat split; done.
Qed.

Lemma start_then_spawn_online_witness :
  let m := loadBots [e1] in
  let i := cfg_id e1 in
  let h := nextBot m in
  let m1 := startBot e1 (CreateOk true) m in
  let m2 := onSpawn h "2025-01-01T00:00:00Z" overworld m1 in
  (bots m1 !! i = Some h ∧ stateOf m1 i = Some (VStr "connecting"))
  ∧ bots m2 !! i = Some h
  ∧ stateOf m2 i = Some (VStr "online")
  ∧ getBotStatus m2 i !! "connectedSince" = Some (VStr "2025-01-01T00:00:00Z")
  ∧ reconnectAttempts m2 !! i = Some 0
  ∧ reconnectTimers m2 !! i = None
  ∧ timers m2 !! nextTimer m
    = Some {| task := TAuthRegister h; delay := 5000; repeats := false |}
  ∧ keepAliveTimers m2 !! i = Some (S (nextTimer m))
  ∧ timers m2 !! S (nextTimer m)
    = Some {| task := TKeepAlive h; delay := 45000; repeats := true |}.
Proof.
  apply (start_then_spawn_online (loadBots [e1]) e1 true
           "2025-01-01T00:00:00Z" overworld).
  - exists [e1], []. reflexivity.
  - reflexivity.
Defined.

(** ** shutdownAll, what it does *)

Lemma actions_shutdownFold l : ∀ m,
  actions (fold_left shutdownOne l m)
  = actions m ++ ((fun e : Id * nat => AQuit e.2 "System shutdown") <$> l).
Proof.
  induction l as [|[i h] l IH]; intros m.
  { simpl. by rewrite app_nil_r. }
  change (fold_left shutdownOne ((i, h) :: l) m)
    with (fold_left shutdownOne l (cleanupBot i false (act (AQuit h "System shutdown") m))).
  rewrite IH.
  assert (actions (cleanupBot i false (act (AQuit h "System shutdown") m))
          = actions m ++ [AQuit h "System shutdown"]) as ->
    by (unfold_all; by split_cases).
  rewrite fmap_cons. simpl. by rewrite <- app_assoc.
Qed.

Lemma frame_shutdownFold l : ∀ m,
  messageQueue (fold_left shutdownOne l m) = messageQueue m
  ∧ reconnectAttempts (fold_left shutdownOne l m) = reconnectAttempts m
  ∧ objects (fold_left shutdownOne l m) = objects m
  ∧ nextTimer (fold_left shutdownOne l m) = nextTimer m.
Proof.
  induction l as [|[i h] l IH]; intros m; [done |].
  change (fold_left shutdownOne ((i, h) :: l) m)
    with (fold_left shutdownOne l (cleanupBot i false (act (AQuit h "System shutdown") m))).
  destruct (IH (cleanupBot i false (act (AQuit h "System shutdown") m)))
    as (-> & -> & -> & ->).
  unfold_all. by split_cases.
Qed.

(** X3: what [shutdownAll] does for the bots that are registered.  After it
    returns nothing is registered, every bot that was registered has been
    told to quit with 'System shutdown', no keep-alive interval is armed
    any more, and no timer was armed by it.  It leaves the status records,
    the queues and the attempt counters as they were: a connected
    endpoint still reads online until its bot's [end] signal arrives. *)
Theorem shutdownAll_stops_registered (m : BotManager) (Hm : reachable m) :
  bots (shutdownAll m) = ∅
  ∧ (∀ i h, bots m !! i = Some h →
       AQuit h "System shutdown" ∈ actions (shutdownAll m))
  ∧ (∀ t h d r,
       timers (shutdownAll m) !! t
       ≠ Some {| task := TKeepAlive h; delay := d; repeats := r |})
  ∧ keepAliveTimers (shutdownAll m) = ∅
  ∧ (∀ t tm, timers (shutdownAll m) !! t = Some tm → timers m !! t = Some tm)
  ∧ botStatus (shutdownAll m) = botStatus m
  ∧ messageQueue (shutdownAll m) = messageQueue m
  ∧ reconnectAttempts (shutdownAll m) = reconnectAttempts m.
Proof.
  pose proof (reachable_step m EShutdownAll Hm) as Hm'. simpl in Hm'.
  pose proof (keepAliveTracked_reachable _ Hm') as Hk.
  pose proof (keepAliveRecorded_reachable _ Hm') as Hr.
  destruct (shutdownAll_clears_registered m) as (Hb & _ & Hsub).
  split; [done |]. split.
  { intros i h Hh. unfold shutdownAll. simpl. rewrite actions_shutdownFold. simpl.
    apply elem_of_app. right. apply list_elem_of_fmap. exists (i, h).
    split; [done |]. by apply elem_of_map_to_list. }
  split.
  { intros t h d r Ht. destruct (Hk _ _ _ _ Ht) as (i & _ & Hi).
    rewrite Hb in Hi. by rewrite lookup_empty in Hi. }
  split.
  { apply map_eq. intros i. rewrite lookup_empty.
    destruct (keepAliveTimers (shutdownAll m) !! i) as [t|] eqn:E; [| done].
    destruct (Hr _ _ E) as [h Hh]. rewrite Hb in Hh. by rewrite lookup_empty in Hh. }
  split; [done |].
  unfold shutdownAll. simpl. rewrite botStatus_shutdownFold.
  destruct (frame_shutdownFold (map_to_list (bots m))
              (emitLog "system" info MsgShuttingDown m)) as (-> & -> & _).
  done.
Qed.

Lemma shutdownAll_stops_registered_witness :
  bots (shutdownAll connected) = ∅
  ∧ (∀ i h, bots connected !! i = Some h →
       AQuit h "System shutdown" ∈ actions (shutdownAll connected))
  ∧ (∀ t h d r,
       timers (shutdownAll connected) !! t
       ≠ Some {| task := TKeepAlive h; delay := d; repeats := r |})
  ∧ keepAliveTimers (shutdownAll connected) = ∅
  ∧ (∀ t tm, timers (shutdownAll connected) !! t = Some tm →
             timers connected !! t = Some tm)
  ∧ botStatus (shutdownAll connected) = botStatus connected
  ∧ messageQueue (shutdownAll connected) = messageQueue connected
  ∧ reconnectAttempts (shutdownAll connected) = reconnectAttempts connected.
Proof.
  apply (shutdownAll_stops_registered connected).
  exists [e1], [EStart e1 (CreateOk true);
                ESpawn 0 "2025-01-01T00:00:00Z" overworld]. reflexivity.
Defined.

(** ** Reconnect timers *)

(** X4: at most one reconnect is pending per endpoint, and never beside a
    registered bot.  In every reachable state an armed reconnect timer is
    the one on record for the endpoint of its configuration, that endpoint
    has no registered bot, and no other reconnect timer is armed for
    it. *)
Theorem pending_reconnect_unique (m : BotManager) (i : Id) (t : nat)
    (Hm : reachable m) (Hp : pendingReconnect m i t) :
  reconnectTimers m !! i = Some t
  ∧ bots m !! i = None
  ∧ ∀ t', pendingReconnect m i t' → t' = t.
Proof.
  apply wf_reachable in Hm. destruct Hm as [_ _ He Ht _].
  assert (∀ t1, pendingReconnect m i t1 → reconnectTimers m !! i = Some t1) as Hrec.
  { intros t1 (c & d & r & H1 & <-). by eapply Ht. }
  pose proof (Hrec _ Hp) as Hr. split; [done |]. split.
  - destruct (bots m !! i) as [h|] eqn:Hb; [| done].
    rewrite (He i) in Hr; [done | by rewrite Hb].
  - intros t' Hp'. apply Hrec in Hp'. congruence.
Qed.

Lemma pending_reconnect_unique_witness :
  reconnectTimers waitingForRetry !! IdStr "e1" = Some 0
  ∧ bots waitingForRetry !! IdStr "e1" = None
  ∧ ∀ t', pendingReconnect waitingForRetry "e1" t' → t' = 0.
Proof.
  apply (pending_reconnect_unique waitingForRetry (IdStr "e1") 0).
  - exists [e1], [EStart e1 (CreateOk true); EError 0 (VStr "connect ECONNREFUSED")].
    reflexivity.
  - eexists _, _, _. split; [vm_compute; reflexivity | reflexivity].
Defined.

(** ** Auto-reconnect switched off *)

Lemma afterDisconnect_disabled b m :
  cfg_enabled (botConfig b) = Some false →
  afterDisconnect b m = cleanupBot (botId b) true m.
Proof. intros H. unfold afterDisconnect, enabledNotFalse. by rewrite H. Qed.

Lemma cleanupBot_arms_nothing i s m :
  nextTimer (cleanupBot i s m) = nextTimer m
  ∧ log (cleanupBot i s m) = log m
  ∧ reconnectAttempts (cleanupBot i s m) = reconnectAttempts m
  ∧ (s = true → reconnectTimers (cleanupBot i s m) = reconnectTimers m)
  ∧ ∀ t tm, timers (cleanupBot i s m) !! t = Some tm → timers m !! t = Some tm.
Proof.
  unfold_all. split_cases; repeat split; try done; intros ? ? ?; by map_cases.
Qed.

Lemma startBot_throws_disabled c msg m :
  cfg_enabled c = Some false →
  let m' := startBot c (CreateThrows msg) m in
  scheduledDelays m' = scheduledDelays m
  ∧ nextTimer m' = nextTimer m
  ∧ reconnectTimers m' !! cfg_id c = None
  ∧ (bots m !! cfg_id c = None → stateOf m' (cfg_id c) = Some (VStr "error")).
Proof.
  intros Hoff. cbv zeta. rewrite stateOf_unfold.
  unfold scheduledDelays. unfold_all. unfold enabledNotFalse.
  rewrite Hoff. split_cases; rewrite ?omap_app; simpl; rewrite ?app_nil_r;
    rewrite ?lookup_delete_eq, ?lookup_insert_eq; simpl;
    repeat split; try done; try congruence; try (intros _; by spread_simpl).
Qed.

(** X5: with [enabled: false] no signal schedules a reconnect.  For a bot
    whose configuration has [enabled] set to [false], the [kicked],
    [error] and [end] handlers arm no timer, announce no delay, and leave
    the reconnect record and the attempt counter as they were, whatever
    the counter was; and a [createBot] that throws for such a
    configuration arms nothing either and leaves the endpoint in state
    error with no reconnect on record. *)
Theorem disabled_never_reconnects (m : BotManager) (h : nat) (b : Bot)
    (Hb : objects m !! h = Some b)
    (Hoff : cfg_enabled (botConfig b) = Some false) :
  (∀ reason msg reason' m',
     m' ∈ [onKicked h reason m; onError h msg m; onEnd h reason' m] →
     scheduledDelays m' = scheduledDelays m
     ∧ reconnectTimers m' = reconnectTimers m
     ∧ reconnectAttempts m' = reconnectAttempts m
     ∧ nextTimer m' = nextTimer m
     ∧ ∀ t tm, timers m' !! t = Some tm → timers m !! t = Some tm)
  ∧ ∀ msg,
      let m' := startBot (botConfig b) (CreateThrows msg) m in
      scheduledDelays m' = scheduledDelays m
      ∧ nextTimer m' = nextTimer m
      ∧ reconnectTimers m' !! botId b = None
      ∧ (bots m !! botId b = None → stateOf m' (botId b) = Some (VStr "error")).
Proof.
  assert (∀ l msg upd,
            let m' := afterDisconnect b
                        (updateStatus (botId b) upd (emitLog (botId b) l msg m)) in
            (∀ d a, msg ≠ MsgScheduled d a) →
            scheduledDelays m' = scheduledDelays m
            ∧ reconnectTimers m' = reconnectTimers m
            ∧ reconnectAttempts m' = reconnectAttempts m
            ∧ nextTimer m' = nextTimer m
            ∧ ∀ t tm, timers m' !! t = Some tm → timers m !! t = Some tm) as Hgen.
  { intros l msg upd m' Hmsg. subst m'. rewrite afterDisconnect_disabled by done.
    destruct (cleanupBot_arms_nothing (botId b) true
                (updateStatus (botId b) upd (emitLog (botId b) l msg m)))
      as (Hn & Hl & Ha & Hr & Ht).
    rewrite Ha, Hn, (Hr eq_refl). unfold scheduledDelays at 1. rewrite Hl. simpl.
    rewrite omap_app. simpl. split; [| done].
    destruct msg; try (by rewrite app_nil_r). exfalso. by eapply Hmsg. }
  split.
  - intros reason msg reason' m' Hm'. unfold onKicked, onError, onEnd in Hm'.
    rewrite Hb in Hm'.
    repeat (apply elem_of_cons in Hm' as [-> | Hm']); try (by apply Hgen).
    by apply elem_of_nil in Hm'.
  - intros msg. by apply startBot_throws_disabled.
Qed.

Lemma disabled_never_reconnects_witness :
  let m := run (loadBots [manualOnly]) [EStart manualOnly (CreateOk true)] in
  let b := {| botConfig := manualOnly; manuallyStopped := false; chat := true;
              spawnListener := true |} in
  (∀ reason msg reason' m',
     m' ∈ [onKicked 0 reason m; onError 0 msg m; onEnd 0 reason' m] →
     scheduledDelays m' = scheduledDelays m
     ∧ reconnectTimers m' = reconnectTimers m
     ∧ reconnectAttempts m' = reconnectAttempts m
     ∧ nextTimer m' = nextTimer m
     ∧ ∀ t tm, timers m' !! t = Some tm → timers m !! t = Some tm)
  ∧ ∀ msg,
      let m' := startBot (botConfig b) (CreateThrows msg) m in
      scheduledDelays m' = scheduledDelays m
      ∧ nextTimer m' = nextTimer m
      ∧ reconnectTimers m' !! botId b = None
      ∧ (bots m !! botId b = None → stateOf m' (botId b) = Some (VStr "error")).
Proof.
  apply (disabled_never_reconnects
           (run (loadBots [manualOnly]) [EStart manualOnly (CreateOk true)]) 0
           {| botConfig := manualOnly; manuallyStopped := false; chat := true;
              spawnListener := true |}); reflexivity.
Defined.

(** ** A manual stop resets the backoff *)

Lemma stopBot_resets i q m :
  (q = None → bots (snd (stopBot i q m)) !! i = None)
  ∧ reconnectAttempts (snd (stopBot i q m)) !! i = Some 0
  ∧ scheduledDelays (snd (stopBot i q m)) = scheduledDelays m.
Proof.
  split; [intros -> |]; unfold scheduledDelays; unfold_all;
    split_cases; rewrite ?omap_app; simpl; rewrite ?app_nil_r;
    rewrite ?lookup_delete_eq, ?lookup_insert_eq; done.
Qed.

(** X6: [stop] resets the attempt counter.  Whatever the counter was,
    after [stop(id)] it is 0, whether [bot.quit] returned or threw; so
    after a stop that returned, if the next [start] fails in [createBot],
    the reconnect is scheduled with the first delay, 7.5 s, and the
    counter is 1. *)
Theorem stop_resets_backoff (m : BotManager) (c : BotConfig) (msg : Value)
    (Hen : enabledNotFalse c = true) :
  let stopped := snd (stopBot (cfg_id c) None m) in
  let m' := startBot c (CreateThrows msg) stopped in
  (∀ q, reconnectAttempts (snd (stopBot (cfg_id c) q m)) !! cfg_id c = Some 0)
  ∧ scheduledDelays m' = scheduledDelays m ++ [reconnectDelay 1]
  ∧ (reconnectDelay 1 == 7500)%Q
  ∧ armedRetry c 1 m'.
Proof.
  cbv zeta. split; [intros q; apply stopBot_resets |].
  destruct (stopBot_resets (cfg_id c) None m) as (Hb & Ha & Hd).
  destruct (startBot_throws_arms c msg _ Hen (Hb eq_refl)) as [H1 H2].
  rewrite Ha in H1, H2. simpl in H1, H2. rewrite Hd in H2.
  split; [done |]. split; [reflexivity | done].
Qed.

Lemma stop_resets_backoff_witness :
  let m := run (loadBots [e1]) threeCreateFailures in
  let stopped := snd (stopBot (cfg_id e1) None m) in
  let m' := startBot e1 (CreateThrows (VStr "connect ECONNREFUSED")) stopped in
  (∀ q, reconnectAttempts (snd (stopBot (cfg_id e1) q m)) !! cfg_id e1 = Some 0)
  ∧ scheduledDelays m' = scheduledDelays m ++ [reconnectDelay 1]
  ∧ (reconnectDelay 1 == 7500)%Q
  ∧ armedRetry e1 1 m'.
Proof.
  apply (stop_resets_backoff (run (loadBots [e1]) threeCreateFailures) e1
           (VStr "connect ECONNREFUSED")). reflexivity.
Defined.

(** ** loadBots *)

Lemma loadBots_inert file :
  bots (loadBots file) = ∅ ∧ objects (loadBots file) = ∅
  ∧ timers (loadBots file) = ∅ ∧ reconnectTimers (loadBots file) = ∅
  ∧ keepAliveTimers (loadBots file) = ∅
  ∧ log (loadBots file) = [] ∧ actions (loadBots file) = [].
Proof.
  unfold loadBots.
  assert (bots emptyManager = ∅ ∧ objects emptyManager = ∅
          ∧ timers emptyManager = ∅ ∧ reconnectTimers emptyManager = ∅
          ∧ keepAliveTimers emptyManager = ∅
          ∧ log emptyManager = [] ∧ actions emptyManager = []) as H0 by done.
  revert H0. generalize emptyManager.
  induction file as [|c file IH]; intros m Hm; [done |]. by apply IH.
Qed.

Lemma loadBots_snoc file c : loadBots (file ++ [c]) = loadBot (loadBots file) c.
Proof. unfold loadBots. by rewrite fold_left_app. Qed.

(** X7: the state [loadBots] builds from [bots.json].  Nothing is
    registered, armed, logged or sent.  Every listed id reads offline with
    [connectedSince] and [lastError] null and empty stats, has an empty
    queue and an attempt counter of 0, and its configuration on record is
    the last entry of the file with that id; an id that is not listed has
    no status record, no queue, no counter and no configuration. *)
Theorem loadBots_initial_state (file : list BotConfig) (i : Id) :
  let m := loadBots file in
  (bots m = ∅ ∧ objects m = ∅ ∧ timers m = ∅ ∧ reconnectTimers m = ∅
   ∧ keepAliveTimers m = ∅ ∧ log m = [] ∧ actions m = [])
  ∧ botData m !! i = last (filter (fun c => cfg_id c = i) file)
  ∧ (if decide (i ∈ cfg_id <$> file)
     then botStatus m !! i = Some offlineRecord
          ∧ stateOf m i = Some (VStr "offline")
          ∧ messageQueue m !! i = Some []
          ∧ reconnectAttempts m !! i = Some 0
     else botStatus m !! i = None
          ∧ messageQueue m !! i = None
          ∧ reconnectAttempts m !! i = None
          ∧ botData m !! i = None).
Proof.
  cbv zeta. split; [apply loadBots_inert |].
  induction file as [|c file [IHd IH]] using rev_ind.
  { split; [done |]. rewrite decide_False by apply not_elem_of_nil. done. }
  rewrite loadBots_snoc, filter_app, fmap_app. simpl.
  rewrite filter_cons, filter_nil.
  destruct (decide (cfg_id c = i)) as [<- | Hne].
  - rewrite !lookup_insert_eq, last_snoc. split; [done |].
    rewrite decide_True by (apply elem_of_app; right; apply list_elem_of_singleton; done).
    unfold stateOf, getBotStatus. simpl. rewrite lookup_insert_eq. done.
  - rewrite app_nil_r. rewrite !lookup_insert_ne by done. split; [done |].
    unfold stateOf, getBotStatus in *. simpl. rewrite !lookup_insert_ne by done.
    destruct (decide (i ∈ cfg_id <$> file)) as [Hin | Hnin].
    + rewrite decide_True by (apply elem_of_app; by left). done.
    + rewrite decide_False; [done |].
      intros [H | H]%elem_of_app; [done |].
      apply list_elem_of_singleton in H. congruence.
Qed.

(** ** Endpoints do not interfere *)

Ltac view_brute :=
  unfold view; unfold_all; split_cases; map_cases; try done;
  repeat f_equal; map_cases; try done.

Lemma view_startBot c r m j : cfg_id c ≠ j → view (startBot c r m) j = view m j.
Proof. intros ?. view_brute. Qed.

Lemma view_stopBot i q m j : i ≠ j → view (snd (stopBot i q m)) j = view m j.
Proof. intros ?. view_brute. Qed.

Lemma view_sendMessage i text x m j :
  i ≠ j → view (snd (sendMessage i text x m)) j = view m j.
Proof. intros ?. view_brute. Qed.

Lemma view_disconnect b l msg upd m j :
  botId b ≠ j →
  view (afterDisconnect b (updateStatus (botId b) upd (emitLog (botId b) l msg m))) j
  = view m j.
Proof. intros ?. view_brute. Qed.

Lemma view_onMove h t m j :
  (∀ b, objects m !! h = Some b → botId b ≠ j) → view (onMove h t m) j = view m j.
Proof.
  intros H. unfold onMove. destruct (objects m !! h) as [b|] eqn:Hb; [| done].
  specialize (H b eq_refl). destruct (botStatus m !! botId b); [| done]. view_brute.
Qed.

Lemma view_onSpawn h now t m j :
  (∀ b, objects m !! h = Some b → botId b ≠ j) → view (onSpawn h now t m) j = view m j.
Proof.
  intros H. unfold onSpawn. destruct (objects m !! h) as [b|] eqn:Hb; [| done].
  specialize (H b eq_refl). destruct (spawnListener b); [| done].
  set (m1 := snd (arm _ _ _ _)).
  assert (view m1 j = view m j) as <- by (subst m1; view_brute).
  assert (view (startKeepAlive (botId b) m1) j = view m1 j) as <- by view_brute.
  destruct (processMessageQueue_frame (botId b) (startKeepAlive (botId b) m1))
    as (Hb' & Hs & _ & Hr & Hk & Ha & _ & _ & Hq & _).
  unfold view. rewrite Hb', Hs, Hr, Hk, Ha, Hq by done. done.
Qed.

(** X8: endpoints do not interfere.  Except for [shutdownAll], an event
    that is not a request for endpoint [j], not a signal of one of its
    bots and not a timer armed for it leaves everything the manager holds
    under [j] as it was: the registered bot, the status record, the
    keep-alive and reconnect records, the queue and the attempt
    counter. *)
Theorem other_endpoints_untouched (m : BotManager) (e : Event) (j : Id)
    (Hother : ¬ concerns m e j) :
  view (step m e) j = view m j.
Proof.
  destruct e; simpl in *.
  - by apply view_startBot.
  - by apply view_stopBot.
  - done.
  - by apply view_sendMessage.
  - apply view_onSpawn. intros b Hb Hj. apply Hother. eauto.
  - unfold onKicked. destruct (objects m !! h) as [b|] eqn:Hb; [| done].
    apply view_disconnect. intros Hj. apply Hother. eauto.
  - unfold onError. destruct (objects m !! h) as [b|] eqn:Hb; [| done].
    apply view_disconnect. intros Hj. apply Hother. eauto.
  - unfold onEnd. destruct (objects m !! h) as [b|] eqn:Hb; [| done].
    apply view_disconnect. intros Hj. apply Hother. eauto.
  - apply view_onMove. intros b Hb Hj. apply Hother. eauto.
  - unfold fire. destruct (timers m !! t) as [[tk d r]|] eqn:Htm; [| done].
    simpl in *.
    assert (view (if r then m else clearTimer t m) j = view m j) as <-
      by (by destruct r).
    assert (objects (if r then m else clearTimer t m) = objects m) as Hob
      by (by destruct r).
    revert Hob. generalize (if r then m else clearTimer t m). intros m' Hob.
    destruct tk as [c|h|i text|h|h]; simpl in *.
    + rewrite view_startBot by done. done.
    + done.
    + view_brute.
    + view_brute.
    + view_brute.
Qed.

Lemma other_endpoints_untouched_witness :
  view (step connected (EKicked 0 "Server closed")) "e3" = view connected "e3".
Proof.
  apply (other_endpoints_untouched connected (EKicked 0 "Server closed") "e3").
  vm_compute. intros (b & Hb & Hj). injection Hb as <-. discriminate Hj.
Defined.

(** ** The outbound queue over time *)

Ltac queue_same := unfold_all; by split_cases.

Lemma messageQueue_startBot c r m : messageQueue (startBot c r m) = messageQueue m.
Proof. queue_same. Qed.

Lemma messageQueue_stopBot i q m :
  messageQueue (snd (stopBot i q m)) = messageQueue m.
Proof. queue_same. Qed.

Lemma messageQueue_disconnect b l msg upd m :
  messageQueue (afterDisconnect b (updateStatus (botId b) upd (emitLog (botId b) l msg m)))
  = messageQueue m.
Proof. queue_same. Qed.

Lemma messageQueue_onMove h t m : messageQueue (onMove h t m) = messageQueue m.
Proof. queue_same. Qed.

Lemma messageQueue_fire t x m : messageQueue (fire t x m) = messageQueue m.
Proof. queue_same. Qed.

(** X9: the queue of an endpoint changes in two ways only.  Whatever event
    the manager handles, the queue of an endpoint afterwards is the queue
    before, or the queue before with the text of a [sendMessage] for that
    endpoint appended at the end, or empty because a bot of that endpoint
    spawned.  No event drops, reorders or rewrites single messages, and
    [stop], [shutdownAll], disconnects and timers leave every queue as it
    is. *)
Theorem queue_changes_by_send_or_flush (m : BotManager) (e : Event) (i : Id) :
  let q := default [] (messageQueue m !! i) in
  let q' := default [] (messageQueue (step m e) !! i) in
  q' = q
  ∨ (∃ text x, e = ESend i text x ∧ q' = q ++ [text])
  ∨ (∃ h now t b, e = ESpawn h now t ∧ objects m !! h = Some b ∧ botId b = i
                  ∧ spawnListener b = true ∧ q' = []).
Proof.
  cbv zeta.
  destruct e as [c r | j q | | j text x | h now t | h reason | h msg | h reason | h t | t x];
    simpl.
  - left. by rewrite messageQueue_startBot.
  - left. by rewrite messageQueue_stopBot.
  - left. unfold shutdownAll. simpl.
    by destruct (frame_shutdownFold (map_to_list (bots m))
                   (emitLog "system" info MsgShuttingDown m)) as (-> & _).
  - destruct (decide (j = i)) as [-> | Hne].
    + unfold sendMessage.
      destruct (registered m i) as [[h [c s [] l]]|]; simpl;
        [destruct x | |]; simpl; rewrite ?lookup_insert_eq; simpl;
        first [by left | right; left; by eexists _, _].
    + left. unfold sendMessage.
      destruct (registered m j) as [[h [c s [] l]]|]; simpl;
        [destruct x | |]; simpl; rewrite ?lookup_insert_ne by done; done.
  - unfold onSpawn. destruct (objects m !! h) as [b|] eqn:Hb; [| by left].
    destruct (spawnListener b) eqn:Hl; [| by left].
    set (m2 := startKeepAlive _ _).
    assert (messageQueue m2 = messageQueue m) as Hq2.
    { subst m2. by destruct (startKeepAlive_frame (botId b)
                      (snd (arm (TAuthRegister h) 5000 false
                         (updateStatus (botId b)
                            {[ "status" := VStr "online"; "connectedSince" := VStr now;
                               "world" := tl_dimension t; "dimension" := tl_dimension t;
                               "position" := tl_position t ]}
                            (emitLog (botId b) info MsgSpawned
                               (set_objects
                                  (insert h {| botConfig := botConfig b;
                                               manuallyStopped := manuallyStopped b;
                                               chat := chat b;
                                               spawnListener := false |}) m))))))
        as (-> & _). }
    destruct (decide (botId b = i)) as [<- | Hne].
    + right. right. exists h, now, t, b. repeat split; try done.
      by destruct (processMessageQueue_spec (botId b) m2) as (_ & _ & -> & _).
    + left. destruct (processMessageQueue_frame (botId b) m2)
        as (_ & _ & _ & _ & _ & _ & _ & _ & Hq & _).
      rewrite Hq by done. by rewrite Hq2.
  - left. unfold onKicked. destruct (objects m !! h); [| done].
    by rewrite messageQueue_disconnect.
  - left. unfold onError. destruct (objects m !! h); [| done].
    by rewrite messageQueue_disconnect.
  - left. unfold onEnd. destruct (objects m !! h); [| done].
    by rewrite messageQueue_disconnect.
  - left. by rewrite messageQueue_onMove.
  - left. by rewrite messageQueue_fire.
Qed.
